(** * The models of the [paypal_express_checkout] app

    A shallow embedding of [paypal_express_checkout/models.py].  The file
    declares four Django model classes and nothing else: what the classes
    do is what Django's ORM does with the declared fields and options.  The
    development therefore has two layers:

    - the class bodies, transcribed attribute by attribute and keyword by
      keyword from [models.py] (section "The class bodies");
    - the part of Django's model layer that gives the declarations their
      meaning: how the metaclass finds the fields of a class, what
      [Model.__init__], [Model.save], [Model.delete] and the default
      ordering of a query do with them.  Each definition names the Django
      function it follows.  The database is one that enforces the declared
      column types and constraints (NOT NULL, the [>= 0] check of a
      [PositiveIntegerField], [varchar(n)], foreign keys). *)

From Stdlib Require Import ZArith Lia String Ascii.
From stdpp Require Import base option list gmap strings sorting fin_maps functions.

Open Scope string_scope.
Open Scope list_scope.
Open Scope Z_scope.

(** ** Python values *)

(** A finite [decimal.Decimal]: sign, coefficient ([_int], kept as the
    natural number its digit string denotes) and exponent ([_exp]); the
    value is [(-1)^sign * coefficient * 10^exponent]. *)
Record Decimal := mkDecimal {
  dec_sign : bool;
  dec_int : N;
  dec_exp : Z
}.

Definition coefficient (d : Decimal) : Z := Z.of_N (dec_int d).

(** The values held by model attributes and table columns.  A model
    instance is referred to by its primary key; a [datetime] is a point on
    the clock; a Python [float] [m * 2^e] is kept as the pair. *)
Inductive value :=
| VNone
| VInt (n : Z)
| VStr (s : string)
| VDecimal (d : Decimal)
| VDateTime (t : Z)
| VFloat (m e : Z).

#[global] Instance Decimal_eq_dec : EqDecision Decimal.
Proof. solve_decision. Defined.

#[global] Instance value_eq_dec : EqDecision value.
Proof. solve_decision. Defined.

(** Exceptions raised by the model layer and the database. *)
Inductive exn :=
| TypeError          (* invalid keyword argument, value of the wrong type *)
| ValueError         (* None assigned to a relation that is not nullable *)
| AttributeError     (* attribute missing from the instance *)
| IntegrityError     (* NOT NULL, CHECK, primary key or foreign key violated *)
| DataError          (* value too long for the column *)
| InvalidOperation   (* decimal.InvalidOperation from quantize *)
| ProtectedError     (* on_delete=PROTECT with dependent rows *)
| RecursionError.    (* recursion limit reached *)

Inductive result (A : Type) :=
| Ok (a : A)
| Error (e : exn).
Arguments Ok {A} a.
Arguments Error {A} e.

#[global] Instance result_bind : MBind result := λ A B k r,
  match r with
  | Ok a => k a
  | Error e => Error e
  end.

#[global] Instance result_ret : MRet result := λ A a, Ok a.

Definition is_Ok {A} (r : result A) : Prop := ∃ a, r = Ok a.
Definition is_Error {A} (r : result A) : Prop := ∃ e, r = Error e.

(** ** The classes *)

(** The model classes of the file, and the two it refers to:
    [get_user_model()] and [ContentType]. *)
Inductive model :=
| User
| ContentType
| Item
| PaymentTransaction
| PurchasedItem
| PaymentTransactionError.

#[global] Instance model_eq_dec : EqDecision model.
Proof. solve_decision. Defined.

Definition all_models : list model :=
  [User; ContentType; Item; PaymentTransaction; PurchasedItem;
   PaymentTransactionError].

(** [django.db.models.deletion]: what happens to the rows that point at a
    deleted row. *)
Inductive on_delete_handler := CASCADE | PROTECT.

(** The field classes used by the file. *)
Inductive field_class :=
| AutoField
| CharField
| TextField
| DecimalField
| DateTimeField
| PositiveIntegerField
| FloatField
| ForeignKey (to : model).

(** Keyword arguments of a field constructor. *)
Inductive kwarg :=
| max_length (n : nat)
| max_digits (n : nat)
| decimal_places (n : nat)
| verbose_name (s : string)
| blank (b : bool)
| null (b : bool)
| default (v : value)
| auto_now (b : bool)
| auto_now_add (b : bool)
| choices (name : string)
| primary_key (b : bool)
| on_delete (h : on_delete_handler).

Record Field := mkField {
  fclass : field_class;
  fkwargs : list kwarg
}.

#[global] Instance on_delete_handler_eq_dec : EqDecision on_delete_handler.
Proof. solve_decision. Defined.

#[global] Instance field_class_eq_dec : EqDecision field_class.
Proof. solve_decision. Defined.

#[global] Instance kwarg_eq_dec : EqDecision kwarg.
Proof. solve_decision. Defined.

#[global] Instance Field_eq_dec : EqDecision Field.
Proof. solve_decision. Defined.

(** What a class body binds a name to. *)
Inductive class_attr :=
| AField (f : Field)                        (* a Field instance *)
| AGenericForeignKey (ct_field fk_field : string)
| ATuple (elts : list Field)                (* a Python tuple of fields *)
| AMeta (ordering : list string)            (* class Meta *)
| AMethod.                                  (* def __unicode__ *)

Definition class_body := list (string * class_attr).

Definition models_CharField kw := AField (mkField CharField kw).
Definition models_TextField kw := AField (mkField TextField kw).
Definition models_DecimalField kw := AField (mkField DecimalField kw).
Definition models_DateTimeField kw := AField (mkField DateTimeField kw).
Definition models_PositiveIntegerField kw :=
  AField (mkField PositiveIntegerField kw).
Definition models_FloatField kw := AField (mkField FloatField kw).
Definition models_ForeignKey (to : model) kw := AField (mkField (ForeignKey to) kw).
Definition generic_GenericForeignKey ct fk := AGenericForeignKey ct fk.

(** [ugettext_lazy], imported as [_]: the translation of a label leaves the
    schema as it is. *)
Definition ugettext_lazy (s : string) : string := s.

(** ** The class bodies *)

Definition Item_body : class_body := [
  ("identifier", models_CharField [
     max_length 256;
     verbose_name (ugettext_lazy "Identifier");
     blank true ]);
  ("name", models_CharField [
     max_length 2048;
     verbose_name (ugettext_lazy "Name") ]);
  ("description", models_CharField [
     max_length 4000;
     verbose_name (ugettext_lazy "Description") ]);
  ("value", models_DecimalField [
     max_digits 8;
     decimal_places 2;
     verbose_name (ugettext_lazy "Value") ]);
  ("currency", models_CharField [
     max_length 16;
     default (VStr "USD") ]);
  ("__unicode__", AMethod)
].

Definition PaymentTransaction_body : class_body := [
  ("user", models_ForeignKey User [
     verbose_name (ugettext_lazy "User") ]);
  ("content_type", models_ForeignKey ContentType [
     blank true; null true ]);
  ("object_id", models_PositiveIntegerField [
     blank true; null true ]);
  ("content_object", generic_GenericForeignKey "content_type" "object_id");
  ("creation_date", models_DateTimeField [
     auto_now_add true;
     verbose_name (ugettext_lazy "Creation time");
     blank true; null true ]);
  ("date", models_DateTimeField [
     auto_now true;
     auto_now_add true;
     verbose_name (ugettext_lazy "Time") ]);
  ("transaction_id", models_CharField [
     max_length 32;
     verbose_name (ugettext_lazy "Transaction ID") ]);
  ("value", models_DecimalField [
     max_digits 8;
     decimal_places 2;
     verbose_name (ugettext_lazy "Transaction value") ]);
  ("status", models_CharField [
     max_length 16;
     choices "STATUS_CHOICES";
     verbose_name (ugettext_lazy "Payment status") ]);
  ("Meta", AMeta ["-creation_date"; "transaction_id"]);
  ("__unicode__", AMethod)
].

Definition PurchasedItem_body : class_body := [
  ("user", models_ForeignKey User [
     verbose_name (ugettext_lazy "User") ]);
  ("identifier", models_CharField [
     max_length 256;
     verbose_name (ugettext_lazy "Identifier");
     blank true ]);
  ("transaction", models_ForeignKey PaymentTransaction [
     verbose_name (ugettext_lazy "Transaction") ]);
  ("item", models_ForeignKey Item [
     verbose_name (ugettext_lazy "Item");
     null true; blank true ]);
  ("content_type", models_ForeignKey ContentType [
     blank true; null true ]);
  ("object_id", models_PositiveIntegerField [
     blank true; null true ]);
  ("content_object", generic_GenericForeignKey "content_type" "object_id");
  ("price", models_FloatField [
     verbose_name (ugettext_lazy "Price");
     blank true; null true ]);
  ("quantity", models_PositiveIntegerField [
     verbose_name (ugettext_lazy "Quantity") ]);
  ("Meta", AMeta ["-transaction__date"; "transaction__transaction_id"]);
  ("__unicode__", AMethod)
].

(** The last statement of the class is
    [transaction = models.ForeignKey(...),] with a trailing comma: the name
    is bound to a one-element tuple that holds the field. *)
Definition PaymentTransactionError_body : class_body := [
  ("date", models_DateTimeField [
     auto_now_add true;
     verbose_name (ugettext_lazy "Time") ]);
  ("user", models_ForeignKey User [
     verbose_name (ugettext_lazy "User") ]);
  ("paypal_api_url", models_CharField [
     max_length 4000;
     verbose_name (ugettext_lazy "Paypal API URL");
     blank true ]);
  ("request_data", models_TextField [
     verbose_name (ugettext_lazy "Request data");
     blank true ]);
  ("response", models_TextField [
     verbose_name (ugettext_lazy "Response String");
     blank true ]);
  ("transaction", ATuple [
     mkField (ForeignKey PaymentTransaction) [
       blank true; null true;
       verbose_name (ugettext_lazy "Payment transaction") ] ])
].

(** The user model and [ContentType] are declared elsewhere; rows of theirs
    are known here by primary key only. *)
Definition body (m : model) : class_body :=
  match m with
  | User => []
  | ContentType => []
  | Item => Item_body
  | PaymentTransaction => PaymentTransaction_body
  | PurchasedItem => PurchasedItem_body
  | PaymentTransactionError => PaymentTransactionError_body
  end.

(** ** Django: fields and their options *)

(** The value of a keyword argument, [None] when it was not passed. *)
Definition kw_get {A} (sel : kwarg → option A) (f : Field) : option A :=
  head (omap sel (fkwargs f)).

Definition f_null (f : Field) : bool :=
  from_option id false
    (kw_get (λ k, match k with null b => Some b | _ => None end) f).

Definition f_auto_now (f : Field) : bool :=
  from_option id false
    (kw_get (λ k, match k with auto_now b => Some b | _ => None end) f).

Definition f_auto_now_add (f : Field) : bool :=
  from_option id false
    (kw_get (λ k, match k with auto_now_add b => Some b | _ => None end) f).

(** [DateField.__init__]: [if auto_now or auto_now_add:
    kwargs['editable'] = False; kwargs['blank'] = True]. *)
Definition f_blank (f : Field) : bool :=
  match fclass f with
  | DateTimeField =>
      if f_auto_now f || f_auto_now_add f then true
      else from_option id false
             (kw_get (λ k, match k with blank b => Some b | _ => None end) f)
  | _ => from_option id false
           (kw_get (λ k, match k with blank b => Some b | _ => None end) f)
  end.

Definition f_default (f : Field) : option value :=
  kw_get (λ k, match k with default v => Some v | _ => None end) f.

Definition f_max_length (f : Field) : option nat :=
  kw_get (λ k, match k with max_length n => Some n | _ => None end) f.

Definition f_max_digits (f : Field) : option nat :=
  kw_get (λ k, match k with max_digits n => Some n | _ => None end) f.

Definition f_decimal_places (f : Field) : option nat :=
  kw_get (λ k, match k with decimal_places n => Some n | _ => None end) f.

Definition f_primary_key (f : Field) : bool :=
  from_option id false
    (kw_get (λ k, match k with primary_key b => Some b | _ => None end) f).

(** [ForeignKey.__init__]: [on_delete=kwargs.pop('on_delete', CASCADE)]. *)
Definition f_on_delete (f : Field) : on_delete_handler :=
  from_option id CASCADE
    (kw_get (λ k, match k with on_delete h => Some h | _ => None end) f).

(** [Field.empty_strings_allowed], overridden to [False] by the numeric,
    date and relation fields. *)
Definition empty_strings_allowed (f : Field) : bool :=
  match fclass f with
  | CharField | TextField => true
  | _ => false
  end.

(** [Field.get_default]. *)
Definition get_default (f : Field) : value :=
  match f_default f with
  | Some v => v
  | None => if negb (empty_strings_allowed f) || f_null f then VNone
            else VStr ""
  end.

(** ** Django: the metaclass *)

(** [ModelBase.add_to_class]: an attribute with a [contribute_to_class]
    method is handed the class and registers itself; anything else is set
    as a plain class attribute.  Of the attributes of a body only a [Field]
    becomes a column; a tuple has no [contribute_to_class]. *)
Definition contributed_field (na : string * class_attr) : option (string * Field) :=
  match na.2 with
  | AField f => Some (na.1, f)
  | _ => None
  end.

(** [Options._prepare] adds [id = AutoField(primary_key=True)] to a class
    without a primary key; it comes first in [_meta.fields]. *)
Definition auto_id : string * Field :=
  ("id", mkField AutoField [verbose_name "ID"; primary_key true]).

Definition local_fields (m : model) : list (string * Field) :=
  auto_id :: omap contributed_field (body m).

(** [Field.get_attname], [ForeignKey.get_attname]: the attribute and the
    column that hold the value. *)
Definition attname (nf : string * Field) : string :=
  match fclass nf.2 with
  | ForeignKey _ => nf.1 +:+ "_id"
  | _ => nf.1
  end.

Definition get_field (m : model) (name : string) : option (string * Field) :=
  list_find (λ nf, nf.1 = name) (local_fields m) ≫= λ p, Some p.2.

(** [Options.ordering], from [class Meta]. *)
Definition meta_ordering (m : model) : list string :=
  from_option id []
    (head (omap (λ na : string * class_attr,
                   match na.2 with AMeta o => Some o | _ => None end) (body m))).

(** ** Django: instances and tables *)

(** An instance is its [__dict__]: attribute name to value.  A table maps
    a primary key to a row, column name to value.  A database has a table
    for every class. *)
Abbreviation instance := (gmap string value).
Abbreviation row := (gmap string value).
Abbreviation table := (gmap Z (gmap string value)).
Abbreviation database := (model → gmap Z (gmap string value)).

Definition empty_db : database := λ _, ∅.

(** [Model.__init__], called with keyword arguments.  Related instances
    are passed by primary key, under the name of the field or under its
    attname.  For each field in turn the value is popped from [kwargs], or
    is the default of the field; [None] passed under the name of a relation
    that is not nullable raises [ValueError]; a keyword that is left over
    after the loop raises [TypeError].  (The
    [pre_init] handler of a generic foreign key, which turns an instance
    passed under its name into the two columns, is not part of the
    embedding: callers pass the two columns.) *)
Definition init_value (kwargs : gmap string value) (nf : string * Field) : result value :=
  match fclass nf.2 with
  | ForeignKey _ =>
      match kwargs !! nf.1 with
      | Some VNone => if f_null nf.2 then Ok VNone else Error ValueError
      | Some rel_obj => Ok rel_obj
      | None =>
          match kwargs !! attname nf with
          | Some val => Ok val
          | None => Ok (get_default nf.2)
          end
      end
  | _ =>
      match kwargs !! attname nf with
      | Some val => Ok val
      | None => Ok (get_default nf.2)
      end
  end.

Fixpoint init_fields (kwargs : gmap string value) (fields : list (string * Field))
    (self : instance) : result instance :=
  match fields with
  | [] => Ok self
  | nf :: rest =>
      val ← init_value kwargs nf;
      init_fields kwargs rest (<[attname nf := val]> self)
  end.

(** The keywords popped by the loop over the fields. *)
Definition accepted_kwargs (m : model) : list string :=
  flat_map (λ nf, [nf.1; attname nf]) (local_fields m).

Definition init (m : model) (kwargs : gmap string value) : result instance :=
  self ← init_fields kwargs (local_fields m) ∅;
  if decide (dom kwargs ⊆ list_to_set (accepted_kwargs m))
  then Ok self
  else Error TypeError.

(** ** Python: [decimal.Decimal.quantize] *)

(** [len(self._int)]: the number of decimal digits of the coefficient
    (the coefficient [0] is the string ['0']). *)
Fixpoint len_digits (fuel : nat) (n : Z) : Z :=
  match fuel with
  | O => 1
  | S fuel' => if n <? 10 then 1 else 1 + len_digits fuel' (n / 10)
  end.

Definition len_int (n : Z) : Z := len_digits (Z.to_nat (Z.log2 n)) n.

(** [Decimal.adjusted]. *)
Definition adjusted (d : Decimal) : Z := dec_exp d + len_int (coefficient d) - 1.

(** The default context of the [decimal] module: [Emax], [Emin], and
    rounding [ROUND_HALF_EVEN]. *)
Definition Emax : Z := 999999999.
Definition Emin : Z := -999999999.

(** [Context.Etiny] for a context of precision [prec]. *)
Definition Etiny (prec : Z) : Z := Emin - prec + 1.

(** [Decimal._rescale(exp, ROUND_HALF_EVEN)]: pad with zeros when the
    exponent goes down; otherwise drop the last [exp - _exp] digits and add
    one to what is kept when the dropped part is above half a unit, or is
    exactly half and the kept part is odd. *)
Definition rescale (d : Decimal) (exp : Z) : Decimal :=
  if coefficient d =? 0 then mkDecimal (dec_sign d) 0 exp
  else if dec_exp d >=? exp
  then mkDecimal (dec_sign d) (Z.to_N (coefficient d * 10 ^ (dec_exp d - exp))) exp
  else
    let unit := 10 ^ (exp - dec_exp d) in
    let coeff := coefficient d / unit in
    let dropped := coefficient d mod unit in
    let changed := (2 * dropped >? unit) || ((2 * dropped =? unit) && Z.odd coeff) in
    mkDecimal (dec_sign d) (Z.to_N (if changed then coeff + 1 else coeff)) exp.

(** [self.quantize(exp, context)] for a context of precision [prec]: the
    number rounded to the exponent [exp], or [InvalidOperation] when the
    exponent is out of bounds or the result would need more than [prec]
    digits.  ([Decimal._fix], applied to the result, leaves a number of at
    most [prec] digits and of an exponent within bounds as it is.) *)
Definition quantize (d : Decimal) (exp : Z) (prec : Z) : result Decimal :=
  if negb ((Etiny prec <=? exp) && (exp <=? Emax)) then Error InvalidOperation
  else if coefficient d =? 0 then Ok (mkDecimal (dec_sign d) 0 exp)
  else if adjusted d >? Emax then Error InvalidOperation
  else if adjusted d - exp + 1 >? prec then Error InvalidOperation
  else
    let ans := rescale d exp in
    if adjusted ans >? Emax then Error InvalidOperation
    else if len_int (coefficient ans) >? prec then Error InvalidOperation
    else Ok ans.

(** [django.db.backends.util.format_number]:
    [context.prec = max_digits;
     value.quantize(decimal.Decimal(".1") ** decimal_places, context=context)]. *)
Definition format_number (value : Decimal) (max_digits decimal_places : nat) : result Decimal :=
  quantize value (- Z.of_nat decimal_places) (Z.of_nat max_digits).

(** ** Django: saving *)

(** [Field.get_db_prep_save]: the value sent to the database.  An
    attribute holds [None] or a value of the Python type of its field; the
    conversions Django attempts on a value of another type are not
    modelled, such a value is refused.  [DecimalField.get_db_prep_save]
    goes through [connection.ops.value_to_db_decimal], which is
    [format_number] on anything but [None]. *)
Definition get_db_prep_save (f : Field) (v : value) : result value :=
  match v with
  | VNone => Ok VNone
  | _ =>
    match fclass f, v with
    | AutoField, VInt _ => Ok v
    | PositiveIntegerField, VInt _ => Ok v
    | ForeignKey _, VInt _ => Ok v
    | CharField, VStr _ => Ok v
    | TextField, VStr _ => Ok v
    | DateTimeField, VDateTime _ => Ok v
    | FloatField, VFloat _ _ => Ok v
    | DecimalField, VDecimal d =>
        match f_max_digits f, f_decimal_places f with
        | Some md, Some dp => d' ← format_number d md dp; Ok (VDecimal d')
        | _, _ => Ok v
        end
    | _, _ => Error TypeError
    end
  end.

(** The constraints of the column created for a field: NOT NULL unless
    [null=True]; [varchar(max_length)]; [CHECK (col >= 0)] for a
    [PositiveIntegerField]; a reference to the primary key of the target
    for a [ForeignKey]. *)
Definition check_column (db : database) (f : Field) (v : value) : result () :=
  match v with
  | VNone => if f_null f then Ok () else Error IntegrityError
  | _ =>
    match fclass f, v with
    | CharField, VStr s =>
        match f_max_length f with
        | Some n => if decide (String.length s ≤ n)%nat then Ok () else Error DataError
        | None => Ok ()
        end
    | PositiveIntegerField, VInt n =>
        if decide (0 ≤ n) then Ok () else Error IntegrityError
    | ForeignKey to, VInt pk =>
        if decide (is_Some (db to !! pk)) then Ok () else Error IntegrityError
    | _, _ => Ok ()
    end
  end.

(** [getattr(model_instance, self.attname)]. *)
Definition getattr (self : instance) (name : string) : result value :=
  match self !! name with
  | Some v => Ok v
  | None => Error AttributeError
  end.

(** [Field.pre_save] and [DateTimeField.pre_save]:
    [if self.auto_now or (self.auto_now_add and add):
       value = timezone.now(); setattr(model_instance, self.attname, value)]
    and otherwise the attribute as it is.  Returns the value and the
    instance. *)
Definition pre_save (now : Z) (nf : string * Field) (self : instance) (add : bool)
    : result (value * instance) :=
  match fclass nf.2 with
  | DateTimeField =>
      if f_auto_now nf.2 || (f_auto_now_add nf.2 && add)
      then Ok (VDateTime now, <[attname nf := VDateTime now]> self)
      else v ← getattr self (attname nf); Ok (v, self)
  | _ => v ← getattr self (attname nf); Ok (v, self)
  end.

(** The value of one column of the INSERT or UPDATE statement. *)
Definition column_value (now : Z) (db : database) (add : bool)
    (nf : string * Field) (self : instance) : result (value * instance) :=
  '(v, self') ← pre_save now nf self add;
  v' ← get_db_prep_save nf.2 v;
  _ ← check_column db nf.2 v';
  Ok (v', self').

Fixpoint column_values (now : Z) (db : database) (add : bool)
    (fields : list (string * Field)) (self : instance) (r : row)
    : result (row * instance) :=
  match fields with
  | [] => Ok (r, self)
  | nf :: rest =>
      '(v, self') ← column_value now db add nf self;
      column_values now db add rest self' (<[attname nf := v]> r)
  end.

(** The next value of the sequence behind an [AutoField]: above every key
    of the table. *)
Definition next_pk (t : table) : Z :=
  1 + foldr Z.max 0 ((map_to_list t).*1).

Definition non_pks (m : model) : list (string * Field) :=
  filter (λ nf, f_primary_key nf.2 = false) (local_fields m).

(** [Model.save_base].  With a primary key that is in the table (and no
    [force_insert]) the row is updated with the values of the fields that
    are not the primary key, [pre_save] being called with [add=False].
    Otherwise a row is inserted, [pre_save] being called with [add=True]:
    under the primary key of the instance when it has one, which must not
    be in the table, and under the next value of the sequence when it has
    none, which is then set on the instance. *)
Definition save (now : Z) (db : database) (m : model) (self : instance)
    (force_insert : bool) : result (database * instance) :=
  pk_val ← getattr self "id";
  match pk_val with
  | VInt pk =>
      if negb force_insert && bool_decide (is_Some (db m !! pk)) then
        '(r, self') ← column_values now db false (non_pks m) self {["id" := VInt pk]};
        Ok (<[m := <[pk := r]> (db m)]> db, self')
      else
        if bool_decide (is_Some (db m !! pk)) then Error IntegrityError
        else
          '(r, self') ← column_values now db true (non_pks m) self {["id" := VInt pk]};
          Ok (<[m := <[pk := r]> (db m)]> db, self')
  | VNone =>
      let pk := next_pk (db m) in
      '(r, self') ← column_values now db true (non_pks m) self {["id" := VInt pk]};
      Ok (<[m := <[pk := r]> (db m)]> db, <["id" := VInt pk]> self')
  | _ => Error TypeError
  end.

(** [Manager.create], [QuerySet.create]:
    the instance is built from the keyword arguments, then
    [obj.save(force_insert=True); return obj]. *)
Definition create (now : Z) (db : database) (m : model) (kwargs : gmap string value)
    : result (database * instance) :=
  obj ← init m kwargs;
  save now db m obj true.

(** ** Django: deleting *)

(** [Options.get_all_related_objects]: the foreign keys, of any class,
    that point at [m]. *)
Definition points_at (m m' : model) (nf : string * Field)
    : option (model * (string * Field)) :=
  match fclass nf.2 with
  | ForeignKey to => if decide (to = m) then Some (m', nf) else None
  | _ => None
  end.

Definition related_objects (m : model) : list (model * (string * Field)) :=
  flat_map (λ m', omap (points_at m m') (local_fields m')) all_models.

(** [Collector.related_objects]: the rows of [m'] whose column [col] holds
    one of [pks]. *)
Definition refers (col : string) (pks : list Z) (r : row) : bool :=
  match r !! col with
  | Some (VInt pk) => bool_decide (pk ∈ pks)
  | _ => false
  end.

Definition referring (db : database) (m' : model) (col : string) (pks : list Z) : list Z :=
  (map_to_list (filter (λ kr : Z * row, refers col pks kr.2 = true) (db m'))).*1.

(** [Collector.collect]: add the objects that are not collected yet; for
    every foreign key that points at their class, hand the rows that refer
    to them to the handler of the key.  [CASCADE] collects them in turn,
    [PROTECT] raises.  [fuel] bounds the depth of the recursion. *)
Fixpoint collect (fuel : nat) (db : database) (m : model) (pks : list Z)
    (data : list (model * Z)) : result (list (model * Z)) :=
  match fuel with
  | O => Error RecursionError
  | S fuel' =>
      let new_objs := filter (λ pk, (m, pk) ∉ data) pks in
      match new_objs with
      | [] => Ok data
      | _ =>
          foldl (λ acc (rel : model * (string * Field)),
                   data' ← acc;
                   let sub_objs := referring db rel.1 (attname rel.2) new_objs in
                   match sub_objs with
                   | [] => Ok data'
                   | _ =>
                       match f_on_delete rel.2.2 with
                       | CASCADE => collect fuel' db rel.1 sub_objs data'
                       | PROTECT => Error ProtectedError
                       end
                   end)
                (Ok (data ++ (pair m <$> new_objs)))
                (related_objects m)
      end
  end.

(** [Collector.delete]: delete every collected row. *)
Definition delete_rows (db : database) (data : list (model * Z)) : database :=
  foldl (λ (db : database) (mp : model * Z), <[mp.1 := delete mp.2 (db mp.1)]> db)
        db data.

(** [Model.delete]: [collector.collect([self]); collector.delete()].  A
    chain of foreign keys visits a class at most once, which bounds the
    depth of the collection by the number of classes. *)
Definition Model_delete (db : database) (m : model) (pk : Z) : result database :=
  data ← collect (length all_models) db m [pk] [];
  Ok (delete_rows db data).

(** A DELETE statement for one row that is sent to the database as it
    is, past the collector.  The foreign keys of the tables are created as
    [REFERENCES ... DEFERRABLE INITIALLY DEFERRED], with no ON DELETE
    action: the database refuses the statement while a row refers to the
    deleted one. *)
Definition sql_delete (db : database) (m : model) (pk : Z) : result database :=
  if decide (Forall (λ rel : model * (string * Field),
                       referring db rel.1 (attname rel.2) [pk] = [])
                    (related_objects m))
  then Ok (<[m := delete pk (db m)]> db)
  else Error IntegrityError.

(** ** Django: the default ordering of a query *)

(** [name.split(LOOKUP_SEP)], with [LOOKUP_SEP = '__']. *)
Fixpoint split_lookup (s : string) (piece : string) : list string :=
  match s with
  | EmptyString => [piece]
  | String "_" (String "_" rest) => piece :: split_lookup rest ""
  | String c rest => split_lookup rest (piece +:+ String c "")
  end.

(** [get_order_dir]: a leading ['-'] asks for descending order. *)
Definition get_order_dir (field : string) : string * bool :=
  match field with
  | String "-" rest => (rest, true)
  | _ => (field, false)
  end.

(** [Query.setup_joins] on the pieces of a name: a piece that is followed
    by another names a foreign key, and the row it refers to is joined
    (with an inner join; a NULL reference gives NULL); the last piece names
    the column.  The orderings of this file all end in a column. *)
Fixpoint lookup_path (db : database) (m : model) (r : row) (pieces : list string)
    : option value :=
  match pieces with
  | [] => None
  | name :: rest =>
      nf ← get_field m name;
      v ← r !! attname nf;
      match rest with
      | [] => Some v
      | _ =>
          match fclass nf.2, v with
          | ForeignKey to, VInt pk => r' ← db to !! pk; lookup_path db to r' rest
          | ForeignKey _, VNone => Some VNone
          | _, _ => None
          end
      end
  end.

(** The ORDER BY terms of a class, one per entry of [Meta.ordering]: the
    pieces of the name, and whether the order is descending. *)
Definition order_term (entry : string) : list string * bool :=
  let '(name, descending) := get_order_dir entry in
  (split_lookup name "", descending).

Definition ordering_terms (m : model) : list (list string * bool) :=
  order_term <$> meta_ordering m.

(** The values of the ORDER BY terms for a row; [None] when the joins
    leave the row out. *)
Definition sort_key (db : database) (m : model) (r : row) : option (list value) :=
  mapM (λ term : list string * bool, lookup_path db m r term.1) (ordering_terms m).

(** Comparison of two numbers [c1 * base^e1] and [c2 * base^e2]. *)
Definition sci_compare (base c1 e1 c2 e2 : Z) : comparison :=
  let e := Z.min e1 e2 in
  (c1 * base ^ (e1 - e)) ?= (c2 * base ^ (e2 - e)).

Definition dec_signed (d : Decimal) : Z :=
  if dec_sign d then - coefficient d else coefficient d.

Definition Decimal_compare (d1 d2 : Decimal) : comparison :=
  sci_compare 10 (dec_signed d1) (dec_exp d1) (dec_signed d2) (dec_exp d2).

Definition type_rank (v : value) : Z :=
  match v with
  | VNone => 0
  | VInt _ => 1
  | VStr _ => 2
  | VDecimal _ => 3
  | VDateTime _ => 4
  | VFloat _ _ => 5
  end.

(** Comparison of two values of a column.  Where NULL sorts depends on the
    database: above every value ([nulls_high], as PostgreSQL and Oracle do)
    or below every value (MySQL, SQLite).  Strings are compared byte by
    byte.  A column holds values of one type; values of different types
    are ordered by type. *)
Definition value_compare (nulls_high : bool) (a b : value) : comparison :=
  match a, b with
  | VNone, VNone => Eq
  | VNone, _ => if nulls_high then Gt else Lt
  | _, VNone => if nulls_high then Lt else Gt
  | VInt x, VInt y => x ?= y
  | VStr x, VStr y => String.compare x y
  | VDecimal x, VDecimal y => Decimal_compare x y
  | VDateTime x, VDateTime y => x ?= y
  | VFloat m1 e1, VFloat m2 e2 => sci_compare 2 m1 e1 m2 e2
  | _, _ => type_rank a ?= type_rank b
  end.

(** ORDER BY: the first term that differs decides; a descending term
    compares the other way round.  (The rows of a query all have the same
    terms; of two lists of values of different length the one that ends
    first comes first.) *)
Fixpoint key_compare (nulls_high : bool) (descending : list bool)
    (ka kb : list value) : comparison :=
  match descending with
  | [] => Eq
  | d :: ds =>
      match ka, kb with
      | [], [] => Eq
      | [], _ :: _ => Lt
      | _ :: _, [] => Gt
      | a :: ra, b :: rb =>
          match (if d then value_compare nulls_high b a
                 else value_compare nulls_high a b) with
          | Eq => key_compare nulls_high ds ra rb
          | c => c
          end
      end
  end.

Definition key_le (nulls_high : bool) (descending : list bool)
    (x y : list value * row) : Prop :=
  key_compare nulls_high descending x.1 y.1 ≠ Gt.

#[global] Instance comparison_eq_dec : EqDecision comparison.
Proof. solve_decision. Defined.

#[global] Instance key_le_dec nulls_high descending x y :
  Decision (key_le nulls_high descending x y).
Proof. unfold key_le. apply _. Defined.

(** The rows of a table with their ORDER BY values. *)
Definition keyed_rows (db : database) (m : model) : list (list value * row) :=
  omap (λ kr : Z * row, k ← sort_key db m kr.2; Some (k, kr.2))
       (map_to_list (db m)).

(** The rows of [m] in the default order of [m.objects.all()]. *)
Definition order_by (nulls_high : bool) (db : database) (m : model) : list row :=
  (merge_sort (key_le nulls_high (ordering_terms m).*2) (keyed_rows db m)).*2.

(** ** Notions used by the statements *)

(** Whether [pre_save] stamps the field with the clock. *)
Definition stamps (nf : string * Field) (add : bool) : bool :=
  match fclass nf.2 with
  | DateTimeField => f_auto_now nf.2 || (f_auto_now_add nf.2 && add)
  | _ => false
  end.

(** Whether [save] updates a row that is there, rather than inserting. *)
Definition is_update (db : database) (m : model) (self : instance)
    (force_insert : bool) : bool :=
  negb force_insert &&
  match self !! "id" with
  | Some (VInt pk) => bool_decide (is_Some (db m !! pk))
  | _ => false
  end.

(** A run of later saves of an instance: before each save some attributes
    are assigned ([edits]), then [save()] is called at the given time.  An
    exception ends the run. *)
Fixpoint run_saves (m : model) (db : database) (self : instance)
    (saves : list (Z * gmap string value)) : result (database * instance) :=
  match saves with
  | [] => Ok (db, self)
  | (now, edits) :: rest =>
      '(db', self') ← save now db m (edits ∪ self) false;
      run_saves m db' self' rest
  end.

(** The state in which a transaction sits between two saves: the instance
    knows its primary key and its creation date, and the stored row has the
    same creation date. *)
Definition created_at (t pk : Z) (st : database * instance) : Prop :=
  st.2 !! "id" = Some (VInt pk) ∧
  st.2 !! "creation_date" = Some (VDateTime t) ∧
  ∃ r, st.1 PaymentTransaction !! pk = Some r ∧
       r !! "creation_date" = Some (VDateTime t).

(** ** Sample data *)

(** A database with one user. *)
Definition sample_users : database :=
  <[User := {[1 := {["id" := VInt 1]}]}]> empty_db.

Definition sample_transaction_kwargs (transaction_id : string) : gmap string value :=
  {[ "user" := VInt 1;
     "transaction_id" := VStr transaction_id;
     "value" := VDecimal (mkDecimal false 1050 (-2));
     "status" := VStr "pending" ]}.

Definition sample_purchase_kwargs (transaction quantity : Z) : gmap string value :=
  {[ "user" := VInt 1;
     "transaction" := VInt transaction;
     "quantity" := VInt quantity ]}.

(** The outcome of an operation that is known to succeed. *)
Definition outcome {A} (r : result A) (otherwise : A) : A :=
  match r with
  | Ok a => a
  | Error _ => otherwise
  end.

Definition succeeds {A} (r : result A) : bool :=
  match r with
  | Ok _ => true
  | Error _ => false
  end.

(** The sample database after a transaction was created at time 100. *)
Definition sample_instance : instance :=
  outcome (init PaymentTransaction (sample_transaction_kwargs "TX-B")) ∅.

Definition sample_created : database * instance :=
  outcome (save 100 sample_users PaymentTransaction sample_instance true)
          (sample_users, ∅).

(** The same after the instance was saved again at time 250 with a new
    status. *)
Definition sample_saved : database * instance :=
  outcome (save 250 sample_created.1 PaymentTransaction
             (<["status" := VStr "completed"]> sample_created.2) false)
          sample_created.

Definition sample_create : result (database * instance) :=
  create 100 sample_users PaymentTransaction (sample_transaction_kwargs "TX-B").

(** Two later saves: the status changes, then the value. *)
Definition sample_saves : list (Z * gmap string value) :=
  [ (250, {["status" := VStr "completed"]});
    (300, {["value" := VDecimal (mkDecimal false 999 (-2))]}) ].

Definition sample_run : result (database * instance) :=
  run_saves PaymentTransaction
    (outcome sample_create (sample_users, ∅)).1
    (outcome sample_create (sample_users, ∅)).2
    sample_saves.

(** Saving with [creation_date] set to [None]. *)
Definition sample_null_save : result (database * instance) :=
  save 250 (outcome sample_create (sample_users, ∅)).1 PaymentTransaction
    (<["creation_date" := VNone]> (outcome sample_create (sample_users, ∅)).2)
    false.

(** The database in which purchases are made: one user, one transaction. *)
Definition sample_shop : database := (outcome sample_create (sample_users, ∅)).1.

(** A purchase with quantity 0, and one with quantity -1. *)
Definition sample_purchase_zero : result (database * instance) :=
  create 300 sample_shop PurchasedItem (sample_purchase_kwargs 1 0).

Definition sample_purchase_negative : result (database * instance) :=
  create 300 sample_shop PurchasedItem (sample_purchase_kwargs 1 (-1)).

(** An error record for which a transaction is passed. *)
Definition sample_error_kwargs : gmap string value :=
  {[ "user" := VInt 1;
     "paypal_api_url" := VStr "https://api-3t.sandbox.paypal.com/nvp";
     "transaction" := VInt 1 ]}.

(** ** Amounts *)

(** Order of two decimals by value. *)
Definition Decimal_le (d1 d2 : Decimal) : Prop := Decimal_compare d1 d2 ≠ Gt.

#[global] Instance Decimal_le_dec d1 d2 : Decision (Decimal_le d1 d2).
Proof. unfold Decimal_le. apply _. Defined.

(** [-999999.99 <= d <= 999999.99]. *)
Definition in_amount_range (d : Decimal) : Prop :=
  Decimal_le (mkDecimal true 99999999 (-2)) d ∧
  Decimal_le d (mkDecimal false 99999999 (-2)).

(** The fields that hold an amount: [Item.value] and
    [PaymentTransaction.value]. *)
Definition amount_fields : list (model * (string * Field)) :=
  omap (λ m, nf ← get_field m "value"; Some (m, nf)) [Item; PaymentTransaction].

(** 999999.994: outside the range, by less than half a cent. *)
Definition sample_fine_amount : Decimal := mkDecimal false 999999994 (-3).

Definition sample_fine_create : result (database * instance) :=
  create 100 sample_users PaymentTransaction
    (<["value" := VDecimal sample_fine_amount]> (sample_transaction_kwargs "TX-B")).

(** The sample database after a purchase of quantity 2 in transaction 1. *)
Definition sample_purchase : result (database * instance) :=
  create 300 sample_shop PurchasedItem (sample_purchase_kwargs 1 2).

Definition sample_order : database := (outcome sample_purchase (sample_shop, ∅)).1.

(** ** The error log *)

(** The rows of a table as [save] writes them: a row holds its key in
    [id] and has no column besides those of the fields of the class. *)
Definition row_ok (m : model) (pk : Z) (r : row) : Prop :=
  r !! "id" = Some (VInt pk) ∧
  dom r ⊆ (list_to_set (attname <$> local_fields m) : gset string).

#[global] Instance row_ok_dec m pk r : Decision (row_ok m pk r).
Proof. unfold row_ok. apply _. Defined.

(** An operation of the model layer on the database: [objects.create]
    with keyword arguments, [save] of an instance, [delete] of a row. *)
Inductive operation :=
| OpCreate (now : Z) (m : model) (kwargs : gmap string value)
| OpSave (now : Z) (m : model) (self : instance) (force_insert : bool)
| OpDelete (m : model) (pk : Z).

Definition run (db : database) (o : operation) : result database :=
  match o with
  | OpCreate now m kwargs => p ← create now db m kwargs; Ok p.1
  | OpSave now m self force_insert => p ← save now db m self force_insert; Ok p.1
  | OpDelete m pk => Model_delete db m pk
  end.

(** A sequence of operations; an exception ends it. *)
Fixpoint run_all (db : database) (ops : list operation) : result database :=
  match ops with
  | [] => Ok db
  | o :: rest => db' ← run db o; run_all db' rest
  end.

(** The operations that spare the error record [pk], stored as the row
    [r]: every create; every save of an object of another class, of
    another error record, or of the record as it is stored; the deletion of
    an Item, of a PurchasedItem, or of another error record.  Left out are
    the save of the record with attributes changed, the deletion of the
    record, and the deletion of a User, a PaymentTransaction or a
    ContentType. *)
Definition spares (pk : Z) (r : row) (o : operation) : Prop :=
  match o with
  | OpCreate _ _ _ => True
  | OpSave _ m self _ =>
      m ≠ PaymentTransactionError ∨ self !! "id" ≠ Some (VInt pk) ∨ self = r
  | OpDelete m k =>
      m = Item ∨ m = PurchasedItem ∨ (m = PaymentTransactionError ∧ k ≠ pk)
  end.

#[global] Instance spares_dec pk r o : Decision (spares pk r o).
Proof. destruct o; simpl; apply _. Defined.

(** The length of the longest chain of foreign keys that ends in a
    class. *)
Definition depth (m : model) : nat :=
  match m with
  | PurchasedItem | PaymentTransactionError => 0
  | PaymentTransaction | Item => 1
  | User | ContentType => 2
  end.

(** The sample order with an error record logged at time 400. *)
Definition sample_error : result (database * instance) :=
  create 400 sample_order PaymentTransactionError
    {[ "user" := VInt 1;
       "paypal_api_url" := VStr "https://api-3t.sandbox.paypal.com/nvp";
       "request_data" := VStr "METHOD=SetExpressCheckout";
       "response" := VStr "ACK=Failure" ]}.

Definition sample_logged : database := (outcome sample_error (sample_order, ∅)).1.

(** The error record of the sample log, as it is stored. *)
Definition sample_log_row : row :=
  from_option id ∅ (sample_logged PaymentTransactionError !! 1).

(** The record is saved again as it is stored, the transaction is saved
    with a new status, another error is logged, and the purchase is
    deleted. *)
Definition sample_sparing_ops : list operation :=
  [ OpSave 500 PaymentTransactionError sample_log_row false;
    OpSave 600 PaymentTransaction
      (<["status" := VStr "failed"]>
         (from_option id ∅ (sample_logged PaymentTransaction !! 1))) false;
    OpCreate 700 PaymentTransactionError
      {[ "user" := VInt 1; "response" := VStr "ACK=Failure" ]};
    OpDelete PurchasedItem 1 ].

(** The record is given another response and saved. *)
Definition sample_rewriting_ops : list operation :=
  [ OpSave 500 PaymentTransactionError
      (<["response" := VStr "ACK=Success"]> sample_log_row) false ].

(** The record is deleted. *)
Definition sample_deleting_ops : list operation :=
  [ OpDelete PaymentTransactionError 1 ].

(** ** Orders *)

(** A comparison function that orders its type as a total preorder. *)
Class Comparison {A} (cmp : A → A → comparison) := {
  cmp_antisym a b : cmp b a = CompOpp (cmp a b);
  cmp_eq_l a b c : cmp a b = Eq → cmp a c = cmp b c;
  cmp_lt_trans a b c : cmp a b = Lt → cmp b c = Lt → cmp a c = Lt
}.
Arguments cmp_antisym {A} cmp {_} a b.
Arguments cmp_eq_l {A} cmp {_} a b c.
Arguments cmp_lt_trans {A} cmp {_} a b c.

(** A name of the class that is a column of its table. *)
Definition column_of (m : model) (name col : string) : Prop :=
  ∃ nf, get_field m name = Some nf ∧ attname nf = col.

(** [r1] may come before [r2] in an order that is descending in [f] with
    ties broken by ascending [g]: [f r1] is above [f r2], or they are equal
    and [g r1] is not above [g r2]. *)
Definition desc_then_asc (nulls_high : bool) (f g : row → option value)
    (r1 r2 : row) : Prop :=
  ∃ a1 a2 b1 b2,
    f r1 = Some a1 ∧ f r2 = Some a2 ∧ g r1 = Some b1 ∧ g r2 = Some b2 ∧
    (value_compare nulls_high a1 a2 = Gt ∨
     (value_compare nulls_high a1 a2 = Eq ∧ value_compare nulls_high b1 b2 ≠ Gt)).

(** The PaymentTransaction row a PurchasedItem row refers to. *)
Definition transaction_of (db : database) (r : row) : option row :=
  match r !! "transaction_id" with
  | Some (VInt pk) => db PaymentTransaction !! pk
  | _ => None
  end.

(** Three transactions, created at 100, 100 and 200, and a purchase in
    each. *)
Definition sample_history : result database :=
  '(db, _) ← create 100 sample_users PaymentTransaction (sample_transaction_kwargs "TX-B");
  '(db, _) ← create 100 db PaymentTransaction (sample_transaction_kwargs "TX-A");
  '(db, _) ← create 200 db PaymentTransaction (sample_transaction_kwargs "TX-C");
  '(db, _) ← create 300 db PurchasedItem (sample_purchase_kwargs 1 1);
  '(db, _) ← create 300 db PurchasedItem (sample_purchase_kwargs 3 2);
  '(db, _) ← create 300 db PurchasedItem (sample_purchase_kwargs 2 5);
  Ok db.

Definition sample_history_db : database := outcome sample_history sample_users.

(** A creation that passes a creation date of its own. *)
Definition sample_backdated : result (database * instance) :=
  create 100 sample_users PaymentTransaction
    (<["creation_date" := VDateTime 7]> (sample_transaction_kwargs "TX-B")).

(** The user of the sample log is deleted. *)
Definition sample_user_deleted : result database :=
  Model_delete sample_logged User 1.

(** ** Further notions: fields, defaults and references *)

(** The classes declared by the file. *)
Definition file_models : list model :=
  [Item; PaymentTransaction; PurchasedItem; PaymentTransactionError].

(** The fields that must be passed for a record to be created: not
    nullable, without default, not text (a text field defaults to the
    empty string), not stamped by the clock. *)
Definition required_fields : list (model * string) :=
  [ (Item, "value");
    (PaymentTransaction, "user");
    (PaymentTransaction, "value");
    (PurchasedItem, "user");
    (PurchasedItem, "transaction");
    (PurchasedItem, "quantity");
    (PaymentTransactionError, "user") ].

(** The text fields without a default, all of them not nullable. *)
Definition text_fields : list (model * string) :=
  [ (Item, "identifier"); (Item, "name"); (Item, "description");
    (PaymentTransaction, "transaction_id"); (PaymentTransaction, "status");
    (PurchasedItem, "identifier");
    (PaymentTransactionError, "paypal_api_url");
    (PaymentTransactionError, "request_data");
    (PaymentTransactionError, "response") ].

(** The declared [max_length] of the [CharField]s. *)
Definition length_bounds : list (model * string * nat) :=
  [ (Item, "identifier", 256%nat); (Item, "name", 2048%nat);
    (Item, "description", 4000%nat); (Item, "currency", 16%nat);
    (PaymentTransaction, "transaction_id", 32%nat);
    (PaymentTransaction, "status", 16%nat);
    (PurchasedItem, "identifier", 256%nat);
    (PaymentTransactionError, "paypal_api_url", 4000%nat) ].

(** The foreign keys of a row point at rows that are there. *)
Definition fk_ok_field (db : database) (r : row) (nf : string * Field) : bool :=
  match fclass nf.2, r !! attname nf with
  | ForeignKey to, Some (VInt k) => bool_decide (is_Some (db to !! k))
  | _, _ => true
  end.

Definition fk_ok_row (db : database) (m : model) (r : row) : Prop :=
  Forall (λ nf, fk_ok_field db r nf = true) (local_fields m).

(** Referential integrity of a database. *)
Definition fk_ok (db : database) : Prop :=
  Forall (λ m, map_Forall (λ (_ : Z) (r : row), fk_ok_row db m r) (db m)) all_models.

#[global] Instance fk_ok_row_dec db m r : Decision (fk_ok_row db m r).
Proof. unfold fk_ok_row. apply _. Defined.

#[global] Instance fk_ok_dec db : Decision (fk_ok db).
Proof. unfold fk_ok. apply _. Defined.

(** One operation of the model layer on the database, of any class:
    create, save, delete. *)
Inductive orm_step (db : database) : database → Prop :=
| orm_create now m kwargs db' self' :
    create now db m kwargs = Ok (db', self') → orm_step db db'
| orm_save now m self force_insert db' self' :
    save now db m self force_insert = Ok (db', self') → orm_step db db'
| orm_delete m pk db' :
    Model_delete db m pk = Ok db' → orm_step db db'.

(** A field, by class and name, that [create] stores as it is passed or,
    when it is not passed, as the default [dflt]: it is not a relation, not
    a decimal, and not stamped by the clock. *)
Definition plain_field (m : model) (name : string) (dflt : value) : bool :=
  match get_field m name with
  | Some nf =>
      bool_decide (nf ∈ non_pks m) && bool_decide (nf.1 = name) &&
      bool_decide (attname nf = name) &&
      match fclass nf.2 with
      | ForeignKey _ | DecimalField => false
      | _ => true
      end &&
      negb (stamps nf true) && negb (stamps nf false) &&
      bool_decide (get_default nf.2 = dflt)
  | None => false
  end.

(** A field that has no value unless one is passed, and does not accept
    NULL. *)
Definition needs_value (m : model) (name : string) : bool :=
  match get_field m name with
  | Some nf =>
      bool_decide (nf ∈ non_pks m) && bool_decide (nf.1 = name) &&
      bool_decide (attname nf = name ∨ attname nf = name +:+ "_id") &&
      negb (stamps nf true) && negb (f_null nf.2) &&
      bool_decide (get_default nf.2 = VNone)
  | None => false
  end.

(** A [CharField] of at most [n] characters that does not accept NULL. *)
Definition bounded_text (m : model) (name : string) (n : nat) : bool :=
  match get_field m name with
  | Some nf =>
      bool_decide (nf ∈ non_pks m) && bool_decide (attname nf = name) &&
      bool_decide (fclass nf.2 = CharField) &&
      bool_decide (f_max_length nf.2 = Some n) && negb (f_null nf.2)
  | None => false
  end.

(** Creations that pass the required fields and nothing else. *)
Definition sample_minimal_item : result (database * instance) :=
  create 100 sample_users Item {[ "value" := VDecimal (mkDecimal false 5 0) ]}.

Definition sample_minimal_transaction : result (database * instance) :=
  create 100 sample_users PaymentTransaction
    {[ "user" := VInt 1; "value" := VDecimal (mkDecimal false 5 0) ]}.

Definition sample_minimal_purchase : result (database * instance) :=
  create 300 sample_shop PurchasedItem (sample_purchase_kwargs 1 1).

Definition sample_minimal_error : result (database * instance) :=
  create 400 sample_users PaymentTransactionError {[ "user" := VInt 1 ]}.

(** A transaction identifier of 33 characters. *)
Definition sample_long_id : string := "123456789012345678901234567890123".

Definition sample_no_value : result (database * instance) :=
  create 100 sample_users PaymentTransaction {[ "user" := VInt 1 ]}.

(** The sample instance with that identifier. *)
Definition sample_long_instance : instance :=
  <["transaction_id" := VStr sample_long_id]> sample_instance.

(** A second transaction is created in the database of the shop, which
    holds the transaction 1. *)
Definition sample_second_create : result (database * instance) :=
  create 200 sample_shop PaymentTransaction (sample_transaction_kwargs "TX-C").

(** ** Further notions: what a deletion reaches *)

(** A row refers to another row: a foreign key of its class points at the
    class of the other row, and its column holds the key of the other
    row. *)
Definition refers_to (db : database) (x y : model * Z) : Prop :=
  ∃ nf r, nf ∈ local_fields x.1 ∧ fclass nf.2 = ForeignKey y.1 ∧
          db x.1 !! x.2 = Some r ∧ r !! attname nf = Some (VInt y.2).

(** The step of the loop of [Collector.collect] over the foreign keys that
    point at the class of the collected objects. *)
Definition collect_step (fuel : nat) (db : database) (new_objs : list Z)
    (acc : result (list (model * Z))) (rel : model * (string * Field))
    : result (list (model * Z)) :=
  data' ← acc;
  let sub_objs := referring db rel.1 (attname rel.2) new_objs in
  match sub_objs with
  | [] => Ok data'
  | _ =>
      match f_on_delete rel.2.2 with
      | CASCADE => collect fuel db rel.1 sub_objs data'
      | PROTECT => Error ProtectedError
      end
  end.

(** What a collection that starts from the rows [pks] of [m] with [data]
    collected before has collected when it returns [data']: what was
    collected before; the rows it started from; with every row it added,
    the rows that refer to it; and no row that does not reach, by a chain
    of references, one it started from. *)
Definition collected (db : database) (m : model) (pks : list Z)
    (data data' : list (model * Z)) : Prop :=
  (∀ x, x ∈ data → x ∈ data') ∧
  (∀ pk, pk ∈ pks → (m, pk) ∈ data') ∧
  (∀ x, x ∈ data' → x ∈ data ∨ ∀ y, refers_to db y x → y ∈ data') ∧
  (∀ x, x ∈ data' → x ∈ data ∨ ∃ pk, pk ∈ pks ∧ rtc (refers_to db) x (m, pk)).

(** A database with an item, bought in the transaction of the sample
    order. *)
Definition sample_item_purchase : result (database * instance) :=
  '(db, _) ← sample_minimal_item;
  '(db, _) ← create 200 db PaymentTransaction (sample_transaction_kwargs "TX-B");
  create 300 db PurchasedItem (<["item" := VInt 1]> (sample_purchase_kwargs 1 2)).

Definition sample_item_order : database :=
  (outcome sample_item_purchase (sample_users, ∅)).1.

(** The sample order after its user was deleted. *)
Definition sample_order_without_user : database :=
  outcome (Model_delete sample_order User 1) sample_order.

(** A purchase record of a user: a PurchasedItem row whose [user] is the
    user, or whose [transaction] is a transaction of the user. *)
Definition purchase_of_user (db : database) (user : Z) (r : row) : bool :=
  bool_decide (r !! "user_id" = Some (VInt user)) ||
  match r !! "transaction_id" with
  | Some (VInt t) =>
      match db PaymentTransaction !! t with
      | Some rt => bool_decide (rt !! "user_id" = Some (VInt user))
      | None => false
      end
  | _ => false
  end.

(** ** Further notions: the time of an error record *)

(** The state of a record between two saves: the instance knows its
    primary key and holds the time [t] in the attribute [name], and so does
    the stored row. *)
Definition stamped_at (m : model) (name : string) (t pk : Z)
    (st : database * instance) : Prop :=
  st.2 !! "id" = Some (VInt pk) ∧
  st.2 !! name = Some (VDateTime t) ∧
  ∃ r, st.1 m !! pk = Some r ∧ r !! name = Some (VDateTime t).

(** The error record of the sample log is given another response and
    saved at time 500. *)
Definition sample_error_run : result (database * instance) :=
  run_saves PaymentTransactionError
    (outcome sample_error (sample_order, ∅)).1
    (outcome sample_error (sample_order, ∅)).2
    [ (500, {["response" := VStr "ACK=Success"]}) ].

(** ** Further notions: the columns of the tables *)

(** The columns of the table of a class. *)
Definition columns (m : model) : list string :=
  match m with
  | User | ContentType => ["id"]
  | Item => ["id"; "identifier"; "name"; "description"; "value"; "currency"]
  | PaymentTransaction =>
      ["id"; "user_id"; "content_type_id"; "object_id"; "creation_date"; "date";
       "transaction_id"; "value"; "status"]
  | PurchasedItem =>
      ["id"; "user_id"; "identifier"; "transaction_id"; "item_id";
       "content_type_id"; "object_id"; "price"; "quantity"]
  | PaymentTransactionError =>
      ["id"; "date"; "user_id"; "paypal_api_url"; "request_data"; "response"]
  end.

(** The classes with a generic relation [content_object]. *)
Definition generic_models : list model := [PaymentTransaction; PurchasedItem].

(** A field of a class, by the name of its column and its class. *)
Definition has_column (m : model) (col : string) (c : field_class) : Prop :=
  Exists (λ nf : string * Field, attname nf = col ∧ fclass nf.2 = c) (non_pks m).

#[global] Instance has_column_dec m col c : Decision (has_column m col c).
Proof. unfold has_column. apply _. Defined.

(** A transaction saved with an [object_id] and no content type. *)
Definition sample_generic : result (database * instance) :=
  save 100 sample_users PaymentTransaction
    (<["object_id" := VInt 999]> sample_instance) true.

(** The classes that no foreign key points at. *)
Definition leaf_models : list model := [PurchasedItem; PaymentTransactionError].

(** * Properties *)

(** ** The result monad *)

Lemma bind_Ok {A B} (r : result A) (k : A → result B) (b : B) :
  r ≫= k = Ok b → ∃ a, r = Ok a ∧ k a = Ok b.
Proof. destruct r as [a|e]; simpl; [eauto | discriminate]. Qed.

Lemma outcome_Ok {A} (r : result A) (otherwise : A) :
  succeeds r = true → r = Ok (outcome r otherwise).
Proof. by destruct r. Qed.

Lemma outcome_Ok_pair {A B} (r : result (A * B)) (otherwise : A * B) :
  succeeds r = true → r = Ok ((outcome r otherwise).1, (outcome r otherwise).2).
Proof. by destruct r as [[]|]. Qed.

Lemma Some_from_option {A} (o : option A) (otherwise : A) :
  (if o is Some _ then true else false) = true →
  o = Some (from_option id otherwise o).
Proof. by destruct o. Qed.

Lemma succeeds_is_Ok {A} (r : result A) : succeeds r = true → is_Ok r.
Proof. destruct r; [by eexists | done]. Qed.

Tactic Notation "inv_bind" hyp(H) "as" simple_intropattern(a) ident(Ha) :=
  apply bind_Ok in H as (a & Ha & H).

(** ** The fields of the classes *)

(** Closed decidable facts about the declared classes are settled by
    evaluation. *)
Ltac by_compute :=
  match goal with |- ?P => apply (bool_decide_unpack P); vm_compute; exact I end.

Lemma non_pks_attnames_NoDup m : NoDup (attname <$> non_pks m).
Proof. destruct m; by_compute. Qed.

Lemma id_not_in_non_pks m : "id" ∉ attname <$> non_pks m.
Proof. destruct m; by_compute. Qed.

(** ** Saving *)

Lemma pre_save_inv now nf self add v0 self' :
  pre_save now nf self add = Ok (v0, self') →
  if stamps nf add
  then v0 = VDateTime now ∧ self' = <[attname nf := VDateTime now]> self
  else self !! attname nf = Some v0 ∧ self' = self.
Proof.
  unfold pre_save, stamps, getattr.
  destruct (fclass nf.2);
    try (destruct (self !! attname nf); simpl; intros [= <- <-]; done).
  destruct (f_auto_now nf.2 || f_auto_now_add nf.2 && add).
  - intros [= <- <-]; done.
  - destruct (self !! attname nf); simpl; intros [= <- <-]; done.
Qed.

Lemma pre_save_self now nf self add v0 self' :
  pre_save now nf self add = Ok (v0, self') →
  self' !! attname nf = Some v0 ∧
  ∀ a, a ≠ attname nf → self' !! a = self !! a.
Proof.
  intros H. apply pre_save_inv in H. destruct (stamps nf add).
  - destruct H as [-> ->]. split; [apply lookup_insert_eq|].
    intros a Ha. by rewrite lookup_insert_ne.
  - destruct H as [H ->]. done.
Qed.

Lemma column_value_inv now db add nf self v self' :
  column_value now db add nf self = Ok (v, self') →
  ∃ v0, pre_save now nf self add = Ok (v0, self') ∧
        get_db_prep_save nf.2 v0 = Ok v ∧
        check_column db nf.2 v = Ok ().
Proof.
  unfold column_value. intros H.
  inv_bind H as [v0 self0] Hpre. simpl in H.
  inv_bind H as v1 Hprep. inv_bind H as [] Hchk. injection H as <- <-.
  eauto.
Qed.

(** What a successful UPDATE or INSERT has computed: a column outside
    the fields is left alone; the column of a field holds the prepared and
    checked value of the attribute, or of the clock when the field is
    stamped. *)
Lemma column_values_inv now db add fields : ∀ self r r' self',
  column_values now db add fields self r = Ok (r', self') →
  NoDup (attname <$> fields) →
  (∀ a, a ∉ attname <$> fields → r' !! a = r !! a ∧ self' !! a = self !! a) ∧
  (∀ nf, nf ∈ fields → ∃ v0 v,
     (if stamps nf add then v0 = VDateTime now else self !! attname nf = Some v0) ∧
     get_db_prep_save nf.2 v0 = Ok v ∧
     check_column db nf.2 v = Ok () ∧
     r' !! attname nf = Some v ∧
     self' !! attname nf = Some v0).
Proof.
  induction fields as [|nf rest IH]; intros self r r' self' H Hnd.
  - injection H as <- <-. split; [done|]. intros nf Hnf. by apply elem_of_nil in Hnf.
  - simpl in H. inv_bind H as [v self1] Ha. simpl in H.
    rewrite fmap_cons in Hnd.
    pose proof (NoDup_cons_1_1 _ _ Hnd) as Hhd. apply NoDup_cons_1_2 in Hnd.
    destruct (IH _ _ _ _ H Hnd) as [IH1 IH2].
    apply column_value_inv in Ha as (v0 & Hpre & Hprep & Hchk).
    pose proof (pre_save_self _ _ _ _ _ _ Hpre) as [Hself1 Hother].
    split.
    + intros a Ha. rewrite fmap_cons in Ha. apply not_elem_of_cons in Ha as [Hne Ha].
      destruct (IH1 a Ha) as [-> ->].
      rewrite lookup_insert_ne by done. split; [done|]. by apply Hother.
    + intros nf' Hnf'. apply elem_of_cons in Hnf' as [->|Hnf'].
      * destruct (IH1 _ Hhd) as [Hr Hs]. exists v0, v.
        rewrite Hr, Hs, lookup_insert_eq. repeat split; try done.
        apply pre_save_inv in Hpre. destruct (stamps nf add); tauto.
      * destruct (IH2 nf' Hnf') as (v0' & v' & Hv0 & ? & ? & ? & ?).
        exists v0', v'. repeat split; try done.
        destruct (stamps nf' add); [done|].
        rewrite <- Hv0. symmetry. apply Hother.
        intros Heq. apply Hhd. rewrite <- Heq. by apply list_elem_of_fmap_2.
Qed.

Lemma foldr_max_ge (l : list Z) x : x ∈ l → x ≤ foldr Z.max 0 l.
Proof.
  induction l as [|y l IH]; [by intros ?%elem_of_nil|].
  intros [->|Hx]%elem_of_cons; simpl; [lia|]. specialize (IH Hx). lia.
Qed.

Lemma next_pk_fresh (t : table) : t !! next_pk t = None.
Proof.
  destruct (t !! next_pk t) as [r|] eqn:E; [|done]. exfalso.
  apply elem_of_map_to_list in E.
  assert (next_pk t ∈ (map_to_list t).*1) as Hin.
  { change (next_pk t) with (next_pk t, r).1. by apply list_elem_of_fmap_2. }
  apply foldr_max_ge in Hin. unfold next_pk in Hin at 1. fold (next_pk t) in *.
  unfold next_pk in Hin. lia.
Qed.

(** What a successful [save] has done. *)
Lemma save_inv now db m self fi db' self' :
  save now db m self fi = Ok (db', self') →
  ∃ pk r,
    self' !! "id" = Some (VInt pk) ∧
    r !! "id" = Some (VInt pk) ∧
    db' = <[m := <[pk := r]> (db m)]> db ∧
    (if is_update db m self fi
     then self !! "id" = Some (VInt pk) ∧ is_Some (db m !! pk)
     else db m !! pk = None) ∧
    ∀ nf, nf ∈ non_pks m → ∃ v0 v,
      (if stamps nf (negb (is_update db m self fi)) then v0 = VDateTime now
       else self !! attname nf = Some v0) ∧
      get_db_prep_save nf.2 v0 = Ok v ∧
      check_column db nf.2 v = Ok () ∧
      r !! attname nf = Some v ∧
      self' !! attname nf = Some v0.
Proof.
  unfold save, is_update, getattr. intros H.
  destruct (self !! "id") as [pk_val|] eqn:Hid; [|discriminate]. simpl in H.
  pose proof (non_pks_attnames_NoDup m) as Hnd.
  pose proof (id_not_in_non_pks m) as Hnotid.
  destruct pk_val as [|pk| | | |]; try discriminate.
  - inv_bind H as [r self1] Ha. injection H as <- <-.
    apply column_values_inv in Ha as [H1 H2]; [|done].
    destruct (H1 _ Hnotid) as [Hr Hs].
    exists (next_pk (db m)), r. rewrite lookup_insert_eq, Hr, lookup_singleton_eq.
    rewrite andb_false_r. simpl.
    repeat split; try done; [apply next_pk_fresh|].
    intros nf Hnf. destruct (H2 nf Hnf) as (v0 & v & ? & ? & ? & ? & Hs').
    exists v0, v. repeat split; try done.
    rewrite lookup_insert_ne; [done|].
    intros Heq. apply Hnotid. rewrite Heq. by apply list_elem_of_fmap_2.
  - destruct fi; simpl in H |- *.
    + destruct (bool_decide (is_Some (db m !! pk))) eqn:Hex; [discriminate|].
      inv_bind H as [r self1] Ha. injection H as <- <-.
      apply column_values_inv in Ha as [H1 H2]; [|done].
      destruct (H1 _ Hnotid) as [Hr Hs].
      exists pk, r. rewrite Hs, Hr, lookup_singleton_eq.
      apply bool_decide_eq_false in Hex.
      repeat split; try done.
      destruct (db m !! pk) eqn:E; [|done]. exfalso. apply Hex. eauto.
    + destruct (bool_decide (is_Some (db m !! pk))) eqn:Hex; simpl in H |- *.
      * inv_bind H as [r self1] Ha. injection H as <- <-.
        apply column_values_inv in Ha as [H1 H2]; [|done].
        destruct (H1 _ Hnotid) as [Hr Hs].
        exists pk, r. rewrite Hs, Hr, lookup_singleton_eq.
        apply bool_decide_eq_true in Hex. repeat split; done.
      * inv_bind H as [r self1] Ha. injection H as <- <-.
        apply column_values_inv in Ha as [H1 H2]; [|done].
        destruct (H1 _ Hnotid) as [Hr Hs].
        exists pk, r. rewrite Hs, Hr, lookup_singleton_eq.
        apply bool_decide_eq_false in Hex.
        repeat split; try done.
        destruct (db m !! pk) eqn:E; [|done]. exfalso. apply Hex. eauto.
Qed.

(** ** Instantiating *)

Lemma local_fields_attnames_NoDup m : NoDup (attname <$> local_fields m).
Proof. destruct m; by_compute. Qed.

Lemma init_fields_inv kwargs fields : ∀ self self',
  init_fields kwargs fields self = Ok self' →
  NoDup (attname <$> fields) →
  (∀ a, a ∉ attname <$> fields → self' !! a = self !! a) ∧
  (∀ nf, nf ∈ fields →
     ∃ v, init_value kwargs nf = Ok v ∧ self' !! attname nf = Some v).
Proof.
  induction fields as [|nf rest IH]; intros self self' H Hnd.
  - injection H as <-. split; [done|]. by intros nf ?%elem_of_nil.
  - simpl in H. inv_bind H as v Hv. rewrite fmap_cons in Hnd.
    pose proof (NoDup_cons_1_1 _ _ Hnd) as Hhd. apply NoDup_cons_1_2 in Hnd.
    destruct (IH _ _ H Hnd) as [IH1 IH2]. split.
    + intros a Ha. rewrite fmap_cons in Ha. apply not_elem_of_cons in Ha as [Hne Ha].
      rewrite (IH1 a Ha). by rewrite lookup_insert_ne.
    + intros nf' [->|Hnf']%elem_of_cons; [|by apply IH2].
      exists v. split; [done|]. by rewrite (IH1 _ Hhd), lookup_insert_eq.
Qed.

(** What a successful [__init__] has built: every keyword names a field,
    and every field has its attribute. *)
Lemma init_inv m kwargs self :
  init m kwargs = Ok self →
  dom kwargs ⊆ list_to_set (accepted_kwargs m) ∧
  ∀ nf, nf ∈ local_fields m →
    ∃ v, init_value kwargs nf = Ok v ∧ self !! attname nf = Some v.
Proof.
  unfold init. intros H. inv_bind H as self0 Hself0.
  destruct (decide _) as [Hsub|]; [|discriminate]. injection H as <-.
  split; [done|].
  by apply (init_fields_inv _ _ _ _ Hself0 (local_fields_attnames_NoDup m)).
Qed.

Lemma non_pks_local_fields m nf : nf ∈ non_pks m → nf ∈ local_fields m.
Proof. unfold non_pks. by intros [_ ?]%list_elem_of_filter. Qed.

(** A successful [save] touches no attribute and fills no column other
    than those of the fields of the class. *)
Lemma save_frame now db m self fi db' self' a :
  save now db m self fi = Ok (db', self') →
  a ≠ "id" → a ∉ attname <$> non_pks m →
  self' !! a = self !! a ∧
  ∀ pk r, self' !! "id" = Some (VInt pk) → db' m !! pk = Some r → r !! a = None.
Proof.
  unfold save, getattr. intros H Hne Ha.
  destruct (self !! "id") as [pk_val|] eqn:Hid; [|discriminate]. simpl in H.
  pose proof (non_pks_attnames_NoDup m) as Hnd.
  pose proof (id_not_in_non_pks m) as Hnotid.
  assert (∀ pk r self1,
    column_values now db true (non_pks m) self {["id" := VInt pk]} = Ok (r, self1) ∨
    column_values now db false (non_pks m) self {["id" := VInt pk]} = Ok (r, self1) →
    self1 !! a = self !! a ∧ self1 !! "id" = self !! "id" ∧ r !! a = None) as Hcv.
  { intros pk r self1 [Hc|Hc];
      apply column_values_inv in Hc as [H1 _]; try done;
      destruct (H1 _ Ha) as [-> ->]; destruct (H1 _ Hnotid) as [_ ->];
      by rewrite lookup_singleton_ne. }
  destruct pk_val as [|pk| | | |]; try discriminate.
  - inv_bind H as [r self1] Hc. injection H as <- <-.
    destruct (Hcv _ _ _ (or_introl Hc)) as (Hs & _ & Hr).
    rewrite lookup_insert_ne by done. split; [done|].
    intros pk' r'. rewrite lookup_insert_eq. intros [= <-].
    rewrite fn_lookup_insert, lookup_insert_eq. by intros [= <-].
  - destruct (negb fi && bool_decide (is_Some (db m !! pk))).
    + inv_bind H as [r self1] Hc. injection H as <- <-.
      destruct (Hcv _ _ _ (or_intror Hc)) as (Hs & Hi & Hr). split; [done|].
      intros pk' r'. rewrite Hi, Hid. intros [= <-].
      rewrite fn_lookup_insert, lookup_insert_eq. by intros [= <-].
    + destruct (bool_decide (is_Some (db m !! pk))); [discriminate|].
      inv_bind H as [r self1] Hc. injection H as <- <-.
      destruct (Hcv _ _ _ (or_introl Hc)) as (Hs & Hi & Hr). split; [done|].
      intros pk' r'. rewrite Hi, Hid. intros [= <-].
      rewrite fn_lookup_insert, lookup_insert_eq. by intros [= <-].
Qed.

Lemma init_frame m kwargs self a :
  init m kwargs = Ok self → a ∉ attname <$> local_fields m → self !! a = None.
Proof.
  unfold init. intros H Ha. inv_bind H as self0 Hself0.
  destruct (decide _); [|discriminate]. injection H as <-.
  apply init_fields_inv in Hself0 as [H1 _]; [|apply local_fields_attnames_NoDup].
  by rewrite (H1 _ Ha).
Qed.

(** ** [PaymentTransaction.date] and [PaymentTransaction.creation_date] *)

Lemma date_field_of_PaymentTransaction :
  ("date", mkField DateTimeField
             [auto_now true; auto_now_add true; verbose_name "Time"])
    ∈ non_pks PaymentTransaction.
Proof. by_compute. Qed.

Lemma creation_date_field_of_PaymentTransaction :
  ("creation_date", mkField DateTimeField
      [auto_now_add true; verbose_name "Creation time"; blank true; null true])
    ∈ non_pks PaymentTransaction.
Proof. by_compute. Qed.

Lemma lookup_saved_row (db : database) m pk (r : row) :
  (<[m := <[pk := r]> (db m)]> db) m !! pk = Some r.
Proof. by rewrite fn_lookup_insert, lookup_insert_eq. Qed.

(** C8: every save of a PaymentTransaction, the one that creates the row
    and every later one, sets [date] to the time of that save, on the
    instance and in the stored row. *)
Theorem save_sets_date now db self force_insert db' self' :
  save now db PaymentTransaction self force_insert = Ok (db', self') →
  self' !! "date" = Some (VDateTime now) ∧
  ∃ pk r, self' !! "id" = Some (VInt pk) ∧
          db' PaymentTransaction !! pk = Some r ∧
          r !! "date" = Some (VDateTime now).
Proof.
  intros H. apply save_inv in H as (pk & r & Hid & _ & -> & _ & Hcols).
  destruct (Hcols _ date_field_of_PaymentTransaction)
    as (v0 & v & Hv0 & Hprep & _ & Hr & Hs).
  assert (v0 = VDateTime now) as ->.
  { by destruct (negb (is_update db PaymentTransaction self force_insert)). }
  injection Hprep as <-.
  split; [done|]. exists pk, r. by rewrite lookup_saved_row.
Qed.

Lemma save_sets_date_witness :
  (sample_created.2 !! "date" = Some (VDateTime 100) ∧
   sample_saved.2 !! "date" = Some (VDateTime 250)) ∧
  sample_saved.2 !! "status" = Some (VStr "completed").
Proof.
  split; [split|].
  - apply (save_sets_date 100 sample_users sample_instance
             true sample_created.1 sample_created.2).
    apply outcome_Ok_pair. vm_compute. reflexivity.
  - apply (save_sets_date 250 sample_created.1
             (<["status" := VStr "completed"]> sample_created.2)
             false sample_saved.1 sample_saved.2).
    apply outcome_Ok_pair. vm_compute. reflexivity.
  - vm_compute. reflexivity.
Defined.

Lemma create_inv now db m kwargs db' self' :
  create now db m kwargs = Ok (db', self') →
  ∃ self, init m kwargs = Ok self ∧ save now db m self true = Ok (db', self').
Proof. unfold create. intros H. inv_bind H as self Hself. eauto. Qed.

Lemma create_stamps_creation_date now db kwargs db1 self1 :
  create now db PaymentTransaction kwargs = Ok (db1, self1) →
  ∃ pk, created_at now pk (db1, self1).
Proof.
  intros (self & _ & H)%create_inv.
  apply save_inv in H as (pk & r & Hid & _ & -> & _ & Hcols).
  destruct (Hcols _ creation_date_field_of_PaymentTransaction)
    as (v0 & v & Hv0 & Hprep & _ & Hr & Hs).
  simpl in Hv0. subst v0. injection Hprep as <-.
  exists pk. unfold created_at; simpl. repeat split; try done.
  exists r. by rewrite lookup_saved_row.
Qed.

Lemma save_keeps_creation_date t pk db self now edits db' self' :
  created_at t pk (db, self) →
  edits !! "creation_date" = None →
  edits !! "id" = None →
  save now db PaymentTransaction (edits ∪ self) false = Ok (db', self') →
  created_at t pk (db', self').
Proof.
  unfold created_at; simpl. intros (Hid & Hcd & r0 & Hr0 & _) Hecd Heid H.
  assert ((edits ∪ self) !! "id" = Some (VInt pk)) as Hid'.
  { by rewrite lookup_union_r. }
  assert ((edits ∪ self) !! "creation_date" = Some (VDateTime t)) as Hcd'.
  { by rewrite lookup_union_r. }
  assert (is_update db PaymentTransaction (edits ∪ self) false = true) as Hup.
  { unfold is_update. rewrite Hid'. simpl. apply bool_decide_eq_true. eauto. }
  apply save_inv in H as (pk' & r & Hid'' & _ & -> & Hpk' & Hcols).
  rewrite Hup in Hpk', Hcols. destruct Hpk' as [Hpk' _].
  rewrite Hid' in Hpk'. injection Hpk' as <-.
  destruct (Hcols _ creation_date_field_of_PaymentTransaction)
    as (v0 & v & Hv0 & Hprep & _ & Hr & Hs).
  unfold attname in Hv0; simpl in Hv0. rewrite Hcd' in Hv0. injection Hv0 as <-. injection Hprep as <-.
  repeat split; try done. exists r. by rewrite lookup_saved_row.
Qed.

Lemma run_saves_keeps_creation_date t pk saves : ∀ db self db' self',
  created_at t pk (db, self) →
  Forall (λ s : Z * gmap string value,
            s.2 !! "creation_date" = None ∧ s.2 !! "id" = None) saves →
  run_saves PaymentTransaction db self saves = Ok (db', self') →
  created_at t pk (db', self').
Proof.
  induction saves as [|[now edits] rest IH]; intros db self db' self' Hinv Hall H.
  - by injection H as <- <-.
  - simpl in H. inv_bind H as [db1 self1] Hsave. simpl in H.
    apply Forall_cons_1 in Hall as [[Hecd Heid] Hall]; simpl in *.
    eapply IH; [|done|done].
    by eapply save_keeps_creation_date.
Qed.

(** C4: the save that creates a PaymentTransaction sets [creation_date] to
    the time of creation (no [creation_date] need be passed; one that is
    passed is overridden).  Saving the record again, any number of times and
    with any other attributes assigned in between, leaves the stored
    [creation_date] at the time of creation. *)
Theorem creation_date_set_at_creation_only now db kwargs db1 self1 saves db2 self2 :
  kwargs !! "creation_date" = None →
  create now db PaymentTransaction kwargs = Ok (db1, self1) →
  Forall (λ s : Z * gmap string value,
            s.2 !! "creation_date" = None ∧ s.2 !! "id" = None) saves →
  run_saves PaymentTransaction db1 self1 saves = Ok (db2, self2) →
  ∃ pk r1 r2,
    self1 !! "id" = Some (VInt pk) ∧ self2 !! "id" = Some (VInt pk) ∧
    db1 PaymentTransaction !! pk = Some r1 ∧
    r1 !! "creation_date" = Some (VDateTime now) ∧
    db2 PaymentTransaction !! pk = Some r2 ∧
    r2 !! "creation_date" = Some (VDateTime now).
Proof.
  intros _ Hcreate Hall Hrun.
  apply create_stamps_creation_date in Hcreate as [pk Hinv].
  pose proof (run_saves_keeps_creation_date _ _ _ _ _ _ _ Hinv Hall Hrun) as Hinv2.
  destruct Hinv as (Hid1 & _ & r1 & Hr1 & Hc1).
  destruct Hinv2 as (Hid2 & _ & r2 & Hr2 & Hc2).
  exists pk, r1, r2. done.
Qed.

Lemma creation_date_set_at_creation_only_witness :
  (∃ pk r1 r2,
    (outcome sample_create (sample_users, ∅)).2 !! "id" = Some (VInt pk) ∧
    (outcome sample_run (sample_users, ∅)).2 !! "id" = Some (VInt pk) ∧
    (outcome sample_create (sample_users, ∅)).1 PaymentTransaction !! pk = Some r1 ∧
    r1 !! "creation_date" = Some (VDateTime 100) ∧
    (outcome sample_run (sample_users, ∅)).1 PaymentTransaction !! pk = Some r2 ∧
    r2 !! "creation_date" = Some (VDateTime 100)) ∧
  (outcome sample_run (sample_users, ∅)).2 !! "status" = Some (VStr "completed") ∧
  (outcome sample_run (sample_users, ∅)).2 !! "date" = Some (VDateTime 300).
Proof.
  split.
  - apply (creation_date_set_at_creation_only 100 sample_users
             (sample_transaction_kwargs "TX-B") _ _ sample_saves).
    + vm_compute. reflexivity.
    + apply (outcome_Ok_pair sample_create). vm_compute. reflexivity.
    + repeat constructor.
    + apply (outcome_Ok_pair sample_run). vm_compute. reflexivity.
  - vm_compute. split; reflexivity.
Defined.

(** C9: the column [creation_date] of a PaymentTransaction is declared
    with [null=True] and [blank=True] next to [auto_now_add=True]; it
    accepts NULL, and a row with a NULL [creation_date] is stored when an
    instance whose [creation_date] was set to [None] is saved again. *)
Theorem creation_date_may_be_null :
  (∃ f, get_field PaymentTransaction "creation_date" = Some ("creation_date", f) ∧
        f_auto_now_add f = true ∧ f_blank f = true ∧ f_null f = true ∧
        ∀ db, check_column db f VNone = Ok ()) ∧
  ∃ db1 self1 db2 self2 r,
    create 100 sample_users PaymentTransaction (sample_transaction_kwargs "TX-B")
      = Ok (db1, self1) ∧
    save 250 db1 PaymentTransaction (<["creation_date" := VNone]> self1) false
      = Ok (db2, self2) ∧
    db2 PaymentTransaction !! 1 = Some r ∧
    r !! "creation_date" = Some VNone.
Proof.
  split.
  - eexists. split; [vm_compute; reflexivity|]. by repeat split.
  - exists (outcome sample_create (sample_users, ∅)).1,
           (outcome sample_create (sample_users, ∅)).2,
           (outcome sample_null_save (sample_users, ∅)).1,
           (outcome sample_null_save (sample_users, ∅)).2.
    exists (from_option id ∅
              ((outcome sample_null_save (sample_users, ∅)).1 PaymentTransaction !! 1)).
    split; [|split; [|split]].
    + apply (outcome_Ok_pair sample_create). vm_compute. reflexivity.
    + apply (outcome_Ok_pair sample_null_save). vm_compute. reflexivity.
    + apply Some_from_option. vm_compute. reflexivity.
    + vm_compute. reflexivity.
Qed.

(** ** [PurchasedItem.quantity] *)

Lemma quantity_field_of_PurchasedItem :
  ("quantity", mkField PositiveIntegerField [verbose_name "Quantity"])
    ∈ non_pks PurchasedItem.
Proof. by_compute. Qed.

Lemma save_PurchasedItem_quantity now db self fi db' self' :
  save now db PurchasedItem self fi = Ok (db', self') →
  ∃ pk r q, self' !! "id" = Some (VInt pk) ∧
            db' PurchasedItem !! pk = Some r ∧
            r !! "quantity" = Some (VInt q) ∧ 0 ≤ q ∧
            self !! "quantity" = Some (VInt q).
Proof.
  intros H. apply save_inv in H as (pk & r & Hid & _ & -> & _ & Hcols).
  destruct (Hcols _ quantity_field_of_PurchasedItem)
    as (v0 & v & Hv0 & Hprep & Hchk & Hr & Hs).
  unfold stamps, attname in *; simpl in *.
  destruct v0 as [|q| | | |]; try discriminate; injection Hprep as <-.
  - discriminate.
  - unfold check_column in Hchk; simpl in Hchk.
    destruct (decide (0 ≤ q)); [|discriminate].
    exists pk, r, q. by rewrite lookup_saved_row.
Qed.

(** C2, as the claim has it, fails: a PurchasedItem with quantity 0 is
    created. *)
Lemma zero_quantity_is_accepted :
  ¬ (∀ now db kwargs q,
       kwargs !! "quantity" = Some (VInt q) → q ≤ 0 →
       is_Error (create now db PurchasedItem kwargs)).
Proof.
  intros H.
  destruct (H 300 sample_shop (sample_purchase_kwargs 1 0) 0) as [e He];
    [vm_compute; reflexivity | lia |].
  assert (succeeds sample_purchase_zero = true) as Hok by (vm_compute; reflexivity).
  unfold sample_purchase_zero in Hok. by rewrite He in Hok.
Qed.

(** C2, amended: the creation of a PurchasedItem with a quantity below 0
    is rejected, and whenever a PurchasedItem is saved, by [create] or by a
    later [save], the stored row has a quantity of at least 0. *)
Theorem negative_quantity_is_rejected now db :
  (∀ kwargs q,
     kwargs !! "quantity" = Some (VInt q) → q < 0 →
     is_Error (create now db PurchasedItem kwargs)) ∧
  (∀ self force_insert db' self',
     save now db PurchasedItem self force_insert = Ok (db', self') →
     ∃ pk r q, self' !! "id" = Some (VInt pk) ∧
               db' PurchasedItem !! pk = Some r ∧
               r !! "quantity" = Some (VInt q) ∧ 0 ≤ q).
Proof.
  split.
  - intros kwargs q Hq Hneg.
    destruct (create now db PurchasedItem kwargs) as [[db' self']|e] eqn:E;
      [exfalso | by exists e].
    apply create_inv in E as (self & Hinit & Hsave).
    apply init_inv in Hinit as [_ Hfields].
    destruct (Hfields _ (non_pks_local_fields _ _ quantity_field_of_PurchasedItem))
      as (v & Hv & Hself).
    unfold init_value, attname in Hv, Hself; simpl in Hv, Hself.
    rewrite Hq in Hv. injection Hv as <-.
    apply save_PurchasedItem_quantity in Hsave as (_ & _ & q' & _ & _ & _ & ? & Hq').
    rewrite Hself in Hq'. injection Hq' as <-. lia.
  - intros self fi db' self' H.
    apply save_PurchasedItem_quantity in H as (pk & r & q & ? & ? & ? & ? & _).
    by exists pk, r, q.
Qed.

Lemma negative_quantity_is_rejected_witness :
  is_Error sample_purchase_negative ∧ is_Ok sample_purchase_zero.
Proof.
  split.
  - apply (proj1 (negative_quantity_is_rejected 300 sample_shop)
             (sample_purchase_kwargs 1 (-1)) (-1)).
    + vm_compute. reflexivity.
    + lia.
  - apply succeeds_is_Ok. vm_compute. reflexivity.
Defined.

(** ** [PaymentTransactionError.transaction] *)

Lemma transaction_not_accepted_by_PaymentTransactionError :
  "transaction" ∉ (list_to_set (accepted_kwargs PaymentTransactionError) : gset string).
Proof. by_compute. Qed.

(** C1 does not hold of the code.  The class attribute [transaction] of
    PaymentTransactionError is a tuple, so the class has no field of that
    name: a creation that passes a transaction (or [None] for it) raises,
    and a record that is created has no reference to a transaction, as
    attribute or as column.  The field of the same name of PurchasedItem,
    declared without the comma, is a field. *)
Theorem PaymentTransactionError_has_no_transaction_field :
  get_field PaymentTransactionError "transaction" = None ∧
  is_Some (get_field PurchasedItem "transaction") ∧
  (∀ now db kwargs,
     is_Some (kwargs !! "transaction") →
     is_Error (create now db PaymentTransactionError kwargs)) ∧
  (∀ now db kwargs db' self',
     create now db PaymentTransactionError kwargs = Ok (db', self') →
     self' !! "transaction_id" = None ∧
     ∀ pk r, self' !! "id" = Some (VInt pk) →
             db' PaymentTransactionError !! pk = Some r →
             r !! "transaction_id" = None).
Proof.
  split; [by vm_compute|]. split; [by vm_compute; eexists|]. split.
  - intros now db kwargs Hsome.
    destruct (create now db PaymentTransactionError kwargs) as [[db' self']|e] eqn:E;
      [exfalso | by exists e].
    apply create_inv in E as (self & Hinit & _).
    apply init_inv in Hinit as [Hsub _].
    apply transaction_not_accepted_by_PaymentTransactionError, Hsub.
    by apply elem_of_dom.
  - intros now db kwargs db' self' (self & Hinit & Hsave)%create_inv.
    assert ("transaction_id" ∉ attname <$> local_fields PaymentTransactionError)
      as Hl by by_compute.
    assert ("transaction_id" ∉ attname <$> non_pks PaymentTransactionError)
      as Hn by by_compute.
    destruct (save_frame _ _ _ _ _ _ _ "transaction_id" Hsave) as [Hs Hr]; try done.
    split; [|done]. rewrite Hs. by eapply init_frame.
Qed.

Lemma PaymentTransactionError_has_no_transaction_field_witness :
  is_Error (create 400 sample_shop PaymentTransactionError sample_error_kwargs) ∧
  create 400 sample_shop PaymentTransactionError sample_error_kwargs = Error TypeError.
Proof.
  split.
  - apply (proj1 (proj2 (proj2 PaymentTransactionError_has_no_transaction_field))).
    vm_compute. by eexists.
  - vm_compute. reflexivity.
Defined.

(** A creation date that is passed to the creation is overridden by the
    clock. *)
Example passed_creation_date_is_overridden :
  (outcome sample_backdated (sample_users, ∅)).2 !! "creation_date"
    = Some (VDateTime 100).
Proof. vm_compute. reflexivity. Qed.

(** ** Amounts: [Item.value] and [PaymentTransaction.value] *)

Lemma len_digits_pos fuel n : 1 ≤ len_digits fuel n.
Proof.
  revert n. induction fuel as [|fuel IH]; intros n; simpl; [lia|].
  destruct (n <? 10); [lia|]. specialize (IH (n / 10)). lia.
Qed.

Lemma len_digits_le fuel : ∀ n k,
  0 ≤ n < 2 * 10 ^ Z.of_nat fuel → 1 ≤ k →
  (len_digits fuel n ≤ k ↔ n < 10 ^ k).
Proof.
  induction fuel as [|fuel IH]; intros n k Hn Hk.
  - simpl in *. assert (10 ^ 1 ≤ 10 ^ k) by (apply Z.pow_le_mono_r; lia). lia.
  - simpl len_digits. destruct (Z.ltb_spec n 10) as [Hlt|Hge].
    + assert (10 ^ 1 ≤ 10 ^ k) by (apply Z.pow_le_mono_r; lia). lia.
    + rewrite Nat2Z.inj_succ, Z.pow_succ_r in Hn by lia.
      pose proof (len_digits_pos fuel (n / 10)).
      destruct (decide (k = 1)) as [->|Hk1]; [change (10 ^ 1) with 10; lia|].
      assert (0 ≤ n / 10 < 2 * 10 ^ Z.of_nat fuel) as Hdiv.
      { split; [apply Z.div_pos; lia|]. apply Z.div_lt_upper_bound; lia. }
      specialize (IH (n / 10) (k - 1) Hdiv ltac:(lia)).
      replace (10 ^ k) with (10 * 10 ^ (k - 1))
        by (rewrite <- Z.pow_succ_r by lia; f_equal; lia).
      pose proof (Z.div_lt_upper_bound n 10 (10 ^ (k - 1)) ltac:(lia)).
      pose proof (Z.div_le_lower_bound n 10 (10 ^ (k - 1)) ltac:(lia)).
      lia.
Qed.

(** A coefficient has at most [k] digits exactly when it is below
    [10^k]. *)
Lemma len_int_le n k : 0 ≤ n → 1 ≤ k → (len_int n ≤ k ↔ n < 10 ^ k).
Proof.
  intros Hn Hk. unfold len_int. apply len_digits_le; [|done].
  rewrite Z2Nat.id by apply Z.log2_nonneg.
  split; [done|]. destruct (decide (n = 0)) as [->|Hn0]; [simpl; lia|].
  pose proof (Z.log2_spec n ltac:(lia)) as [_ Hup].
  rewrite Z.pow_succ_r in Hup by apply Z.log2_nonneg.
  assert (2 ^ Z.log2 n ≤ 10 ^ Z.log2 n).
  { apply Z.pow_le_mono_l. lia. }
  lia.
Qed.

Lemma rescale_exp d exp : dec_exp (rescale d exp) = exp.
Proof.
  unfold rescale. destruct (coefficient d =? 0); [done|].
  by destruct (dec_exp d >=? exp).
Qed.

(** Rescaling to an exponent that is not above the exponent of the number
    keeps its value: it pads with zeros. *)
Lemma rescale_signed_exact d exp :
  exp ≤ dec_exp d →
  dec_signed (rescale d exp) = dec_signed d * 10 ^ (dec_exp d - exp).
Proof.
  intros He. unfold rescale, dec_signed, coefficient.
  destruct (Z.eqb_spec (Z.of_N (dec_int d)) 0) as [H0|H0]; simpl.
  - rewrite H0. by destruct (dec_sign d).
  - destruct (Z.geb_spec (dec_exp d) exp) as [_|?]; [|lia]. simpl.
    assert (0 < 10 ^ (dec_exp d - exp)) by (apply Z.pow_pos_nonneg; lia).
    rewrite Z2N.id by nia. destruct (dec_sign d); lia.
Qed.

(** What [quantize] returns when it returns: the number rescaled, with a
    coefficient of at most [prec] digits. *)
Lemma quantize_inv d exp prec d' :
  1 ≤ prec →
  quantize d exp prec = Ok d' →
  d' = rescale d exp ∧ dec_exp d' = exp ∧
  len_int (coefficient d') ≤ prec ∧ coefficient d' < 10 ^ prec.
Proof.
  intros Hprec. unfold quantize.
  destruct (negb _); [discriminate|].
  destruct (Z.eqb_spec (coefficient d) 0) as [H0|H0].
  - intros [= <-]. unfold rescale. rewrite (proj2 (Z.eqb_eq _ _) H0).
    repeat split; [done|].
    change (coefficient _) with 0. apply Z.pow_pos_nonneg; lia.
  - destruct (adjusted d >? Emax); [discriminate|].
    destruct (adjusted d - exp + 1 >? prec); [discriminate|].
    destruct (adjusted (rescale d exp) >? Emax); [discriminate|].
    destruct (Z.gtb_spec (len_int (coefficient (rescale d exp))) prec) as [|Hlen];
      [discriminate|].
    intros [= <-]. repeat split; [apply rescale_exp|done|].
    apply len_int_le; [apply N2Z.is_nonneg|done|done].
Qed.

Lemma quantize_error d exp prec e :
  quantize d exp prec = Error e → e = InvalidOperation.
Proof.
  unfold quantize.
  repeat match goal with |- context [if ?b then _ else _] => destruct b end;
    congruence.
Qed.

Lemma in_amount_range_iff d :
  in_amount_range d ↔
  let e := Z.min (-2) (dec_exp d) in
  -99999999 * 10 ^ (-2 - e) ≤ dec_signed d * 10 ^ (dec_exp d - e)
    ≤ 99999999 * 10 ^ (-2 - e).
Proof.
  unfold in_amount_range, Decimal_le, Decimal_compare, sci_compare.
  change (dec_signed (mkDecimal true 99999999 (-2))) with (-99999999).
  change (dec_signed (mkDecimal false 99999999 (-2))) with 99999999.
  change (dec_exp (mkDecimal true 99999999 (-2))) with (-2).
  change (dec_exp (mkDecimal false 99999999 (-2))) with (-2).
  rewrite (Z.min_comm (dec_exp d) (-2)). reflexivity.
Qed.

(** With exponent [-2] the range is a range of cents. *)
Lemma in_amount_range_cents d :
  dec_exp d = -2 → (in_amount_range d ↔ -99999999 ≤ dec_signed d ≤ 99999999).
Proof.
  intros He. rewrite in_amount_range_iff, He. cbv zeta.
  change (Z.min (-2) (-2)) with (-2). change (-2 - -2) with 0.
  rewrite Z.pow_0_r. lia.
Qed.

Lemma in_amount_range_rescale d :
  -2 ≤ dec_exp d → (in_amount_range d ↔ in_amount_range (rescale d (-2))).
Proof.
  intros He. rewrite (in_amount_range_cents (rescale d (-2))) by apply rescale_exp.
  rewrite rescale_signed_exact by done.
  rewrite in_amount_range_iff. cbv zeta. rewrite Z.min_l by done.
  change (-2 - -2) with 0. rewrite Z.pow_0_r. lia.
Qed.

(** [format_number] at the precision of the amount fields. *)
Lemma format_number_8_2_inv d d' :
  format_number d 8 2 = Ok d' →
  d' = rescale d (-2) ∧ dec_exp d' = -2 ∧
  len_int (coefficient d') ≤ 8 ∧ in_amount_range d'.
Proof.
  unfold format_number. intros H.
  apply quantize_inv in H as (-> & He & Hlen & Hlt); [|done].
  split; [done|]. split; [done|]. split; [done|].
  apply in_amount_range_cents; [done|].
  change (10 ^ Z.of_nat 8) with 100000000 in Hlt.
  unfold dec_signed. pose proof (N2Z.is_nonneg (dec_int (rescale d (-2)))).
  unfold coefficient in Hlt. destruct (dec_sign _); unfold coefficient; lia.
Qed.

Lemma amount_fields_inv m nf :
  (m, nf) ∈ amount_fields →
  nf ∈ non_pks m ∧ attname nf = "value" ∧ fclass nf.2 = DecimalField ∧
  f_max_digits nf.2 = Some 8%nat ∧ f_decimal_places nf.2 = Some 2%nat ∧
  f_null nf.2 = false.
Proof.
  intros H. apply list_elem_of_In in H. vm_compute in H.
  destruct H as [[= <- <-]|[[= <- <-]|[]]];
    (split; [by_compute | by vm_compute]).
Qed.

Lemma amount_prep_inv m nf d :
  (m, nf) ∈ amount_fields →
  get_db_prep_save nf.2 (VDecimal d) =
    (d' ← format_number d 8 2; Ok (VDecimal d')).
Proof.
  intros (_ & _ & Hc & Hmd & Hdp & _)%amount_fields_inv.
  unfold get_db_prep_save. by rewrite Hc, Hmd, Hdp.
Qed.

(** C10, as the claim has it, fails in its last part: the amount
    999999.994 is outside the range, and a PaymentTransaction with that
    value is created (the value stored is 999999.99). *)
Lemma fine_amount_is_stored :
  ¬ (∀ now db kwargs d,
       kwargs !! "value" = Some (VDecimal d) → ¬ in_amount_range d →
       is_Error (create now db PaymentTransaction kwargs)).
Proof.
  intros H.
  destruct (H 100 sample_users
              (<["value" := VDecimal sample_fine_amount]> (sample_transaction_kwargs "TX-B"))
              sample_fine_amount) as [e He].
  - vm_compute. reflexivity.
  - intros Hin. apply in_amount_range_iff in Hin. vm_compute in Hin.
    destruct Hin as [_ Hin]. by apply Hin.
  - assert (succeeds sample_fine_create = true) as Hok by (vm_compute; reflexivity).
    unfold sample_fine_create in Hok. by rewrite He in Hok.
Qed.

(** C10, amended.  For [Item.value] and [PaymentTransaction.value]: the
    value sent to the database is the amount rounded (half to even) to 2
    decimal places; it has exponent -2, at most 8 digits, and lies between
    -999999.99 and 999999.99.  An amount whose rounding lies outside that
    range is rejected; so is, in particular, every amount of at most 2
    decimal places that is outside the range.  Every row stored by [save]
    holds a value of exponent -2 within the range. *)
Theorem amounts_are_bounded m nf :
  (m, nf) ∈ amount_fields →
  (∀ d v, get_db_prep_save nf.2 (VDecimal d) = Ok v →
     ∃ d', v = VDecimal d' ∧ d' = rescale d (-2) ∧ dec_exp d' = -2 ∧
           len_int (coefficient d') ≤ 8 ∧ in_amount_range d') ∧
  (∀ d, ¬ in_amount_range (rescale d (-2)) →
     get_db_prep_save nf.2 (VDecimal d) = Error InvalidOperation) ∧
  (∀ d, -2 ≤ dec_exp d → ¬ in_amount_range d →
     get_db_prep_save nf.2 (VDecimal d) = Error InvalidOperation) ∧
  (∀ now db self force_insert db' self',
     save now db m self force_insert = Ok (db', self') →
     ∃ pk r d', self' !! "id" = Some (VInt pk) ∧
                db' m !! pk = Some r ∧
                r !! "value" = Some (VDecimal d') ∧
                dec_exp d' = -2 ∧ len_int (coefficient d') ≤ 8 ∧
                in_amount_range d').
Proof.
  intros Hnf.
  assert (∀ d v, get_db_prep_save nf.2 (VDecimal d) = Ok v →
     ∃ d', v = VDecimal d' ∧ d' = rescale d (-2) ∧ dec_exp d' = -2 ∧
           len_int (coefficient d') ≤ 8 ∧ in_amount_range d') as Hok.
  { intros d v. rewrite (amount_prep_inv m nf d Hnf). intros H.
    inv_bind H as d' Hd'. injection H as <-.
    apply format_number_8_2_inv in Hd' as (? & ? & ? & ?). by exists d'. }
  assert (∀ d, ¬ in_amount_range (rescale d (-2)) →
     get_db_prep_save nf.2 (VDecimal d) = Error InvalidOperation) as Herr.
  { intros d Hout.
    destruct (get_db_prep_save nf.2 (VDecimal d)) as [v|e] eqn:E.
    - apply Hok in E as (d' & _ & -> & _ & _ & Hin). by destruct Hout.
    - rewrite (amount_prep_inv m nf d Hnf) in E. unfold format_number in E.
      destruct (quantize d (- Z.of_nat 2) (Z.of_nat 8)) as [?|e'] eqn:Eq;
        [discriminate|].
      injection E as <-. by rewrite (quantize_error _ _ _ _ Eq). }
  split; [done|]. split; [done|]. split.
  - intros d He Hout. apply Herr. by rewrite <- in_amount_range_rescale.
  - intros now db self fi db' self' H.
    apply amount_fields_inv in Hnf as (Hnp & Hatt & Hc & _ & _ & Hnull).
    apply save_inv in H as (pk & r & Hid & _ & -> & _ & Hcols).
    destruct (Hcols _ Hnp) as (v0 & v & Hv0 & Hprep & Hchk & Hr & Hs).
    rewrite Hatt in Hr.
    destruct v0 as [| | |d| |];
      try (unfold get_db_prep_save in Hprep; rewrite Hc in Hprep; discriminate).
    + injection Hprep as <-. unfold check_column in Hchk.
      rewrite Hnull in Hchk. discriminate.
    + apply Hok in Hprep as (d' & -> & _ & ? & ? & ?).
      exists pk, r, d'. by rewrite lookup_saved_row.
Qed.

Lemma amounts_are_bounded_witness :
  get_db_prep_save (mkField DecimalField
                      [max_digits 8; decimal_places 2; verbose_name "Value"])
                   (VDecimal (mkDecimal false 100000000 (-2)))
    = Error InvalidOperation.
Proof.
  apply (proj1 (proj2 (proj2
           (amounts_are_bounded Item
              ("value", mkField DecimalField
                          [max_digits 8; decimal_places 2; verbose_name "Value"])
              ltac:(by_compute))))
           (mkDecimal false 100000000 (-2))).
  - simpl. lia.
  - intros Hin. apply in_amount_range_iff in Hin. vm_compute in Hin.
    destruct Hin as [_ Hin]. by apply Hin.
Defined.

(** The ends of the range are stored as they are; half a cent above the
    upper end is rejected. *)
Example amount_boundaries :
  format_number (mkDecimal false 99999999 (-2)) 8 2
    = Ok (mkDecimal false 99999999 (-2)) ∧
  format_number (mkDecimal true 99999999 (-2)) 8 2
    = Ok (mkDecimal true 99999999 (-2)) ∧
  format_number sample_fine_amount 8 2 = Ok (mkDecimal false 99999999 (-2)) ∧
  format_number (mkDecimal false 999999995 (-3)) 8 2 = Error InvalidOperation.
Proof. vm_compute. repeat split; reflexivity. Qed.

(** ** Deleting *)

Lemma filter_all {A} (P : A → Prop) `{∀ x, Decision (P x)} (l : list A) :
  Forall P l → filter P l = l.
Proof.
  induction 1 as [|x l Hx _ IH]; [done|].
  rewrite filter_cons. destruct (decide (P x)); [by rewrite IH | done].
Qed.

Lemma Forall_elem_of {A} (P : A → Prop) (l : list A) x :
  Forall P l → x ∈ l → P x.
Proof.
  induction 1 as [|y l Hy _ IH]; [by intros ?%elem_of_nil|].
  intros [->|Hx]%elem_of_cons; auto.
Qed.

(** Every collected row is deleted, no other row is. *)
Lemma delete_rows_lookup data : ∀ (db : database) m k,
  delete_rows db data m !! k = if decide ((m, k) ∈ data) then None else db m !! k.
Proof.
  induction data as [|[m0 k0] data IH]; intros db m k.
  - by rewrite decide_False by apply not_elem_of_nil.
  - change (delete_rows db ((m0, k0) :: data))
      with (delete_rows (<[m0 := delete k0 (db m0)]> db) data).
    rewrite IH. destruct (decide ((m, k) ∈ data)) as [Hin|Hnin].
    + rewrite decide_True; [done|]. by right.
    + destruct (decide ((m, k) = (m0, k0))) as [[= -> ->]|Hne].
      * rewrite decide_True by left.
        by rewrite fn_lookup_insert, lookup_delete_eq.
      * rewrite decide_False by (intros [?|?]%elem_of_cons; done).
        destruct (decide (m0 = m)) as [->|Hm].
        -- rewrite fn_lookup_insert, lookup_delete_ne; [done|]. congruence.
        -- by rewrite fn_lookup_insert_ne.
Qed.

Lemma elem_of_referring (db : database) m' col pks k :
  k ∈ referring db m' col pks ↔
  ∃ r, db m' !! k = Some r ∧ refers col pks r = true.
Proof.
  unfold referring. rewrite list_elem_of_fmap. split.
  - intros ([k' r] & -> & Hin). apply elem_of_map_to_list in Hin.
    apply map_lookup_filter_Some in Hin as [? ?]. by exists r.
  - intros (r & Hr & Href). exists (k, r). split; [done|].
    apply elem_of_map_to_list. by apply map_lookup_filter_Some.
Qed.

Lemma refers_singleton col pk (r : row) :
  refers col [pk] r = true ↔ r !! col = Some (VInt pk).
Proof.
  unfold refers. destruct (r !! col) as [[|k| | | |]|]; try (split; done).
  rewrite bool_decide_eq_true, list_elem_of_singleton. split; congruence.
Qed.

Lemma collect_unfold fuel db m pks data :
  collect (S fuel) db m pks data =
  let new_objs := filter (λ pk, (m, pk) ∉ data) pks in
  match new_objs with
  | [] => Ok data
  | _ =>
      foldl (λ acc (rel : model * (string * Field)),
               data' ← acc;
               let sub_objs := referring db rel.1 (attname rel.2) new_objs in
               match sub_objs with
               | [] => Ok data'
               | _ =>
                   match f_on_delete rel.2.2 with
                   | CASCADE => collect fuel db rel.1 sub_objs data'
                   | PROTECT => Error ProtectedError
                   end
               end)
            (Ok (data ++ (pair m <$> new_objs)))
            (related_objects m)
  end.
Proof. reflexivity. Qed.

(** A class that no foreign key points at: only the objects themselves
    are collected. *)
Lemma collect_leaf fuel db m pks data :
  related_objects m = [] →
  collect (S fuel) db m pks data =
  Ok (data ++ (pair m <$> filter (λ pk, (m, pk) ∉ data) pks)).
Proof.
  intros Hrel. rewrite collect_unfold, Hrel. cbv zeta.
  destruct (filter _ pks); [by rewrite app_nil_r | done].
Qed.

(** Every foreign key of the file cascades, and points from a class of
    smaller depth. *)
Lemma related_objects_depth m rel :
  rel ∈ related_objects m →
  (depth rel.1 < depth m)%nat ∧ f_on_delete rel.2.2 = CASCADE.
Proof.
  assert (Forall (λ m, Forall (λ rel : model * (string * Field),
                         (depth rel.1 < depth m)%nat ∧ f_on_delete rel.2.2 = CASCADE)
                         (related_objects m)) all_models) as H by by_compute.
  assert (m ∈ all_models) as Hm by (destruct m; by_compute).
  intros Hrel. apply (Forall_elem_of _ _ _ (Forall_elem_of _ _ m H Hm) Hrel).
Qed.

(** The collection returns: its depth is at most that of the class it
    starts from. *)
Lemma collect_returns fuel : ∀ db m pks data,
  (depth m < fuel)%nat → is_Ok (collect fuel db m pks data).
Proof.
  induction fuel as [|fuel IH]; intros db m pks data Hd; [lia|].
  rewrite collect_unfold. cbv zeta.
  destruct (filter _ pks) as [|k ks]; [by eexists|].
  pose proof (related_objects_depth m) as Hrels.
  generalize (data ++ (pair m <$> k :: ks)). revert Hrels.
  generalize (related_objects m). intros rels.
  induction rels as [|rel rels IHrels]; intros Hrels acc; [by eexists|].
  simpl. destruct (Hrels rel ltac:(left)) as [Hlt Hcascade].
  assert (∀ acc', is_Ok (foldl
    (λ (acc0 : result (list (model * Z))) (rel0 : model * (string * Field)),
       acc0 ≫= λ data' : list (model * Z),
         match referring db rel0.1 (attname rel0.2) (k :: ks) with
         | [] => Ok data'
         | _ :: _ =>
             match f_on_delete rel0.2.2 with
             | CASCADE =>
                 collect fuel db rel0.1
                   (referring db rel0.1 (attname rel0.2) (k :: ks)) data'
             | PROTECT => Error ProtectedError
             end
         end) (Ok acc') rels)) as Hrest.
  { intros acc'. apply IHrels. intros rel' Hin. apply Hrels. by right. }
  destruct (referring db rel.1 (attname rel.2) (k :: ks)) as [|z l]; [apply Hrest|].
  rewrite Hcascade.
  destruct (IH db rel.1 (z :: l) acc ltac:(lia)) as [acc' ->]. apply Hrest.
Qed.

(** [Model.delete] returns for every row of every class. *)
Lemma Model_delete_returns db m pk : is_Ok (Model_delete db m pk).
Proof.
  unfold Model_delete.
  destruct (collect_returns (length all_models) db m [pk] []) as [data ->];
    [destruct m; simpl; lia|].
  by eexists.
Qed.

(** What is collected for a PaymentTransaction: the transaction, and the
    PurchasedItem rows whose [transaction] is that transaction. *)
Lemma collect_PaymentTransaction n db pk :
  collect (S (S n)) db PaymentTransaction [pk] [] =
  Ok ((PaymentTransaction, pk) ::
      (pair PurchasedItem <$> referring db PurchasedItem "transaction_id" [pk])).
Proof.
  rewrite collect_unfold. cbv zeta.
  rewrite filter_all by (repeat constructor; apply not_elem_of_nil).
  change (related_objects PaymentTransaction)
    with [(PurchasedItem,
           ("transaction", mkField (ForeignKey PaymentTransaction)
                             [verbose_name "Transaction"]))].
  cbn [foldl mbind result_bind fst snd].
  change (attname ("transaction", _)) with "transaction_id".
  change (f_on_delete _) with CASCADE. cbv iota.
  rewrite collect_leaf by reflexivity.
  rewrite filter_all.
  2:{ apply Forall_forall. intros x _ [[=]|[]%elem_of_nil]%elem_of_cons. }
  by destruct (referring db PurchasedItem "transaction_id" [pk]).
Qed.

Lemma delete_PaymentTransaction_inv db pk :
  ∃ db', Model_delete db PaymentTransaction pk = Ok db' ∧
    db' PaymentTransaction = delete pk (db PaymentTransaction) ∧
    db' PurchasedItem =
      filter (λ kr : Z * row, kr.2 !! "transaction_id" ≠ Some (VInt pk))
             (db PurchasedItem) ∧
    ∀ m, m ≠ PaymentTransaction → m ≠ PurchasedItem → db' m = db m.
Proof.
  unfold Model_delete. change (length all_models) with 6%nat.
  rewrite collect_PaymentTransaction. eexists. split; [reflexivity|].
  split; [|split].
  - apply map_eq. intros k. rewrite delete_rows_lookup.
    destruct (decide (k = pk)) as [->|Hne].
    + rewrite decide_True by left. by rewrite lookup_delete_eq.
    + rewrite lookup_delete_ne by done. rewrite decide_False; [done|].
      intros [[=]|Hin]%elem_of_cons; [done|].
      apply list_elem_of_fmap in Hin as (? & [=] & _).
  - apply map_eq. intros k. rewrite delete_rows_lookup, map_lookup_filter.
    case_decide as Hin.
    + apply elem_of_cons in Hin as [[=]|Hin].
      apply list_elem_of_fmap in Hin as (k' & [= <-] & Hin).
      apply elem_of_referring in Hin as (r & -> & Href).
      apply refers_singleton in Href. simpl.
      by rewrite option_guard_False by (intros H; by apply H).
    + destruct (db PurchasedItem !! k) as [r|] eqn:Hr; [|done]. simpl.
      rewrite option_guard_True; [done|]. simpl. intros Href.
      apply Hin. right. apply list_elem_of_fmap. exists k. split; [done|].
      apply elem_of_referring. exists r. by rewrite refers_singleton.
  - intros m Hm1 Hm2. apply map_eq. intros k. rewrite delete_rows_lookup.
    rewrite decide_False; [done|].
    intros [[=]|Hin]%elem_of_cons; [done|].
    apply list_elem_of_fmap in Hin as (? & [=] & _). done.
Qed.

(** C3, as the claim has it, fails: the transaction of the sample order
    has a dependent PurchasedItem row, and deleting it is not rejected. *)
Lemma delete_is_not_restricted :
  ¬ (∀ db pk k r,
       is_Some (db PaymentTransaction !! pk) →
       db PurchasedItem !! k = Some r →
       r !! "transaction_id" = Some (VInt pk) →
       is_Error (Model_delete db PaymentTransaction pk)).
Proof.
  intros H.
  destruct (H sample_order 1 1
              (from_option id ∅ (sample_order PurchasedItem !! 1))) as [e He].
  - by_compute.
  - apply Some_from_option. vm_compute. reflexivity.
  - vm_compute. reflexivity.
  - destruct (delete_PaymentTransaction_inv sample_order 1) as (db' & Hok & _).
    congruence.
Qed.

(** C3, amended: deleting a PaymentTransaction that has dependent
    PurchasedItem rows is not rejected; it cascades (the [on_delete] of a
    foreign key defaults to [CASCADE]).  The transaction and the
    PurchasedItem rows that refer to it are deleted, every other row is
    left as it is. *)
Theorem delete_PaymentTransaction_cascades db pk k r :
  db PurchasedItem !! k = Some r →
  r !! "transaction_id" = Some (VInt pk) →
  ∃ db', Model_delete db PaymentTransaction pk = Ok db' ∧
    db' PaymentTransaction !! pk = None ∧
    db' PurchasedItem !! k = None ∧
    (∀ k' r', db PurchasedItem !! k' = Some r' →
              r' !! "transaction_id" ≠ Some (VInt pk) →
              db' PurchasedItem !! k' = Some r') ∧
    (∀ pk', pk' ≠ pk → db' PaymentTransaction !! pk' = db PaymentTransaction !! pk') ∧
    (∀ m, m ≠ PaymentTransaction → m ≠ PurchasedItem → db' m = db m).
Proof.
  intros Hr Href.
  destruct (delete_PaymentTransaction_inv db pk) as (db' & Hok & HPT & HPI & Hother).
  exists db'. rewrite HPT, HPI. split; [done|]. split; [apply lookup_delete_eq|].
  split; [|split; [|split; [|done]]].
  - apply map_lookup_filter_None. right. intros r' Hr' Hne.
    rewrite Hr in Hr'. injection Hr' as <-. by apply Hne.
  - intros k' r' Hr' Hne. by apply map_lookup_filter_Some.
  - intros pk' Hne. by rewrite lookup_delete_ne.
Qed.

Lemma delete_PaymentTransaction_cascades_witness :
  ∃ db', Model_delete sample_order PaymentTransaction 1 = Ok db' ∧
         db' PaymentTransaction !! 1 = None ∧
         db' PurchasedItem !! 1 = None.
Proof.
  destruct (delete_PaymentTransaction_cascades sample_order 1 1
              (from_option id ∅ (sample_order PurchasedItem !! 1)))
    as (db' & Hok & HPT & HPI & _).
  - apply Some_from_option. vm_compute. reflexivity.
  - vm_compute. reflexivity.
  - exists db'. split; [exact Hok|]. split; [exact HPT | exact HPI].
Defined.

(** The restriction is that of the database alone: a DELETE statement
    that bypasses [Model.delete] is refused while a PurchasedItem row
    refers to the transaction. *)
Lemma sql_delete_is_restricted db pk k r :
  db PurchasedItem !! k = Some r →
  r !! "transaction_id" = Some (VInt pk) →
  sql_delete db PaymentTransaction pk = Error IntegrityError.
Proof.
  intros Hr Href. unfold sql_delete. rewrite decide_False; [done|].
  change (related_objects PaymentTransaction)
    with [(PurchasedItem,
           ("transaction", mkField (ForeignKey PaymentTransaction)
                             [verbose_name "Transaction"]))].
  intros [Hnone _]%Forall_cons_1. simpl in Hnone.
  assert (k ∈ referring db PurchasedItem "transaction_id" [pk]) as Hin.
  { apply elem_of_referring. exists r. by rewrite refers_singleton. }
  change (attname _) with "transaction_id" in Hnone.
  rewrite Hnone in Hin. by apply elem_of_nil in Hin.
Qed.

(** ** The error log *)

Lemma local_fields_attnames m :
  attname <$> local_fields m = "id" :: (attname <$> non_pks m).
Proof. by destruct m. Qed.

Lemma not_field_attname m a :
  a ∉ attname <$> local_fields m ↔ a ≠ "id" ∧ a ∉ attname <$> non_pks m.
Proof. rewrite local_fields_attnames. apply not_elem_of_cons. Qed.

(** A value that was accepted for a column other than a decimal one is
    stored as it is. *)
Lemma get_db_prep_save_same f v0 v :
  fclass f ≠ DecimalField → get_db_prep_save f v0 = Ok v → v = v0.
Proof.
  unfold get_db_prep_save. intros Hc.
  destruct v0, (fclass f); simpl; congruence.
Qed.

Lemma error_fields_plain :
  Forall (λ nf : string * Field, stamps nf false = false ∧ fclass nf.2 ≠ DecimalField)
         (non_pks PaymentTransactionError).
Proof. by_compute. Qed.

(** A save touches the table of its class only, and there the row of the
    instance only; the row it writes is well formed. *)
Lemma save_tables now db m self fi db' self' :
  save now db m self fi = Ok (db', self') →
  (∀ m', m' ≠ m → db' m' = db m') ∧
  ∃ pk r, db' m = <[pk := r]> (db m) ∧
    r !! "id" = Some (VInt pk) ∧
    (∀ a, a ∉ attname <$> local_fields m → r !! a = None) ∧
    (is_update db m self fi = false → db m !! pk = None).
Proof.
  intros H. pose proof H as Hfr.
  apply save_inv in H as (pk & r & Hid & Hrid & -> & Hup & _).
  split; [intros m' Hne; by rewrite fn_lookup_insert_ne|].
  exists pk, r. rewrite fn_lookup_insert. repeat split; [done| |].
  - intros a [Hne Ha]%not_field_attname.
    destruct (save_frame _ _ _ _ _ _ _ a Hfr Hne Ha) as [_ Hr].
    apply (Hr pk r Hid). apply lookup_saved_row.
  - intros Hfalse. by rewrite Hfalse in Hup.
Qed.

Lemma row_ok_alt m pk (r : row) :
  row_ok m pk r ↔
  r !! "id" = Some (VInt pk) ∧
  ∀ a, a ∉ attname <$> local_fields m → r !! a = None.
Proof.
  unfold row_ok. split; intros [Hid Hdom]; (split; [done|]).
  - intros a Ha. apply not_elem_of_dom. intros Hin. apply Ha.
    apply Hdom in Hin. by apply elem_of_list_to_set in Hin.
  - intros a Hin. apply elem_of_list_to_set.
    destruct (decide (a ∈ attname <$> local_fields m)) as [|Hnin]; [done|].
    apply elem_of_dom in Hin as [v Hv]. rewrite (Hdom a Hnin) in Hv. discriminate.
Qed.

(** Saving an error record as it was loaded writes the same row. *)
Lemma save_error_again now db pk r db' self' :
  row_ok PaymentTransactionError pk r →
  db PaymentTransactionError !! pk = Some r →
  save now db PaymentTransactionError r false = Ok (db', self') →
  db' PaymentTransactionError = db PaymentTransactionError.
Proof.
  intros Hok Hr H. destruct (proj1 (row_ok_alt _ _ _) Hok) as [Hrid Hjunk].
  assert (is_update db PaymentTransactionError r false = true) as Hup.
  { unfold is_update. rewrite Hrid. simpl. apply bool_decide_eq_true. eauto. }
  pose proof H as Hfr.
  apply save_inv in H as (pk' & r2 & Hid' & Hr2id & -> & Hpk' & Hcols).
  rewrite Hup in Hpk', Hcols. destruct Hpk' as [Hpk' _].
  rewrite Hrid in Hpk'. injection Hpk' as <-.
  rewrite fn_lookup_insert.
  assert (r2 = r) as ->; [|by apply insert_id].
  apply map_eq. intros a.
  destruct (decide (a ∈ attname <$> local_fields PaymentTransactionError))
    as [Hin|Hnin].
  - rewrite local_fields_attnames in Hin.
    apply elem_of_cons in Hin as [->|Hin]; [by rewrite Hr2id, Hrid|].
    apply list_elem_of_fmap in Hin as (nf & -> & Hnf).
    destruct (Hcols nf Hnf) as (v0 & v & Hv0 & Hprep & _ & Hr2 & _).
    pose proof (Forall_elem_of _ _ _ error_fields_plain Hnf) as [Hst Hcl].
    simpl in Hv0. rewrite Hst in Hv0.
    apply get_db_prep_save_same in Hprep as ->; [|done]. by rewrite Hr2, Hv0.
  - rewrite (Hjunk a Hnin).
    apply not_field_attname in Hnin as [Hne Ha].
    destruct (save_frame _ _ _ _ _ _ _ a Hfr Hne Ha) as [_ Hrow].
    apply (Hrow pk r2 Hid'). apply lookup_saved_row.
Qed.

(** Deleting a user deletes the error records of the user ([user] is a
    foreign key with the default [CASCADE]). *)
Example deleting_the_user_deletes_the_log :
  is_Some (sample_logged PaymentTransactionError !! 1) ∧
  outcome sample_user_deleted sample_logged PaymentTransactionError !! 1 = None.
Proof. split; [by_compute|]. vm_compute. reflexivity. Qed.

(** ** Comparisons *)

Section comparison.
Context {A} (cmp : A → A → comparison) `{!Comparison cmp}.

Lemma cmp_eq_r a b c : cmp b c = Eq → cmp a b = cmp a c.
Proof.
  intros H. assert (cmp c b = Eq) as Hcb by by rewrite (cmp_antisym cmp b c), H.
  rewrite (cmp_antisym cmp b a), (cmp_antisym cmp c a). f_equal.
  symmetry. by apply (cmp_eq_l cmp).
Qed.

Lemma cmp_le_trans a b c : cmp a b ≠ Gt → cmp b c ≠ Gt → cmp a c ≠ Gt.
Proof.
  intros Hab Hbc. destruct (cmp a b) eqn:Eab; [| |done].
  - by rewrite (cmp_eq_l cmp a b c Eab).
  - destruct (cmp b c) eqn:Ebc; [| |done].
    + by rewrite <- (cmp_eq_r a b c Ebc), Eab.
    + by rewrite (cmp_lt_trans cmp a b c Eab Ebc).
Qed.

Lemma cmp_le_total a b : cmp a b ≠ Gt ∨ cmp b a ≠ Gt.
Proof. rewrite (cmp_antisym cmp a b). destruct (cmp a b); auto. Qed.

(** The comparison the other way round, for a descending term. *)
Lemma Comparison_flip : Comparison (λ a b, cmp b a).
Proof.
  split.
  - intros a b. apply (cmp_antisym cmp).
  - intros a b c H. symmetry. by apply cmp_eq_r.
  - intros a b c Hab Hbc. by apply (cmp_lt_trans cmp c b a).
Qed.
End comparison.

#[local] Instance Z_Comparison : Comparison Z.compare.
Proof.
  split.
  - intros a b. apply Z.compare_antisym.
  - intros a b c ->%Z.compare_eq. done.
  - intros a b c. rewrite !Z.compare_lt_iff. lia.
Qed.

Lemma Ascii_compare_N a b :
  Ascii.compare a b = (N_of_ascii a ?= N_of_ascii b)%N.
Proof. reflexivity. Qed.

#[local] Instance String_Comparison : Comparison String.compare.
Proof.
  split.
  - intros a b. apply String.compare_antisym.
  - intros a b c ->%String.compare_eq_iff. done.
  - intros a. induction a as [|x a IH]; intros [|y b] [|z c]; simpl; try done.
    rewrite !Ascii_compare_N.
    destruct (N.compare_spec (N_of_ascii x) (N_of_ascii y)) as [Hxy|Hxy|Hxy];
      destruct (N.compare_spec (N_of_ascii y) (N_of_ascii z)) as [Hyz|Hyz|Hyz];
      destruct (N.compare_spec (N_of_ascii x) (N_of_ascii z)) as [Hxz|Hxz|Hxz];
      try done; try lia.
    apply IH.
Qed.

(** Two numbers in scientific notation are compared after scaling both
    to any exponent that is not above theirs. *)
Lemma sci_compare_scaled base c1 e1 c2 e2 k :
  0 < base → k ≤ e1 → k ≤ e2 →
  sci_compare base c1 e1 c2 e2 = (c1 * base ^ (e1 - k) ?= c2 * base ^ (e2 - k)).
Proof.
  intros Hb H1 H2. unfold sci_compare.
  set (e := Z.min e1 e2). assert (k ≤ e) by lia.
  assert (e ≤ e1 ∧ e ≤ e2) as [? ?] by lia.
  replace (e1 - k) with ((e1 - e) + (e - k)) by lia.
  replace (e2 - k) with ((e2 - e) + (e - k)) by lia.
  rewrite !Z.pow_add_r, !Z.mul_assoc by lia.
  apply Zmult_compare_compat_r.
  assert (0 < base ^ (e - k)) by (apply Z.pow_pos_nonneg; lia). lia.
Qed.

Lemma sci_Comparison base :
  0 < base →
  Comparison (λ p q : Z * Z, sci_compare base p.1 p.2 q.1 q.2).
Proof.
  intros Hb. split.
  - intros [c1 e1] [c2 e2]. unfold sci_compare; simpl.
    rewrite (Z.min_comm e2 e1). apply Z.compare_antisym.
  - intros [c1 e1] [c2 e2] [c3 e3]; simpl.
    set (k := Z.min e1 (Z.min e2 e3)).
    rewrite (sci_compare_scaled base c1 e1 c2 e2 k),
            (sci_compare_scaled base c1 e1 c3 e3 k),
            (sci_compare_scaled base c2 e2 c3 e3 k) by lia.
    apply (cmp_eq_l Z.compare).
  - intros [c1 e1] [c2 e2] [c3 e3]; simpl.
    set (k := Z.min e1 (Z.min e2 e3)).
    rewrite (sci_compare_scaled base c1 e1 c2 e2 k),
            (sci_compare_scaled base c1 e1 c3 e3 k),
            (sci_compare_scaled base c2 e2 c3 e3 k) by lia.
    apply (cmp_lt_trans Z.compare).
Qed.

#[local] Instance Decimal_Comparison : Comparison Decimal_compare.
Proof.
  pose proof (sci_Comparison 10 ltac:(lia)) as H. split.
  - intros a b.
    exact (cmp_antisym (λ p q : Z * Z, sci_compare 10 p.1 p.2 q.1 q.2)
             (dec_signed a, dec_exp a) (dec_signed b, dec_exp b)).
  - intros a b c.
    exact (cmp_eq_l (λ p q : Z * Z, sci_compare 10 p.1 p.2 q.1 q.2)
                    (dec_signed a, dec_exp a) (dec_signed b, dec_exp b)
                    (dec_signed c, dec_exp c)).
  - intros a b c.
    exact (cmp_lt_trans (λ p q : Z * Z, sci_compare 10 p.1 p.2 q.1 q.2)
                        (dec_signed a, dec_exp a) (dec_signed b, dec_exp b)
                        (dec_signed c, dec_exp c)).
Qed.

#[local] Instance value_Comparison nulls_high : Comparison (value_compare nulls_high).
Proof.
  pose proof (sci_Comparison 2 ltac:(lia)) as H2. split.
  - intros a b. destruct a, b, nulls_high; simpl; try reflexivity;
      first [ apply (cmp_antisym Z.compare)
            | apply (cmp_antisym String.compare)
            | apply (cmp_antisym Decimal_compare)
            | exact (cmp_antisym (λ p q : Z * Z, sci_compare 2 p.1 p.2 q.1 q.2) (m, e) (m0, e0)) ].
  - intros a b c. destruct a, b; simpl; try discriminate;
      destruct nulls_high; try discriminate;
      destruct c; simpl; try reflexivity;
      first [ apply (cmp_eq_l Z.compare)
            | apply (cmp_eq_l String.compare)
            | apply (cmp_eq_l Decimal_compare)
            | exact (cmp_eq_l (λ p q : Z * Z, sci_compare 2 p.1 p.2 q.1 q.2) (m, e) (m0, e0) (m1, e1)) ].
  - intros a b c. destruct a, b; simpl; try discriminate;
      destruct nulls_high; try discriminate;
      destruct c; simpl; try discriminate; try reflexivity;
      first [ apply (cmp_lt_trans Z.compare)
            | apply (cmp_lt_trans String.compare)
            | apply (cmp_lt_trans Decimal_compare)
            | exact (cmp_lt_trans (λ p q : Z * Z, sci_compare 2 p.1 p.2 q.1 q.2) (m, e) (m0, e0) (m1, e1)) ].
Qed.

#[local] Instance key_Comparison nulls_high descending :
  Comparison (key_compare nulls_high descending).
Proof.
  pose proof (Comparison_flip (value_compare nulls_high)) as Hflip.
  split.
  - induction descending as [|d ds IH]; intros [|a ra] [|b rb]; simpl; try done.
    destruct d.
    + rewrite (cmp_antisym (λ a b, value_compare nulls_high b a) a b).
      destruct (value_compare nulls_high b a); simpl; auto.
    + rewrite (cmp_antisym (value_compare nulls_high) a b).
      destruct (value_compare nulls_high a b); simpl; auto.
  - induction descending as [|d ds IH]; intros [|a ra] [|b rb] [|c rc]; simpl;
      try done.
    destruct d.
    + destruct (value_compare nulls_high b a) eqn:E; try done.
      rewrite (cmp_eq_l (λ a b, value_compare nulls_high b a) a b c E).
      intros H. by rewrite (IH ra rb rc H).
    + destruct (value_compare nulls_high a b) eqn:E; try done.
      rewrite (cmp_eq_l (value_compare nulls_high) a b c E).
      intros H. by rewrite (IH ra rb rc H).
  - induction descending as [|d ds IH]; intros [|a ra] [|b rb] [|c rc]; simpl;
      try done.
    assert (∀ (cmp : value → value → comparison), Comparison cmp →
      match cmp a b with Eq => key_compare nulls_high ds ra rb | x => x end = Lt →
      match cmp b c with Eq => key_compare nulls_high ds rb rc | x => x end = Lt →
      match cmp a c with Eq => key_compare nulls_high ds ra rc | x => x end = Lt)
      as Hlex.
    { intros cmp Hcmp.
      destruct (cmp a b) eqn:Eab; try done.
      - rewrite (cmp_eq_l cmp a b c Eab).
        destruct (cmp b c); try done. apply IH.
      - destruct (cmp b c) eqn:Ebc; try done.
        + by rewrite <- (cmp_eq_r cmp a b c Ebc), Eab.
        + by rewrite (cmp_lt_trans cmp a b c Eab Ebc). }
    destruct d.
    + apply (Hlex (λ a b, value_compare nulls_high b a)), Hflip.
    + apply (Hlex (value_compare nulls_high)), _.
Qed.

(** ** The default orderings *)

#[local] Instance key_le_total nulls_high descending :
  Total (key_le nulls_high descending).
Proof. intros x y. apply (cmp_le_total (key_compare nulls_high descending)). Qed.

#[local] Instance key_le_trans nulls_high descending :
  Transitive (key_le nulls_high descending).
Proof.
  intros x y z. apply (cmp_le_trans (key_compare nulls_high descending)).
Qed.

Lemma keyed_rows_key db m x :
  x ∈ keyed_rows db m →
  sort_key db m x.2 = Some x.1 ∧ ∃ pk, db m !! pk = Some x.2.
Proof.
  unfold keyed_rows. intros ([pk r] & Hin & H)%list_elem_of_omap. simpl in H.
  destruct (sort_key db m r) as [k|] eqn:E; simpl in H; [|discriminate].
  injection H as <-. split; [exact E|].
  exists pk. by apply elem_of_map_to_list in Hin.
Qed.

Lemma keyed_rows_all db m :
  (∀ pk r, db m !! pk = Some r → is_Some (sort_key db m r)) →
  (keyed_rows db m).*2 = (map_to_list (db m)).*2.
Proof.
  intros Hall. unfold keyed_rows.
  assert (Forall (λ kr : Z * row, is_Some (sort_key db m kr.2)) (map_to_list (db m)))
    as HF.
  { apply list.Forall_forall. intros [pk r] Hin%elem_of_map_to_list.
    by eapply Hall. }
  induction HF as [|[pk r] l [k Hk] _ IH]; [done|].
  simpl in Hk. simpl. rewrite Hk. simpl. f_equal. exact IH.
Qed.

Lemma StronglySorted_transfer {A B} (R : relation A) (R2 : relation B)
    (P : A → Prop) (f : A → B) (l : list A) :
  (∀ x y, P x → P y → R x y → R2 (f x) (f y)) →
  Forall P l → StronglySorted R l → StronglySorted R2 (f <$> l).
Proof.
  intros Himpl HP Hs. induction Hs as [|x l _ IH Hx]; [constructor|].
  apply Forall_cons_1 in HP as [Px Pl]. rewrite fmap_cons. constructor; [by apply IH|].
  apply Forall_fmap. apply list.Forall_forall. intros y Hy. simpl.
  apply Himpl; [done| |].
  - apply (Forall_elem_of _ _ _ Pl Hy).
  - apply (Forall_elem_of _ _ _ Hx Hy).
Qed.

(** The result of the default query: a permutation of the rows that have
    a sort key, any two of them in the order of their keys. *)
Lemma order_by_spec nulls_high db m :
  order_by nulls_high db m ≡ₚ (keyed_rows db m).*2 ∧
  StronglySorted
    (λ r1 r2, (∃ pk1, db m !! pk1 = Some r1) ∧ (∃ pk2, db m !! pk2 = Some r2) ∧
              ∃ k1 k2, sort_key db m r1 = Some k1 ∧ sort_key db m r2 = Some k2 ∧
                       key_compare nulls_high (ordering_terms m).*2 k1 k2 ≠ Gt)
    (order_by nulls_high db m).
Proof.
  unfold order_by. split.
  - by rewrite merge_sort_Permutation.
  - apply (StronglySorted_transfer (key_le nulls_high (ordering_terms m).*2) _
             (λ x, sort_key db m x.2 = Some x.1 ∧ ∃ pk, db m !! pk = Some x.2)).
    + intros x y [Hx Hpx] [Hy Hpy] Hle. split; [done|]. split; [done|].
      by exists x.1, y.1.
    + apply list.Forall_forall. intros x Hx.
      apply keyed_rows_key.
      by rewrite <- (merge_sort_Permutation
                       (key_le nulls_high (ordering_terms m).*2) (keyed_rows db m)).
    + apply StronglySorted_merge_sort; apply _.
Qed.

Lemma StronglySorted_impl {A} (R R2 : relation A) (l : list A) :
  (∀ x y, R x y → R2 x y) → StronglySorted R l → StronglySorted R2 l.
Proof.
  intros Himpl Hs. induction Hs as [|x l _ IH Hx]; constructor; [done|].
  eapply list.Forall_impl; [exact Hx|]. intros y Hy. by apply Himpl.
Qed.

(** A key of two terms, the first descending and the second ascending. *)
Lemma key_compare_desc_asc nulls_high a1 b1 a2 b2 :
  key_compare nulls_high [true; false] [a1; b1] [a2; b2] ≠ Gt →
  value_compare nulls_high a1 a2 = Gt ∨
  (value_compare nulls_high a1 a2 = Eq ∧ value_compare nulls_high b1 b2 ≠ Gt).
Proof.
  simpl. rewrite (cmp_antisym (value_compare nulls_high) a1 a2).
  destruct (value_compare nulls_high a1 a2); simpl; [|done|by left].
  intros H. right. split; [done|]. by destruct (value_compare nulls_high b1 b2).
Qed.

Lemma lookup_path_column db m r name nf :
  get_field m name = Some nf →
  lookup_path db m r [name] = r !! attname nf.
Proof. simpl. intros ->. simpl. by destruct (r !! attname nf). Qed.

Lemma lookup_path_join db m r name piece rest nf to pk r' :
  get_field m name = Some nf →
  fclass nf.2 = ForeignKey to →
  r !! attname nf = Some (VInt pk) →
  db to !! pk = Some r' →
  lookup_path db m r (name :: piece :: rest) = lookup_path db to r' (piece :: rest).
Proof.
  intros Hf Hc Hr Hr'. cbn [lookup_path]. rewrite Hf. cbn [mbind option_bind].
  rewrite Hr. cbn [mbind option_bind]. rewrite Hc, Hr'. reflexivity.
Qed.

Lemma lookup_path_column_of db m r name col :
  column_of m name col → lookup_path db m r [name] = r !! col.
Proof. intros (nf & Hf & <-). by apply lookup_path_column. Qed.

Lemma sort_key_PaymentTransaction db r :
  sort_key db PaymentTransaction r =
  a ← r !! "creation_date"; b ← r !! "transaction_id"; Some [a; b].
Proof.
  unfold sort_key.
  change (ordering_terms PaymentTransaction)
    with [(["creation_date"], true); (["transaction_id"], false)].
  cbn [mapM fst].
  rewrite (lookup_path_column_of db PaymentTransaction r "creation_date" "creation_date")
    by (eexists; split; reflexivity).
  rewrite (lookup_path_column_of db PaymentTransaction r "transaction_id" "transaction_id")
    by (eexists; split; reflexivity).
  destruct (r !! "creation_date"); [|done].
  by destruct (r !! "transaction_id").
Qed.

(** C5: the default ordering query over the stored PaymentTransaction
    rows returns all of them, sorted by [creation_date] descending, ties
    broken by [transaction_id] ascending. *)
Theorem PaymentTransaction_default_ordering nulls_high db :
  (∀ pk r, db PaymentTransaction !! pk = Some r →
           is_Some (r !! "creation_date") ∧ is_Some (r !! "transaction_id")) →
  order_by nulls_high db PaymentTransaction
    ≡ₚ (map_to_list (db PaymentTransaction)).*2 ∧
  StronglySorted
    (desc_then_asc nulls_high (λ r, r !! "creation_date") (λ r, r !! "transaction_id"))
    (order_by nulls_high db PaymentTransaction).
Proof.
  intros Hcols.
  destruct (order_by_spec nulls_high db PaymentTransaction) as [Hperm Hsorted].
  split.
  - rewrite Hperm, keyed_rows_all; [done|].
    intros pk r Hr. destruct (Hcols pk r Hr) as [[a Ha] [b Hb]].
    rewrite sort_key_PaymentTransaction, Ha, Hb. by eexists.
  - eapply StronglySorted_impl; [|exact Hsorted].
    intros r1 r2 (_ & _ & k1 & k2 & H1 & H2 & Hle).
    rewrite sort_key_PaymentTransaction in H1, H2.
    destruct (r1 !! "creation_date") as [a1|] eqn:Ea1; [|done].
    destruct (r1 !! "transaction_id") as [b1|] eqn:Eb1; [|done].
    destruct (r2 !! "creation_date") as [a2|] eqn:Ea2; [|done].
    destruct (r2 !! "transaction_id") as [b2|] eqn:Eb2; [|done].
    simpl in H1, H2. injection H1 as <-. injection H2 as <-.
    exists a1, a2, b1, b2. repeat split; try done.
    by apply key_compare_desc_asc.
Qed.

Lemma PaymentTransaction_default_ordering_witness :
  (order_by true sample_history_db PaymentTransaction
     ≡ₚ (map_to_list (sample_history_db PaymentTransaction)).*2 ∧
   StronglySorted
     (desc_then_asc true (λ r, r !! "creation_date") (λ r, r !! "transaction_id"))
     (order_by true sample_history_db PaymentTransaction)) ∧
  (λ r : row, (r !! "creation_date", r !! "transaction_id"))
    <$> order_by true sample_history_db PaymentTransaction
  = [ (Some (VDateTime 200), Some (VStr "TX-C"));
      (Some (VDateTime 100), Some (VStr "TX-A"));
      (Some (VDateTime 100), Some (VStr "TX-B")) ].
Proof.
  split.
  - apply (PaymentTransaction_default_ordering true sample_history_db).
    change (map_Forall (λ (_ : Z) (r : row),
              is_Some (r !! "creation_date") ∧ is_Some (r !! "transaction_id"))
              (sample_history_db PaymentTransaction)).
    by_compute.
  - vm_compute. reflexivity.
Defined.

Lemma sort_key_PurchasedItem db r t p :
  r !! "transaction_id" = Some (VInt t) →
  db PaymentTransaction !! t = Some p →
  sort_key db PurchasedItem r =
  a ← p !! "date"; b ← p !! "transaction_id"; Some [a; b].
Proof.
  intros Hr Hp. unfold sort_key.
  change (ordering_terms PurchasedItem)
    with [(["transaction"; "date"], true);
          (["transaction"; "transaction_id"], false)].
  cbn [mapM fst].
  rewrite !(lookup_path_join db PurchasedItem r "transaction" _ _
              ("transaction", mkField (ForeignKey PaymentTransaction)
                                [verbose_name "Transaction"])
              PaymentTransaction t p eq_refl eq_refl Hr Hp).
  rewrite (lookup_path_column_of db PaymentTransaction p "date" "date")
    by (eexists; split; reflexivity).
  rewrite (lookup_path_column_of db PaymentTransaction p "transaction_id" "transaction_id")
    by (eexists; split; reflexivity).
  destruct (p !! "date"); [|done].
  by destruct (p !! "transaction_id").
Qed.

(** C6: the default ordering query over the stored PurchasedItem rows
    returns all of them, sorted by the [date] (the time of the last save)
    of the transaction they belong to, descending, ties broken by the
    [transaction_id] of that transaction, ascending. *)
Theorem PurchasedItem_default_ordering nulls_high db :
  (∀ pk r, db PurchasedItem !! pk = Some r →
     is_Some (p ← transaction_of db r; p !! "date") ∧
     is_Some (p ← transaction_of db r; p !! "transaction_id")) →
  order_by nulls_high db PurchasedItem
    ≡ₚ (map_to_list (db PurchasedItem)).*2 ∧
  StronglySorted
    (desc_then_asc nulls_high
       (λ r, p ← transaction_of db r; p !! "date")
       (λ r, p ← transaction_of db r; p !! "transaction_id"))
    (order_by nulls_high db PurchasedItem).
Proof.
  intros Hfk0.
  assert (∀ pk r, db PurchasedItem !! pk = Some r →
     ∃ t p, r !! "transaction_id" = Some (VInt t) ∧
            db PaymentTransaction !! t = Some p ∧
            is_Some (p !! "date") ∧ is_Some (p !! "transaction_id")) as Hfk.
  { intros pk r Hr. destruct (Hfk0 pk r Hr) as [Hd Ht]. revert Hd Ht.
    unfold transaction_of.
    destruct (r !! "transaction_id") as [[|t| | | |]|]; simpl;
      try (by intros [? [=]]).
    destruct (db PaymentTransaction !! t) as [p|] eqn:Hp; simpl;
      [|by intros [? [=]]].
    intros Hd Ht. exists t, p. auto. }
  clear Hfk0.
  destruct (order_by_spec nulls_high db PurchasedItem) as [Hperm Hsorted].
  split.
  - rewrite Hperm, keyed_rows_all; [done|].
    intros pk r Hr. destruct (Hfk pk r Hr) as (t & p & Ht & Hp & [a Ha] & [b Hb]).
    rewrite (sort_key_PurchasedItem db r t p Ht Hp), Ha, Hb. by eexists.
  - eapply StronglySorted_impl; [|exact Hsorted].
    intros r1 r2 ([pk1 Hr1] & [pk2 Hr2] & k1 & k2 & H1 & H2 & Hle).
    destruct (Hfk pk1 r1 Hr1) as (t1 & p1 & Ht1 & Hp1 & [a1 Ha1] & [b1 Hb1]).
    destruct (Hfk pk2 r2 Hr2) as (t2 & p2 & Ht2 & Hp2 & [a2 Ha2] & [b2 Hb2]).
    rewrite (sort_key_PurchasedItem db r1 t1 p1 Ht1 Hp1), Ha1, Hb1 in H1.
    rewrite (sort_key_PurchasedItem db r2 t2 p2 Ht2 Hp2), Ha2, Hb2 in H2.
    simpl in H1, H2. injection H1 as <-. injection H2 as <-.
    exists a1, a2, b1, b2. unfold transaction_of. rewrite Ht1, Ht2, Hp1, Hp2. simpl.
    repeat split; try done. by apply key_compare_desc_asc.
Qed.

Lemma PurchasedItem_default_ordering_witness :
  (order_by true sample_history_db PurchasedItem
     ≡ₚ (map_to_list (sample_history_db PurchasedItem)).*2 ∧
   StronglySorted
     (desc_then_asc true
        (λ r, p ← transaction_of sample_history_db r; p !! "date")
        (λ r, p ← transaction_of sample_history_db r; p !! "transaction_id"))
     (order_by true sample_history_db PurchasedItem)) ∧
  (λ r : row, (r !! "transaction_id", r !! "quantity"))
    <$> order_by true sample_history_db PurchasedItem
  = [ (Some (VInt 3), Some (VInt 2));
      (Some (VInt 2), Some (VInt 5));
      (Some (VInt 1), Some (VInt 1)) ].
Proof.
  split.
  - apply (PurchasedItem_default_ordering true sample_history_db).
    change (map_Forall (λ (_ : Z) (r : row),
              is_Some (p ← transaction_of sample_history_db r; p !! "date") ∧
              is_Some (p ← transaction_of sample_history_db r; p !! "transaction_id"))
              (sample_history_db PurchasedItem)).
    by_compute.
  - vm_compute. reflexivity.
Defined.

(** On rows with a creation time and a transaction identifier the order
    reads: created later, or created at the same time with an identifier
    that is not greater. *)
Lemma desc_then_asc_dated nulls_high (r1 r2 : row) t1 t2 s1 s2 :
  r1 !! "creation_date" = Some (VDateTime t1) →
  r2 !! "creation_date" = Some (VDateTime t2) →
  r1 !! "transaction_id" = Some (VStr s1) →
  r2 !! "transaction_id" = Some (VStr s2) →
  desc_then_asc nulls_high (λ r, r !! "creation_date") (λ r, r !! "transaction_id")
    r1 r2 ↔
  t1 > t2 ∨ (t1 = t2 ∧ String.leb s1 s2 = true).
Proof.
  intros H1 H2 H3 H4. unfold desc_then_asc. rewrite H1, H2, H3, H4.
  assert (String.compare s1 s2 ≠ Gt ↔ String.leb s1 s2 = true) as Hleb.
  { unfold String.leb. by destruct (String.compare s1 s2). }
  split.
  - intros (a1 & a2 & b1 & b2 & [= <-] & [= <-] & [= <-] & [= <-] & H). simpl in H.
    destruct H as [H|[H H']].
    + left. apply Z.compare_gt_iff in H. lia.
    + right. split; [by apply Z.compare_eq|]. by apply Hleb.
  - intros H. exists (VDateTime t1), (VDateTime t2), (VStr s1), (VStr s2).
    repeat split; try done; simpl. destruct H as [H|[-> H]].
    + left. apply Z.compare_gt_iff. lia.
    + right. split; [apply Z.compare_refl|]. by apply Hleb.
Qed.

(** * Further properties *)

(** ** What [create] stores *)

(** The column of a field after a successful [create]. *)
Lemma create_field_inv now db m kwargs db' self' nf :
  create now db m kwargs = Ok (db', self') →
  nf ∈ non_pks m →
  ∃ pk r vi v0 v,
    self' !! "id" = Some (VInt pk) ∧ db' m !! pk = Some r ∧
    db m !! pk = None ∧
    init_value kwargs nf = Ok vi ∧
    (if stamps nf true then v0 = VDateTime now else v0 = vi) ∧
    get_db_prep_save nf.2 v0 = Ok v ∧
    check_column db nf.2 v = Ok () ∧
    r !! attname nf = Some v ∧ self' !! attname nf = Some v0.
Proof.
  intros (self & Hinit & Hsave)%create_inv Hnf.
  apply init_inv in Hinit as [_ Hfields].
  destruct (Hfields nf (non_pks_local_fields _ _ Hnf)) as (vi & Hvi & Hself).
  apply save_inv in Hsave as (pk & r & Hid & _ & -> & Hnew & Hcols).
  assert (is_update db m self true = false) as Hup by done.
  rewrite Hup in Hnew, Hcols. simpl in Hcols.
  destruct (Hcols nf Hnf) as (v0 & v & Hv0 & Hprep & Hchk & Hr & Hs).
  exists pk, r, vi, v0, v. rewrite lookup_saved_row.
  repeat split; try done.
  destruct (stamps nf true); [done|]. congruence.
Qed.

Lemma plain_field_inv m name dflt :
  plain_field m name dflt = true →
  ∃ nf, nf ∈ non_pks m ∧ nf.1 = name ∧ attname nf = name ∧
        stamps nf true = false ∧ stamps nf false = false ∧
        get_default nf.2 = dflt ∧
        (∀ kwargs, init_value kwargs nf =
                   Ok (from_option id dflt (kwargs !! name))) ∧
        (∀ v0 v, get_db_prep_save nf.2 v0 = Ok v → v = v0).
Proof.
  unfold plain_field. destruct (get_field m name) as [nf|]; [|done].
  rewrite !andb_true_iff, !bool_decide_eq_true, !negb_true_iff.
  intros ((((((Hin & Hname) & Hatt) & Hcls) & Hst) & Hsf) & Hd).
  exists nf. repeat split; try done.
  - intros kwargs. unfold init_value. rewrite Hatt, Hd.
    destruct (fclass nf.2); try done; by destruct (kwargs !! name).
  - intros v0 v. apply get_db_prep_save_same. by destruct (fclass nf.2).
Qed.

(** A plain field is stored as passed, and as its default when it is not
    passed. *)
Lemma create_plain_field now db m kwargs db' self' name dflt :
  plain_field m name dflt = true →
  create now db m kwargs = Ok (db', self') →
  ∃ pk r, self' !! "id" = Some (VInt pk) ∧ db' m !! pk = Some r ∧
          r !! name = Some (from_option id dflt (kwargs !! name)).
Proof.
  intros (nf & Hin & _ & Hatt & Hst & _ & _ & Hinit & Hprep)%plain_field_inv Hc.
  destruct (create_field_inv _ _ _ _ _ _ nf Hc Hin)
    as (pk & r & vi & v0 & v & Hid & Hr & _ & Hvi & Hv0 & Hp & _ & Hcol & _).
  rewrite Hst in Hv0. subst v0. apply Hprep in Hp as ->.
  rewrite Hinit in Hvi. injection Hvi as <-. rewrite Hatt in Hcol.
  by exists pk, r.
Qed.

(** X1: [Item.currency] has the default ['USD']: an Item that is created
    holds the currency that was passed, and USD when none was passed. *)
Theorem Item_currency_defaults_to_USD now db kwargs db' self' :
  create now db Item kwargs = Ok (db', self') →
  ∃ pk r, self' !! "id" = Some (VInt pk) ∧ db' Item !! pk = Some r ∧
          r !! "currency" = Some (from_option id (VStr "USD") (kwargs !! "currency")).
Proof. by apply create_plain_field. Qed.

Lemma Item_currency_defaults_to_USD_witness :
  ∃ pk r, (outcome sample_minimal_item (sample_users, ∅)).2 !! "id" = Some (VInt pk) ∧
          (outcome sample_minimal_item (sample_users, ∅)).1 Item !! pk = Some r ∧
          r !! "currency" = Some (VStr "USD").
Proof.
  destruct (Item_currency_defaults_to_USD 100 sample_users
              {[ "value" := VDecimal (mkDecimal false 5 0) ]}
              (outcome sample_minimal_item (sample_users, ∅)).1
              (outcome sample_minimal_item (sample_users, ∅)).2)
    as (pk & r & H1 & H2 & H3).
  - apply (outcome_Ok_pair sample_minimal_item). vm_compute. reflexivity.
  - exists pk, r. split; [exact H1|]. split; [exact H2|exact H3].
Defined.

Lemma text_fields_plain :
  Forall (λ mn : model * string, plain_field mn.1 mn.2 (VStr "") = true) text_fields.
Proof. by_compute. Qed.

(** X2: a text field without default that is not passed is stored as the
    empty string, not as NULL; one that is passed is stored as passed.
    This holds for every text field of the file, among them the name of an
    Item and the identifier and status of a transaction. *)
Theorem text_fields_default_to_empty now db m name kwargs db' self' :
  (m, name) ∈ text_fields →
  create now db m kwargs = Ok (db', self') →
  ∃ pk r, self' !! "id" = Some (VInt pk) ∧ db' m !! pk = Some r ∧
          r !! name = Some (from_option id (VStr "") (kwargs !! name)).
Proof.
  intros Hin. apply create_plain_field.
  apply (Forall_elem_of _ _ _ text_fields_plain Hin).
Qed.

Lemma text_fields_default_to_empty_witness :
  ∃ pk r, (outcome sample_minimal_item (sample_users, ∅)).2 !! "id" = Some (VInt pk) ∧
          (outcome sample_minimal_item (sample_users, ∅)).1 Item !! pk = Some r ∧
          r !! "name" = Some (VStr "").
Proof.
  destruct (text_fields_default_to_empty 100 sample_users Item "name"
              {[ "value" := VDecimal (mkDecimal false 5 0) ]}
              (outcome sample_minimal_item (sample_users, ∅)).1
              (outcome sample_minimal_item (sample_users, ∅)).2)
    as (pk & r & H1 & H2 & H3).
  - by_compute.
  - apply (outcome_Ok_pair sample_minimal_item). vm_compute. reflexivity.
  - exists pk, r. split; [exact H1|]. split; [exact H2|exact H3].
Defined.

Lemma required_fields_need_value :
  Forall (λ mn : model * string, needs_value mn.1 mn.2 = true) required_fields.
Proof. by_compute. Qed.

(** X3: the fields that must be passed.  A creation that passes no value
    for [Item.value], for [PaymentTransaction.user] or [.value], for
    [PurchasedItem.user], [.transaction] or [.quantity], or for
    [PaymentTransactionError.user] is rejected. *)
Theorem required_fields_are_required now db m name kwargs :
  (m, name) ∈ required_fields →
  kwargs !! name = None →
  kwargs !! (name +:+ "_id") = None →
  is_Error (create now db m kwargs).
Proof.
  intros Hin Hname Hid.
  pose proof (Forall_elem_of _ _ _ required_fields_need_value Hin) as Hneeds.
  simpl in Hneeds. unfold needs_value in Hneeds.
  destruct (get_field m name) as [nf|]; [|done].
  rewrite !andb_true_iff, !bool_decide_eq_true, !negb_true_iff in Hneeds.
  destruct Hneeds as (((((Hnf & Hn) & Hatt) & Hst) & Hnull) & Hd).
  destruct (create now db m kwargs) as [[db' self']|e] eqn:E; [exfalso|by exists e].
  destruct (create_field_inv _ _ _ _ _ _ nf E Hnf)
    as (pk & r & vi & v0 & v & _ & _ & _ & Hvi & Hv0 & Hp & Hchk & _).
  rewrite Hst in Hv0. subst v0.
  assert (kwargs !! attname nf = None) as Hatt' by (by destruct Hatt as [-> | ->]).
  assert (vi = VNone) as ->.
  { unfold init_value in Hvi. rewrite Hn, Hname, Hatt', Hd in Hvi.
    destruct (fclass nf.2); congruence. }
  injection Hp as <-. unfold check_column in Hchk. rewrite Hnull in Hchk.
  discriminate.
Qed.

Lemma required_fields_are_required_witness :
  is_Error sample_no_value.
Proof.
  apply (required_fields_are_required 100 sample_users PaymentTransaction "value").
  - by_compute.
  - vm_compute. reflexivity.
  - vm_compute. reflexivity.
Defined.

(** The required fields are enough: a record of each class is created
    from them alone. *)
Example required_fields_suffice :
  succeeds sample_minimal_item = true ∧
  succeeds sample_minimal_transaction = true ∧
  succeeds sample_minimal_purchase = true ∧
  succeeds sample_minimal_error = true.
Proof. vm_compute. repeat split; reflexivity. Qed.

Lemma length_bounds_bounded :
  Forall (λ mnl : model * string * nat, bounded_text mnl.1.1 mnl.1.2 mnl.2 = true)
         length_bounds.
Proof. by_compute. Qed.

(** X4: the declared [max_length] bounds what is stored.  A save that
    succeeds stores, in each [CharField] column, the text held by the
    instance, and that text has at most [max_length] characters: 32 for a
    transaction identifier, 16 for a status or a currency, and so on.  A
    save of an instance that holds a longer text fails. *)
Theorem stored_text_is_bounded m name n :
  (m, name, n) ∈ length_bounds →
  (∀ now db self force_insert db' self',
     save now db m self force_insert = Ok (db', self') →
     ∃ pk r s, self' !! "id" = Some (VInt pk) ∧ db' m !! pk = Some r ∧
               self !! name = Some (VStr s) ∧ r !! name = Some (VStr s) ∧
               (String.length s ≤ n)%nat) ∧
  (∀ now db self force_insert s,
     self !! name = Some (VStr s) → (n < String.length s)%nat →
     is_Error (save now db m self force_insert)).
Proof.
  intros Hin.
  assert (∀ now db self force_insert db' self',
     save now db m self force_insert = Ok (db', self') →
     ∃ pk r s, self' !! "id" = Some (VInt pk) ∧ db' m !! pk = Some r ∧
               self !! name = Some (VStr s) ∧ r !! name = Some (VStr s) ∧
               (String.length s ≤ n)%nat) as Hstored.
  { intros now db self force_insert db' self' Hsave.
    pose proof (Forall_elem_of _ _ _ length_bounds_bounded Hin) as Hb.
    simpl in Hb. unfold bounded_text in Hb.
    destruct (get_field m name) as [nf|]; [|done].
    rewrite !andb_true_iff, !bool_decide_eq_true, !negb_true_iff in Hb.
    destruct Hb as ((((Hnf & Hatt) & Hc) & Hmax) & Hnull).
    apply save_inv in Hsave as (pk & r & Hid & _ & -> & _ & Hcols).
    destruct (Hcols nf Hnf) as (v0 & v & Hv0 & Hprep & Hchk & Hr & _).
    assert (∀ add, stamps nf add = false) as Hst
      by (intros add; unfold stamps; by rewrite Hc).
    rewrite Hst, Hatt in Hv0. rewrite Hatt in Hr.
    unfold get_db_prep_save in Hprep. unfold check_column in Hchk.
    rewrite Hc in Hprep, Hchk. rewrite Hnull, Hmax in Hchk.
    destruct v0 as [| |s| | |]; try discriminate; injection Hprep as <-;
      [discriminate|].
    destruct (decide (String.length s ≤ n)%nat); [|discriminate].
    exists pk, r, s. by rewrite lookup_saved_row. }
  split; [exact Hstored|].
  intros now db self force_insert s Hs Hlong.
  destruct (save now db m self force_insert) as [[db' self']|e] eqn:E;
    [exfalso|by exists e].
  destruct (Hstored _ _ _ _ _ _ E) as (_ & _ & s' & _ & _ & Hs' & _ & Hle).
  rewrite Hs in Hs'. injection Hs' as <-. lia.
Qed.

Lemma stored_text_is_bounded_witness :
  (∃ pk r s,
     sample_created.2 !! "id" = Some (VInt pk) ∧
     sample_created.1 PaymentTransaction !! pk = Some r ∧
     sample_instance !! "transaction_id" = Some (VStr s) ∧
     r !! "transaction_id" = Some (VStr s) ∧ (String.length s ≤ 32)%nat) ∧
  is_Error (save 100 sample_users PaymentTransaction sample_long_instance true).
Proof.
  destruct (stored_text_is_bounded PaymentTransaction "transaction_id" 32)
    as [Hstored Hlong]; [by_compute|].
  split.
  - apply (Hstored 100 sample_users sample_instance true).
    apply outcome_Ok_pair. vm_compute. reflexivity.
  - apply (Hlong 100 sample_users sample_long_instance true sample_long_id).
    + vm_compute. reflexivity.
    + by_compute.
Defined.

(** ** What a deletion removes *)

Lemma collect_unfold_step fuel db m pks data :
  collect (S fuel) db m pks data =
  let new_objs := filter (λ pk, (m, pk) ∉ data) pks in
  match new_objs with
  | [] => Ok data
  | _ => foldl (collect_step fuel db new_objs) (Ok (data ++ (pair m <$> new_objs)))
               (related_objects m)
  end.
Proof. reflexivity. Qed.

Lemma collect_step_Error fuel db new_objs e rels :
  foldl (collect_step fuel db new_objs) (Error e) rels = Error e.
Proof. induction rels; simpl; done. Qed.

(** The foreign keys that point at a class, by their declaration. *)
Lemma related_objects_spec m m' nf :
  (m', nf) ∈ related_objects m ↔
  nf ∈ local_fields m' ∧ fclass nf.2 = ForeignKey m.
Proof.
  unfold related_objects. rewrite list_elem_of_In, in_flat_map. split.
  - intros (m0 & _ & Hin). apply list_elem_of_In, list_elem_of_omap in Hin
      as (nf0 & Hnf0 & Hp).
    unfold points_at in Hp. destruct (fclass nf0.2) eqn:Hc; try discriminate.
    case_decide; [|discriminate]. injection Hp as <- <-. by subst.
  - intros [Hnf Hc]. exists m'. split.
    + apply list_elem_of_In. destruct m'; by_compute.
    + apply list_elem_of_In, list_elem_of_omap. exists nf. split; [done|].
      unfold points_at. rewrite Hc. by rewrite decide_True.
Qed.

Lemma refers_to_related db x m k :
  refers_to db x (m, k) ↔
  ∃ nf r, (x.1, nf) ∈ related_objects m ∧ db x.1 !! x.2 = Some r ∧
          r !! attname nf = Some (VInt k).
Proof.
  unfold refers_to. simpl. split.
  - intros (nf & r & Hnf & Hc & Hr & Hk). exists nf, r.
    by rewrite related_objects_spec.
  - intros (nf & r & [Hnf Hc]%related_objects_spec & Hr & Hk). by exists nf, r.
Qed.

Lemma elem_of_referring_refers db m m' nf pks k :
  (m', nf) ∈ related_objects m →
  k ∈ referring db m' (attname nf) pks ↔
  ∃ pk, pk ∈ pks ∧ ∃ r, db m' !! k = Some r ∧ r !! attname nf = Some (VInt pk).
Proof.
  intros _. rewrite elem_of_referring. unfold refers. split.
  - intros (r & Hr & Href). destruct (r !! attname nf) as [[]|] eqn:Hv; try done.
    apply bool_decide_eq_true in Href. eauto.
  - intros (pk & Hpk & r & Hr & Hv). exists r. split; [done|]. rewrite Hv.
    by apply bool_decide_eq_true.
Qed.

Lemma collect_fold_spec fuel db m new_objs :
  (∀ m pks data data',
     collect fuel db m pks data = Ok data' → collected db m pks data data') →
  ∀ rels acc data',
    (∀ rel, rel ∈ rels → rel ∈ related_objects m) →
    foldl (collect_step fuel db new_objs) (Ok acc) rels = Ok data' →
    (∀ x, x ∈ acc → x ∈ data') ∧
    (∀ x, x ∈ data' → x ∈ acc ∨ ∀ y, refers_to db y x → y ∈ data') ∧
    (∀ x, x ∈ data' →
          x ∈ acc ∨ ∃ pk, pk ∈ new_objs ∧ rtc (refers_to db) x (m, pk)) ∧
    (∀ rel pk k r, rel ∈ rels → pk ∈ new_objs → db rel.1 !! k = Some r →
                   r !! attname rel.2 = Some (VInt pk) → (rel.1, k) ∈ data').
Proof.
  intros IH. induction rels as [|rel rels IHrels]; intros acc data' Hrels;
    cbn [foldl].
  { intros [= <-]. split; [done|]. split; [by left|]. split; [by left|].
    by intros ? ? ? ? ?%elem_of_nil. }
  assert (∀ acc1, collect_step fuel db new_objs (Ok acc) rel = Ok acc1 →
    (∀ x, x ∈ acc → x ∈ acc1) ∧
    (∀ x, x ∈ acc1 → x ∈ acc ∨ ∀ y, refers_to db y x → y ∈ acc1) ∧
    (∀ x, x ∈ acc1 →
          x ∈ acc ∨ ∃ pk, pk ∈ new_objs ∧ rtc (refers_to db) x (m, pk)) ∧
    (∀ pk k r, pk ∈ new_objs → db rel.1 !! k = Some r →
               r !! attname rel.2 = Some (VInt pk) → (rel.1, k) ∈ acc1)) as Hstep.
  { intros acc1. unfold collect_step. simpl.
    assert (rel ∈ related_objects m) as Hrel by (apply Hrels; left).
    destruct rel as [m' nf]. simpl.
    pose proof (elem_of_referring_refers db m m' nf new_objs) as Hsub.
    destruct (referring db m' (attname nf) new_objs) as [|z l].
    - intros [= <-]. split; [done|]. split; [by left|]. split; [by left|].
      intros pk k r Hpk Hr Hv. exfalso.
      apply (not_elem_of_nil k), (Hsub k Hrel). eauto.
    - pose proof (proj2 (related_objects_depth m (m', nf) Hrel)) as Hcascade.
      simpl in Hcascade. rewrite Hcascade.
      intros (C1 & C2 & C3 & C4)%IH. split; [done|]. split; [done|]. split.
      + intros x Hx. destruct (C4 x Hx) as [|(k & Hk & Hrtc)]; [by left|right].
        apply (Hsub k Hrel) in Hk as (pk & Hpk & r & Hr & Hv).
        exists pk. split; [done|]. eapply rtc_r; [done|].
        apply refers_to_related. by exists nf, r.
      + intros pk k r Hpk Hr Hv. apply C2, (Hsub k Hrel). eauto. }
  destruct (collect_step fuel db new_objs (Ok acc) rel) as [acc1|e];
    [|by rewrite collect_step_Error].
  destruct (Hstep acc1 eq_refl) as (S1 & S2 & S3 & S4).
  intros (F1 & F2 & F3 & F4)%IHrels; [|intros ? ?; apply Hrels; by right].
  split; [auto|]. split; [|split].
  - intros x Hx. destruct (F2 x Hx) as [Hx1|]; [|by right].
    destruct (S2 x Hx1) as [|Hc]; [by left|right]. intros y Hy. auto.
  - intros x Hx. destruct (F3 x Hx) as [Hx1|]; [|by right]. auto.
  - intros rel0 pk k r [->|Hin]%elem_of_cons Hpk Hr Hv; [|eauto].
    apply F1. eauto.
Qed.

(** What [Collector.collect] has collected when it returns. *)
Lemma collect_spec fuel : ∀ db m pks data data',
  collect fuel db m pks data = Ok data' → collected db m pks data data'.
Proof.
  induction fuel as [|fuel IH]; intros db m pks data data' H; [discriminate|].
  rewrite collect_unfold_step in H. cbv zeta in H.
  remember (filter (λ pk, (m, pk) ∉ data) pks) as new_objs eqn:Hdef.
  assert (∀ pk, pk ∈ new_objs ↔ ((m, pk) ∉ data) ∧ pk ∈ pks) as Hnew.
  { intros pk. subst new_objs. by rewrite list_elem_of_filter. }
  clear Hdef. destruct new_objs as [|k ks].
  { injection H as <-. split; [done|]. split; [|split; by left].
    intros pk Hpk. destruct (decide ((m, pk) ∈ data)) as [|Hn]; [done|].
    exfalso. apply (not_elem_of_nil pk), Hnew. done. }
  apply (collect_fold_spec _ _ m) in H as (F1 & F2 & F3 & F4); [|exact (IH db)|done].
  split; [|split; [|split]].
  - intros x Hx. apply F1, elem_of_app. by left.
  - intros pk Hpk. apply F1, elem_of_app.
    destruct (decide ((m, pk) ∈ data)) as [|Hn]; [by left|right].
    apply list_elem_of_fmap_2, Hnew. done.
  - intros x Hx. destruct (F2 x Hx) as [[|Hin]%elem_of_app|]; [by left| |by right].
    apply list_elem_of_fmap in Hin as (pk & -> & Hpk). right.
    intros [m' k'] (nf & r & Hrel & Hr & Hv)%refers_to_related.
    apply (F4 (m', nf) pk k' r Hrel Hpk Hr Hv).
  - intros x Hx. destruct (F3 x Hx) as [[|Hin]%elem_of_app|(pk & Hpk & Hrtc)].
    + by left.
    + apply list_elem_of_fmap in Hin as (pk & -> & Hpk). right.
      exists pk. split; [by apply Hnew|done].
    + right. exists pk. split; [by apply Hnew|done].
Qed.

(** [Model.delete] deletes what it collected, and nothing else. *)
Lemma Model_delete_inv db m pk db' :
  Model_delete db m pk = Ok db' →
  ∃ data, collected db m [pk] [] data ∧
    ∀ m' k, db' m' !! k = if decide ((m', k) ∈ data) then None else db m' !! k.
Proof.
  unfold Model_delete. intros H. inv_bind H as data Hc. injection H as <-.
  exists data. split; [by apply collect_spec in Hc|].
  intros m' k. apply delete_rows_lookup.
Qed.

Lemma collected_reaches db m pk data x :
  collected db m [pk] [] data → x ∈ data ↔ rtc (refers_to db) x (m, pk).
Proof.
  intros (_ & C2 & C3 & C4). split.
  - intros Hx. destruct (C4 x Hx) as [[]%elem_of_nil|(pk0 & Hpk0 & Hrtc)].
    apply elem_of_cons in Hpk0 as [->|[]%elem_of_nil]. done.
  - revert x. apply rtc_ind_l; [apply C2; left|].
    intros x y Hxy _ Hy. destruct (C3 y Hy) as [[]%elem_of_nil|Hc]. by apply Hc.
Qed.

(** X5: what deleting an object deletes.  [delete()] on a row of any
    class returns, and it removes the row and every row that refers to it
    through a chain of foreign keys, all of which cascade; every other row
    is left as it is. *)
Theorem delete_removes_what_refers db m pk :
  ∃ db', Model_delete db m pk = Ok db' ∧
    ∀ m' k, (rtc (refers_to db) (m', k) (m, pk) → db' m' !! k = None) ∧
            (¬ rtc (refers_to db) (m', k) (m, pk) → db' m' !! k = db m' !! k).
Proof.
  destruct (Model_delete_returns db m pk) as [db' Hd]. exists db'.
  split; [done|]. apply Model_delete_inv in Hd as (data & Hc & Hdb').
  intros m' k. rewrite Hdb'. pose proof (collected_reaches _ _ _ _ (m', k) Hc) as Hr.
  split; intros H.
  - rewrite decide_True; [done|]. by apply Hr.
  - rewrite decide_False; [done|]. intros Hin. by apply H, Hr.
Qed.

(** ** The error log is not write-once *)

(** A save that does not write the row [pk] of the error log leaves it as
    it is: a save of another class, an insert, or an update of another
    record. *)
Lemma save_spares_error now db m self fi db' self' pk r :
  db PaymentTransactionError !! pk = Some r →
  m ≠ PaymentTransactionError ∨ is_update db m self fi = false ∨
    self !! "id" ≠ Some (VInt pk) →
  save now db m self fi = Ok (db', self') →
  db' PaymentTransactionError !! pk = Some r.
Proof.
  intros Hr Hcase H.
  apply save_inv in H as (pk' & r' & _ & _ & -> & Hup & _).
  destruct (decide (m = PaymentTransactionError)) as [->|Hne];
    [|by rewrite fn_lookup_insert_ne].
  rewrite fn_lookup_insert. rewrite lookup_insert_ne; [done|]. intros ->.
  destruct (is_update db PaymentTransactionError self fi).
  - destruct Hup as [Hid _]. by destruct Hcase as [|[|]].
  - rewrite Hr in Hup. discriminate.
Qed.

Lemma error_refers_to_user :
  Forall (λ nf : string * Field,
            match fclass nf.2 with
            | ForeignKey to => bool_decide (to = User)
            | _ => true
            end = true)
         (local_fields PaymentTransactionError).
Proof. by_compute. Qed.

Lemma user_refers_to_nothing :
  Forall (λ nf : string * Field,
            match fclass nf.2 with ForeignKey _ => false | _ => true end = true)
         (local_fields User).
Proof. by_compute. Qed.

(** The rows an error record reaches through its foreign keys: itself and
    users. *)
Lemma error_reaches db pk y :
  rtc (refers_to db) (PaymentTransactionError, pk) y →
  y = (PaymentTransactionError, pk) ∨ y.1 = User.
Proof.
  intros [|(z & Hz & Hzy)]%rtc_inv; [by left|right].
  destruct Hz as (nf & _ & Hnf & Hc & _). simpl in Hnf, Hc.
  pose proof (Forall_elem_of _ _ _ error_refers_to_user Hnf) as Hto.
  cbv beta in Hto. rewrite Hc in Hto. apply bool_decide_eq_true in Hto.
  destruct z as [zm zk]. simpl in Hto. subst zm.
  apply rtc_inv in Hzy as [<-|(w & Hw & _)]; [done|].
  destruct Hw as (nf' & _ & Hnf' & Hc' & _). simpl in Hnf', Hc'.
  pose proof (Forall_elem_of _ _ _ user_refers_to_nothing Hnf') as Hno.
  cbv beta in Hno. by rewrite Hc' in Hno.
Qed.

(** Deleting a row that is neither the record nor a user leaves the
    record as it is. *)
Lemma delete_spares_error db m k db' pk r :
  db PaymentTransactionError !! pk = Some r →
  (m, k) ≠ (PaymentTransactionError, pk) → m ≠ User →
  Model_delete db m k = Ok db' →
  db' PaymentTransactionError !! pk = Some r.
Proof.
  intros Hr Hne Hm (data & Hc & Hdb')%Model_delete_inv.
  rewrite Hdb'. rewrite decide_False; [done|]. intros Hin.
  apply (collected_reaches _ _ _ _ _ Hc), error_reaches in Hin as [Heq|Hu]; [|done].
  by apply Hne.
Qed.

(** One operation that spares the record leaves it as it is. *)
Lemma run_spares db o db' pk r :
  db PaymentTransactionError !! pk = Some r →
  row_ok PaymentTransactionError pk r →
  spares pk r o →
  run db o = Ok db' →
  db' PaymentTransactionError !! pk = Some r.
Proof.
  intros Hr Hok Hsp H. destruct o as [now m kwargs|now m self fi|m k]; simpl in *.
  - inv_bind H as [db1 self1] Hc. injection H as <-. simpl.
    apply create_inv in Hc as (self & _ & Hs).
    eapply save_spares_error; [done| |done]. right. by left.
  - inv_bind H as [db1 self1] Hs. injection H as <-. simpl.
    destruct Hsp as [Hm|[Hid| ->]].
    + eapply save_spares_error; [done| |done]. by left.
    + eapply save_spares_error; [done| |done]. right. by right.
    + destruct (decide (m = PaymentTransactionError)) as [->|Hm];
        [|eapply save_spares_error; [done| |done]; by left].
      destruct fi.
      * eapply save_spares_error; [done| |done]. right. by left.
      * by rewrite (save_error_again _ _ _ _ _ _ Hok Hr Hs).
  - eapply delete_spares_error; [done| | |done].
    + intros [= -> ->]. by destruct Hsp as [|[|[_ ?]]].
    + intros ->. by destruct Hsp as [|[|[? _]]].
Qed.

(** C7, as the claim has it, fails: an error record that was created is
    given another response and saved, and the stored row is no longer the
    one that was created. *)
Lemma error_records_are_not_write_once :
  ¬ (∀ now db kwargs db1 self1 pk r ops db2,
       create now db PaymentTransactionError kwargs = Ok (db1, self1) →
       self1 !! "id" = Some (VInt pk) →
       db1 PaymentTransactionError !! pk = Some r →
       run_all db1 ops = Ok db2 →
       db2 PaymentTransactionError !! pk = Some r).
Proof.
  intros H.
  specialize (H 400 sample_order
                {[ "user" := VInt 1;
                   "paypal_api_url" := VStr "https://api-3t.sandbox.paypal.com/nvp";
                   "request_data" := VStr "METHOD=SetExpressCheckout";
                   "response" := VStr "ACK=Failure" ]}
                sample_logged (outcome sample_error (sample_order, ∅)).2
                1 sample_log_row sample_rewriting_ops
                (outcome (run_all sample_logged sample_rewriting_ops) sample_logged)).
  assert (outcome (run_all sample_logged sample_rewriting_ops) sample_logged
            PaymentTransactionError !! 1 ≫= (.!! "response")
          = sample_log_row !! "response") as Hsame.
  { rewrite H; [done| | | |].
    - apply (outcome_Ok_pair sample_error). vm_compute. reflexivity.
    - vm_compute. reflexivity.
    - apply Some_from_option. vm_compute. reflexivity.
    - apply outcome_Ok. vm_compute. reflexivity. }
  vm_compute in Hsame. discriminate.
Qed.

(** C7, amended: a stored error record is changed by operations on the
    record and on what it refers to only.  Along any sequence of
    operations that spare it (every create; every save of an object of
    another class, of another error record, or of the record as it is
    stored; the deletion of an Item, of a PurchasedItem or of another error
    record) the row stays in the log with every column as it was. *)
Theorem error_record_is_kept_by_other_operations db db' pk r ops :
  db PaymentTransactionError !! pk = Some r →
  row_ok PaymentTransactionError pk r →
  Forall (spares pk r) ops →
  run_all db ops = Ok db' →
  db' PaymentTransactionError !! pk = Some r.
Proof.
  intros Hr Hok Hall H. revert db Hr H.
  induction ops as [|o ops IH]; intros db Hr H.
  - by injection H as <-.
  - simpl in H. inv_bind H as db1 Ho.
    apply Forall_cons_1 in Hall as [Hsp Hall].
    eapply IH; [done| |done]. by eapply run_spares.
Qed.

Lemma error_record_is_kept_by_other_operations_witness :
  outcome (run_all sample_logged sample_sparing_ops) sample_logged
    PaymentTransactionError !! 1 = Some sample_log_row ∧
  is_Some (outcome (run_all sample_logged sample_sparing_ops) sample_logged
             PaymentTransactionError !! 2) ∧
  outcome (run_all sample_logged sample_sparing_ops) sample_logged
    PurchasedItem !! 1 = None.
Proof.
  split; [|split; [by_compute|vm_compute; reflexivity]].
  apply (error_record_is_kept_by_other_operations sample_logged _ 1 sample_log_row
           sample_sparing_ops).
  - apply Some_from_option. vm_compute. reflexivity.
  - by_compute.
  - by_compute.
  - apply outcome_Ok. vm_compute. reflexivity.
Defined.

(** Deleting the record deletes it. *)
Example deleting_an_error_record_deletes_it :
  is_Some (sample_logged PaymentTransactionError !! 1) ∧
  outcome (run_all sample_logged sample_deleting_ops) sample_logged
    PaymentTransactionError !! 1 = None.
Proof. split; [by_compute|]. vm_compute. reflexivity. Qed.

(** ** Referential integrity *)

Lemma local_fields_non_pks_or_auto m nf :
  nf ∈ local_fields m → nf ∈ non_pks m ∨ fclass nf.2 = AutoField.
Proof.
  assert (Forall (λ m, Forall (λ nf : string * Field,
                         nf ∈ non_pks m ∨ fclass nf.2 = AutoField)
                         (local_fields m)) all_models) as H by by_compute.
  assert (m ∈ all_models) as Hm by (destruct m; by_compute).
  intros Hnf. apply (Forall_elem_of _ _ _ (Forall_elem_of _ _ m H Hm) Hnf).
Qed.

Lemma fk_ok_field_mono (db db' : database) r nf :
  (∀ to k, is_Some (db to !! k) → is_Some (db' to !! k)) →
  fk_ok_field db r nf = true → fk_ok_field db' r nf = true.
Proof.
  intros Hmono. unfold fk_ok_field.
  destruct (fclass nf.2); try done. destruct (r !! attname nf) as [[]|]; try done.
  rewrite !bool_decide_eq_true. apply Hmono.
Qed.

Lemma fk_ok_lookup db m k r :
  fk_ok db → db m !! k = Some r → fk_ok_row db m r.
Proof.
  intros Hok Hr. assert (m ∈ all_models) as Hm by (destruct m; by_compute).
  apply (Forall_elem_of _ _ m Hok Hm k r Hr).
Qed.

(** A save keeps the references of the database intact: the row it writes
    refers to rows that are there. *)
Lemma save_fk_ok now db m self fi db' self' :
  fk_ok db → save now db m self fi = Ok (db', self') → fk_ok db'.
Proof.
  intros Hok Hs. apply save_inv in Hs as (pk & r & _ & _ & -> & _ & Hcols).
  assert (∀ to k, is_Some (db to !! k) →
                  is_Some ((<[m := <[pk := r]> (db m)]> db) to !! k)) as Hmono.
  { intros to k Hk. destruct (decide (m = to)) as [<-|];
      [rewrite fn_lookup_insert | by rewrite fn_lookup_insert_ne].
    destruct (decide (pk = k)) as [<-|];
      [rewrite lookup_insert_eq; eauto | by rewrite lookup_insert_ne]. }
  assert (∀ m0 k r0, db m0 !! k = Some r0 →
            fk_ok_row (<[m := <[pk := r]> (db m)]> db) m0 r0) as Hold.
  { intros m0 k r0 Hr0. eapply list.Forall_impl; [by eapply fk_ok_lookup|].
    intros nf. by apply fk_ok_field_mono. }
  apply list.Forall_forall. intros m0 _ k r0.
  destruct (decide (m = m0)) as [<-|Hne];
    [rewrite fn_lookup_insert | rewrite fn_lookup_insert_ne by done; apply Hold].
  destruct (decide (pk = k)) as [<-|Hk];
    [rewrite lookup_insert_eq | rewrite lookup_insert_ne by done; apply Hold].
  intros [= <-]. apply list.Forall_forall. intros nf Hnf.
  destruct (local_fields_non_pks_or_auto m nf Hnf) as [Hin|Hauto];
    [|unfold fk_ok_field; by rewrite Hauto].
  destruct (Hcols nf Hin) as (v0 & v & _ & _ & Hchk & Hr & _).
  apply (fk_ok_field_mono db); [done|]. unfold fk_ok_field. rewrite Hr.
  unfold check_column in Hchk.
  destruct (fclass nf.2); try done. destruct v; try done.
  apply bool_decide_eq_true. simpl in Hchk. by case_decide.
Qed.

(** A deletion keeps the references of the database intact: with a row,
    the rows that refer to it are deleted. *)
Lemma delete_fk_ok db m pk db' :
  fk_ok db → Model_delete db m pk = Ok db' → fk_ok db'.
Proof.
  intros Hok (data & (_ & _ & C3 & _) & Hdb')%Model_delete_inv.
  apply list.Forall_forall. intros m0 _ k r0. rewrite Hdb'.
  case_decide as Hin; [done|]. intros Hr0.
  apply list.Forall_forall. intros nf Hnf.
  pose proof (Forall_elem_of _ _ nf (fk_ok_lookup _ _ _ _ Hok Hr0) Hnf) as Hf.
  unfold fk_ok_field in *. destruct (fclass nf.2) as [| | | | | | |to] eqn:Hc; try done.
  destruct (r0 !! attname nf) as [[| k0 | | | |]|] eqn:Hv; try done.
  apply bool_decide_eq_true in Hf. apply bool_decide_eq_true. rewrite Hdb'.
  rewrite decide_False; [done|]. intros Hto.
  destruct (C3 _ Hto) as [[]%elem_of_nil|Hcl]. apply Hin, Hcl. by exists nf, r0.
Qed.

Lemma orm_step_fk_ok db db' : fk_ok db → orm_step db db' → fk_ok db'.
Proof.
  intros Hok [now m kwargs db1 self1 Hc|now m self fi db1 self1 Hs|m pk db1 Hd].
  - apply create_inv in Hc as (self & _ & Hs). by eapply save_fk_ok.
  - by eapply save_fk_ok.
  - by eapply delete_fk_ok.
Qed.

(** X6: no operation of the model layer leaves a dangling reference.  In a
    database in which every key held by a foreign key is the key of a row
    that is there, this is still so after any sequence of [create],
    [save] and [delete] on objects of any class. *)
Theorem references_stay_intact db db' :
  fk_ok db → rtc orm_step db db' → fk_ok db'.
Proof.
  intros Hok Hsteps. induction Hsteps as [|db1 db2 db3 Hstep _ IH]; [done|].
  apply IH. by eapply orm_step_fk_ok.
Qed.

Lemma references_stay_intact_witness :
  fk_ok sample_order_without_user.
Proof.
  apply (references_stay_intact sample_users); [by_compute|].
  eapply rtc_l.
  { apply (orm_create _ 100 PaymentTransaction (sample_transaction_kwargs "TX-B")
             sample_shop (outcome sample_create (sample_users, ∅)).2).
    apply (outcome_Ok_pair sample_create). vm_compute. reflexivity. }
  eapply rtc_l.
  { apply (orm_create _ 300 PurchasedItem (sample_purchase_kwargs 1 2)
             sample_order (outcome sample_purchase (sample_shop, ∅)).2).
    apply (outcome_Ok_pair sample_purchase). vm_compute. reflexivity. }
  apply rtc_once.
  apply (orm_delete _ User 1 sample_order_without_user).
  apply (outcome_Ok (Model_delete sample_order User 1)). vm_compute. reflexivity.
Defined.

(** ** Deleting an item, deleting a user *)

(** A row whose column of a foreign key holds the key of a row refers to
    that row. *)
Lemma fk_column_refers m' m col (db : database) k r pk :
  Exists (λ nf : string * Field, fclass nf.2 = ForeignKey m ∧ attname nf = col)
         (local_fields m') →
  db m' !! k = Some r → r !! col = Some (VInt pk) →
  refers_to db (m', k) (m, pk).
Proof.
  intros (nf & Hnf & Hc & <-)%Exists_exists Hr Hv. exists nf, r.
  split; [by apply list_elem_of_In|done].
Qed.

(** The rows that refer to a row do so in one of the columns of the
    foreign keys that point at its class. *)
Lemma refers_to_column (cols : list (model * string)) db x m pk :
  Forall (λ rel : model * (string * Field), (rel.1, attname rel.2) ∈ cols)
         (related_objects m) →
  refers_to db x (m, pk) →
  ∃ col r, (x.1, col) ∈ cols ∧ db x.1 !! x.2 = Some r ∧ r !! col = Some (VInt pk).
Proof.
  intros Hcols (nf & r & Hrel & Hr & Hv)%refers_to_related.
  exists (attname nf), r. split; [|done].
  apply (Forall_elem_of _ _ _ Hcols Hrel).
Qed.

(** Nothing refers to a row of a class that no foreign key points at. *)
Lemma reaches_leaf db x y :
  related_objects y.1 = [] → rtc (refers_to db) x y → x = y.
Proof.
  intros Hleaf [|(z & _ & Hz)]%rtc_inv_r; [done|]. destruct y as [m pk].
  apply refers_to_related in Hz as (nf & _ & Hrel & _). simpl in Hleaf.
  rewrite Hleaf in Hrel. by apply elem_of_nil in Hrel.
Qed.

Lemma reaches_Item db x pk :
  rtc (refers_to db) x (Item, pk) ↔
  x = (Item, pk) ∨
  x.1 = PurchasedItem ∧
  ∃ r, db PurchasedItem !! x.2 = Some r ∧ r !! "item_id" = Some (VInt pk).
Proof.
  split.
  - intros [|(y & Hxy & Hy)]%rtc_inv_r; [by left|right].
    apply (refers_to_column [(PurchasedItem, "item_id")]) in Hy
      as (col & r & Hcol & Hr & Hv); [|by_compute].
    apply elem_of_cons in Hcol as [[= Hy1 ->]|[]%elem_of_nil].
    apply reaches_leaf in Hxy as ->; [|by rewrite Hy1].
    rewrite Hy1 in Hr. eauto.
  - intros [->|[Hx (r & Hr & Hv)]]; [done|]. apply rtc_once.
    destruct x as [m' k]. simpl in *. subst m'.
    eapply fk_column_refers; [|done|done]. by_compute.
Qed.

(** X7: deleting an item deletes its purchase records.  The foreign key
    [PurchasedItem.item] accepts NULL, but it is not set to NULL when the
    item is deleted: [delete()] on an Item removes the item and exactly
    the PurchasedItem rows whose [item] it is, and touches no other
    table. *)
Theorem delete_Item_cascades db pk :
  ∃ db', Model_delete db Item pk = Ok db' ∧
    db' Item = delete pk (db Item) ∧
    db' PurchasedItem =
      filter (λ kr : Z * row, kr.2 !! "item_id" ≠ Some (VInt pk)) (db PurchasedItem) ∧
    ∀ m, m ≠ Item → m ≠ PurchasedItem → db' m = db m.
Proof.
  destruct (Model_delete_returns db Item pk) as [db' Hd]. exists db'.
  split; [done|]. apply Model_delete_inv in Hd as (data & Hc & Hdb').
  assert (∀ x, x ∈ data ↔
               x = (Item, pk) ∨
               x.1 = PurchasedItem ∧
               ∃ r, db PurchasedItem !! x.2 = Some r ∧
                    r !! "item_id" = Some (VInt pk)) as Hin.
  { intros x. rewrite (collected_reaches _ _ _ _ x Hc). apply reaches_Item. }
  split; [|split].
  - apply map_eq. intros k. rewrite Hdb'. destruct (decide (k = pk)) as [->|Hne].
    + rewrite lookup_delete_eq. rewrite decide_True; [done|]. apply Hin. by left.
    + rewrite lookup_delete_ne by done. rewrite decide_False; [done|].
      rewrite Hin. intros [[=]|[[=] _]]. done.
  - apply map_eq. intros k. rewrite Hdb', map_lookup_filter. case_decide as H.
    + apply Hin in H as [[=]|(_ & r & Hr & Hv)]. simpl in Hr. rewrite Hr. simpl.
      by rewrite option_guard_False by (intros H; by apply H).
    + destruct (db PurchasedItem !! k) as [r|] eqn:Hr; [|done]. simpl.
      rewrite option_guard_True; [done|]. simpl. intros Hv.
      apply H, Hin. right. eauto.
  - intros m H1 H2. apply map_eq. intros k. rewrite Hdb'.
    rewrite decide_False; [done|]. rewrite Hin. intros [[=]|[? _]]; done.
Qed.

(** In the sample order with an item, deleting the item deletes the
    purchase. *)
Example deleting_the_item_deletes_the_purchase :
  is_Some (sample_item_order PurchasedItem !! 1) ∧
  ∃ db', Model_delete sample_item_order Item 1 = Ok db' ∧
         db' PurchasedItem !! 1 = None.
Proof.
  split; [by_compute|].
  exists (outcome (Model_delete sample_item_order Item 1) sample_item_order).
  split; [apply outcome_Ok|]; vm_compute; reflexivity.
Qed.

Lemma purchase_of_user_spec db user r :
  purchase_of_user db user r = true ↔
  r !! "user_id" = Some (VInt user) ∨
  ∃ t rt, r !! "transaction_id" = Some (VInt t) ∧
          db PaymentTransaction !! t = Some rt ∧
          rt !! "user_id" = Some (VInt user).
Proof.
  unfold purchase_of_user. rewrite orb_true_iff, bool_decide_eq_true. split.
  - intros [|H]; [by left|right].
    destruct (r !! "transaction_id") as [[| t | | | |]|]; try done.
    destruct (db PaymentTransaction !! t) as [rt|] eqn:Hrt; [|done].
    apply bool_decide_eq_true in H. by exists t, rt.
  - intros [|(t & rt & -> & -> & H)]; [by left|right].
    by apply bool_decide_eq_true.
Qed.

Lemma reaches_User db x pk :
  rtc (refers_to db) x (User, pk) ↔
  x = (User, pk) ∨
  ((x.1 = PaymentTransaction ∨ x.1 = PurchasedItem ∨ x.1 = PaymentTransactionError) ∧
   ∃ r, db x.1 !! x.2 = Some r ∧ r !! "user_id" = Some (VInt pk)) ∨
  (x.1 = PurchasedItem ∧
   ∃ r t rt, db PurchasedItem !! x.2 = Some r ∧
             r !! "transaction_id" = Some (VInt t) ∧
             db PaymentTransaction !! t = Some rt ∧
             rt !! "user_id" = Some (VInt pk)).
Proof.
  split.
  - intros [|(y & Hxy & Hy)]%rtc_inv_r; [by left|right].
    apply (refers_to_column [(PaymentTransaction, "user_id");
                             (PurchasedItem, "user_id");
                             (PaymentTransactionError, "user_id")]) in Hy
      as (col & r & Hcol & Hr & Hv); [|by_compute].
    destruct y as [ym yk]. simpl in *.
    apply elem_of_cons in Hcol as [[= -> ->]|Hcol].
    + apply rtc_inv_r in Hxy as [->|(z & Hxz & Hz)];
        [left; split; [by left|by exists r]|right].
      apply (refers_to_column [(PurchasedItem, "transaction_id")]) in Hz
        as (col & rz & Hcol & Hrz & Hvz); [|by_compute].
      apply elem_of_cons in Hcol as [[= Hz1 ->]|[]%elem_of_nil].
      apply reaches_leaf in Hxz as ->; [|by rewrite Hz1].
      rewrite Hz1 in Hrz. split; [done|]. by exists rz, yk, r.
    + left. apply elem_of_cons in Hcol as [[= -> ->]|Hcol].
      { apply reaches_leaf in Hxy as ->; [|done]. simpl.
        split; [by right; left|by exists r]. }
      apply elem_of_cons in Hcol as [[= -> ->]|[]%elem_of_nil].
      apply reaches_leaf in Hxy as ->; [|done]. simpl.
      split; [by right; right|by exists r].
  - destruct x as [m k]. simpl.
    intros [[= -> ->]|[[Hm (r & Hr & Hv)]|[-> (r & t & rt & Hr & Ht & Hrt & Hv)]]];
      [done| |].
    + apply rtc_once. eapply fk_column_refers; [|done|done].
      destruct Hm as [->|[->| ->]]; by_compute.
    + eapply rtc_l; [|apply rtc_once].
      * eapply (fk_column_refers _ PaymentTransaction); [|done|done]. by_compute.
      * eapply fk_column_refers; [|done|done]. by_compute.
Qed.

(** X8: deleting a user deletes the payment history of the user.
    [delete()] on a User removes, besides the user, exactly: the
    transactions of the user, the error records of the user, and the
    purchase records that are the user's own or belong to a transaction of
    the user.  Items and content types are left as they are. *)
Theorem delete_User_cascades db pk :
  ∃ db', Model_delete db User pk = Ok db' ∧
    db' User = delete pk (db User) ∧
    db' PaymentTransaction =
      filter (λ kr : Z * row, kr.2 !! "user_id" ≠ Some (VInt pk))
             (db PaymentTransaction) ∧
    db' PaymentTransactionError =
      filter (λ kr : Z * row, kr.2 !! "user_id" ≠ Some (VInt pk))
             (db PaymentTransactionError) ∧
    db' PurchasedItem =
      filter (λ kr : Z * row, purchase_of_user db pk kr.2 = false)
             (db PurchasedItem) ∧
    db' Item = db Item ∧ db' ContentType = db ContentType.
Proof.
  destruct (Model_delete_returns db User pk) as [db' Hd]. exists db'.
  split; [done|]. apply Model_delete_inv in Hd as (data & Hc & Hdb').
  pose proof (λ x, iff_trans (collected_reaches _ _ _ _ x Hc) (reaches_User db x pk))
    as Hin.
  assert (∀ m, (∀ k, (m, k) ∉ data) → db' m = db m) as Hsame.
  { intros m Hm. apply map_eq. intros k. rewrite Hdb'. by rewrite decide_False. }
  assert (∀ m, (m = PaymentTransaction ∨ m = PaymentTransactionError) →
               db' m = filter (λ kr : Z * row, kr.2 !! "user_id" ≠ Some (VInt pk))
                              (db m)) as Hfilter.
  { intros m Hm. apply map_eq. intros k. rewrite Hdb', map_lookup_filter.
    case_decide as H.
    - apply Hin in H. simpl in H.
      destruct H as [[= -> ->]|[[_ (r & Hr & Hv)]|[-> _]]];
        [by destruct Hm| |by destruct Hm].
      rewrite Hr. simpl.
      by rewrite option_guard_False by (intros H; by apply H).
    - destruct (db m !! k) as [r|] eqn:Hr; [|done]. simpl.
      rewrite option_guard_True; [done|]. simpl. intros Hv.
      apply H, Hin. right. left. simpl. split; [|by exists r].
      destruct Hm as [->| ->]; auto. }
  split; [|split; [|split; [|split; [|split]]]].
  - apply map_eq. intros k. rewrite Hdb'. destruct (decide (k = pk)) as [->|Hne].
    + rewrite lookup_delete_eq. rewrite decide_True; [done|]. apply Hin. by left.
    + rewrite lookup_delete_ne by done. rewrite decide_False; [done|].
      rewrite Hin. simpl. intros [[=]|[[[|[|]] _]|[? _]]]; done.
  - apply Hfilter. by left.
  - apply Hfilter. by right.
  - apply map_eq. intros k. rewrite Hdb', map_lookup_filter. case_decide as H.
    + destruct (db PurchasedItem !! k) as [r|] eqn:Hr; [|done]. simpl.
      rewrite option_guard_False; [done|]. simpl.
      apply not_false_iff_true, purchase_of_user_spec.
      apply Hin in H. simpl in H.
      destruct H as [[=]|[[_ (r' & Hr' & Hv)]|[_ (r' & t & rt & Hr' & Ht)]]];
        rewrite Hr in Hr'; injection Hr' as <-; [by left|right].
      by exists t, rt.
    + destruct (db PurchasedItem !! k) as [r|] eqn:Hr; [|done]. simpl.
      rewrite option_guard_True; [done|]. simpl.
      apply not_true_iff_false. intros Hp. apply H, Hin. right.
      apply purchase_of_user_spec in Hp as [Hv|(t & rt & Ht)].
      * left. simpl. split; [auto|by exists r].
      * right. simpl. split; [done|]. by exists r, t, rt.
  - apply Hsame. intros k. rewrite Hin. simpl.
    intros [[=]|[[[|[|]] _]|[? _]]]; done.
  - apply Hsame. intros k. rewrite Hin. simpl.
    intros [[=]|[[[|[|]] _]|[? _]]]; done.
Qed.

Lemma leaf_models_related m : m ∈ leaf_models → related_objects m = [].
Proof.
  intros Hm.
  apply (Forall_elem_of (λ m, related_objects m = []) leaf_models m); [by_compute|done].
Qed.

(** X9: deleting a purchase record or an error record deletes that row
    only.  No foreign key points at these classes, and a deletion does not
    follow the foreign keys of the deleted row: the transaction, the item
    and the user it refers to stay. *)
Theorem delete_leaf_removes_one_row db m pk :
  m ∈ leaf_models →
  ∃ db', Model_delete db m pk = Ok db' ∧
    db' m = delete pk (db m) ∧ ∀ m', m' ≠ m → db' m' = db m'.
Proof.
  intros Hleaf%leaf_models_related.
  destruct (Model_delete_returns db m pk) as [db' Hd]. exists db'.
  split; [done|]. apply Model_delete_inv in Hd as (data & Hc & Hdb').
  assert (∀ x, x ∈ data ↔ x = (m, pk)) as Hin.
  { intros x. rewrite (collected_reaches _ _ _ _ x Hc). split; [|by intros ->].
    by apply reaches_leaf. }
  split.
  - apply map_eq. intros k. rewrite Hdb'. destruct (decide (k = pk)) as [->|Hne].
    + rewrite lookup_delete_eq. rewrite decide_True; [done|]. by apply Hin.
    + rewrite lookup_delete_ne by done. rewrite decide_False; [done|].
      rewrite Hin. by intros [=].
  - intros m' Hne. apply map_eq. intros k. rewrite Hdb'.
    rewrite decide_False; [done|]. rewrite Hin. by intros [=].
Qed.

Lemma delete_leaf_removes_one_row_witness :
  ∃ db', Model_delete sample_order PurchasedItem 1 = Ok db' ∧
    db' PurchasedItem = delete 1 (sample_order PurchasedItem) ∧
    ∀ m', m' ≠ PurchasedItem → db' m' = sample_order m'.
Proof.
  apply (delete_leaf_removes_one_row sample_order PurchasedItem 1). by_compute.
Defined.

(** ** Saving what was stored *)

(** An amount that was rounded to an exponent is not changed when it is
    rounded to it again. *)
Lemma quantize_idem d exp prec d' :
  quantize d exp prec = Ok d' → quantize d' exp prec = Ok d'.
Proof.
  unfold quantize. destruct (negb _) eqn:Hrange; [discriminate|].
  destruct (coefficient d =? 0) eqn:Hzero.
  { by intros [= <-]. }
  destruct (adjusted d >? Emax); [discriminate|].
  destruct (adjusted d - exp + 1 >? prec); [discriminate|].
  cbv zeta. destruct (adjusted (rescale d exp) >? Emax) eqn:Hadj; [discriminate|].
  destruct (len_int (coefficient (rescale d exp)) >? prec) eqn:Hlen; [discriminate|].
  intros [= <-]. pose proof (rescale_exp d exp) as Hexp.
  destruct (rescale d exp) as [s n e]. simpl in Hexp. subst e.
  destruct (coefficient (mkDecimal s n exp) =? 0) eqn:Hz.
  { apply Z.eqb_eq in Hz. unfold coefficient in Hz. simpl in Hz.
    by replace n with 0%N by lia. }
  rewrite Hadj.
  assert (adjusted (mkDecimal s n exp) - exp + 1 =
          len_int (coefficient (mkDecimal s n exp))) as -> by (unfold adjusted; simpl; lia).
  rewrite Hlen.
  assert (rescale (mkDecimal s n exp) exp = mkDecimal s n exp) as ->.
  { unfold rescale. rewrite Hz. simpl.
    replace (exp >=? exp) with true by lia. f_equal.
    unfold coefficient. simpl. rewrite Z.sub_diag. simpl. lia. }
  by rewrite Hadj, Hlen.
Qed.

(** What was prepared for the database is prepared to itself. *)
Lemma get_db_prep_save_idem f v0 v :
  get_db_prep_save f v0 = Ok v → get_db_prep_save f v = Ok v.
Proof.
  unfold get_db_prep_save.
  destruct v0 as [|n|s|d|t|fm fe]; [by intros [= <-]|..];
    destruct (fclass f); try discriminate; try (by intros [= <-]).
  destruct (f_max_digits f) as [md|]; [|by intros [= <-]].
  destruct (f_decimal_places f) as [dp|]; [|by intros [= <-]].
  intros H. inv_bind H as d' Hd. injection H as <-.
  unfold format_number in *. by rewrite (quantize_idem _ _ _ _ Hd).
Qed.

(** A value that a column accepts is accepted when rows were added. *)
Lemma check_column_mono (db db' : database) f v :
  (∀ to k, is_Some (db to !! k) → is_Some (db' to !! k)) →
  check_column db f v = Ok () → check_column db' f v = Ok ().
Proof.
  intros Hmono. unfold check_column.
  destruct v as [|n|s|d|t|fm fe]; try done.
  destruct (fclass f); try done.
  case_decide as Hk; [|discriminate]. intros _. by rewrite decide_True by auto.
Qed.

(** The clock value is accepted by the column of a stamped field. *)
Lemma stamped_column_ok db nf add now :
  stamps nf add = true →
  get_db_prep_save nf.2 (VDateTime now) = Ok (VDateTime now) ∧
  check_column db nf.2 (VDateTime now) = Ok ().
Proof.
  unfold stamps, get_db_prep_save, check_column. by destruct (fclass nf.2).
Qed.

Lemma pre_save_returns now nf self add v0 :
  (if stamps nf add then v0 = VDateTime now else self !! attname nf = Some v0) →
  ∃ self', pre_save now nf self add = Ok (v0, self') ∧
           ∀ a, a ≠ attname nf → self' !! a = self !! a.
Proof.
  unfold stamps, pre_save, getattr.
  destruct (fclass nf.2); try (intros ->; by eexists).
  destruct (f_auto_now nf.2 || f_auto_now_add nf.2 && add).
  - intros ->. eexists. split; [done|]. intros a Ha. by rewrite lookup_insert_ne.
  - intros ->. by eexists.
Qed.

(** The columns of a statement are computed when every field has a value
    that its column accepts. *)
Lemma column_values_returns now db add fields : ∀ self r,
  NoDup (attname <$> fields) →
  (∀ nf, nf ∈ fields → ∃ v0 v,
     (if stamps nf add then v0 = VDateTime now else self !! attname nf = Some v0) ∧
     get_db_prep_save nf.2 v0 = Ok v ∧
     check_column db nf.2 v = Ok ()) →
  is_Ok (column_values now db add fields self r).
Proof.
  induction fields as [|nf rest IH]; intros self r Hnd Hall; [by eexists|].
  rewrite fmap_cons in Hnd.
  destruct (Hall nf ltac:(left)) as (v0 & v & Hv0 & Hprep & Hchk).
  destruct (pre_save_returns now nf self add v0 Hv0) as (self1 & Hpre & Hsame).
  simpl. unfold column_value. rewrite Hpre. simpl. rewrite Hprep. simpl.
  rewrite Hchk. simpl. apply IH; [by apply NoDup_cons_1_2 in Hnd|].
  intros nf' Hnf'. destruct (Hall nf' ltac:(by right)) as (w0 & w & Hw0 & Hw).
  exists w0, w. split; [|done]. destruct (stamps nf' add); [done|].
  rewrite Hsame; [done|]. intros Heq. apply NoDup_cons_1_1 in Hnd. apply Hnd.
  rewrite <- Heq. by apply list_elem_of_fmap_2.
Qed.

(** X10: saving a record as it was stored is a round trip.  The row that a
    save has written can be loaded and saved again: the second save
    succeeds, it rewrites the same row with the same values, but for the
    fields with [auto_now], which take the time of the second save, and it
    touches no other row.  In particular an amount that was rounded to two
    decimals is not rounded again. *)
Theorem saved_row_round_trip now db m self force_insert db1 self1 now' :
  save now db m self force_insert = Ok (db1, self1) →
  ∃ pk r1, self1 !! "id" = Some (VInt pk) ∧ db1 m !! pk = Some r1 ∧
  ∃ db2 self2 r2,
    save now' db1 m r1 false = Ok (db2, self2) ∧
    db2 m !! pk = Some r2 ∧
    (∀ a, (∀ nf, nf ∈ non_pks m → attname nf = a → stamps nf false = false) →
          r2 !! a = r1 !! a) ∧
    (∀ nf, nf ∈ non_pks m → stamps nf false = true →
           r2 !! attname nf = Some (VDateTime now')) ∧
    (∀ pk', pk' ≠ pk → db2 m !! pk' = db1 m !! pk') ∧
    (∀ m', m' ≠ m → db2 m' = db1 m').
Proof.
  intros Hs. pose proof Hs as Hfr.
  apply save_inv in Hs as (pk & r1 & Hid & Hrid & Hdb1 & _ & Hcols).
  assert (db1 m !! pk = Some r1) as Hr1 by (subst db1; apply lookup_saved_row).
  exists pk, r1. split; [done|]. split; [done|].
  assert (∀ to k, is_Some (db to !! k) → is_Some (db1 to !! k)) as Hmono.
  { intros to k Hk. subst db1. destruct (decide (m = to)) as [<-|];
      [rewrite fn_lookup_insert | by rewrite fn_lookup_insert_ne].
    destruct (decide (pk = k)) as [<-|];
      [rewrite lookup_insert_eq; eauto | by rewrite lookup_insert_ne]. }
  clear Hdb1.
  assert (is_Ok (column_values now' db1 false (non_pks m) r1 {["id" := VInt pk]}))
    as [[r2 self2] Hcv].
  { apply column_values_returns; [apply non_pks_attnames_NoDup|]. intros nf Hnf.
    destruct (Hcols nf Hnf) as (v0 & v & _ & Hprep & Hchk & Hr & _).
    destruct (stamps nf false) eqn:Hst.
    - exists (VDateTime now'), (VDateTime now'). split; [done|].
      by apply (stamped_column_ok _ _ false).
    - exists v, v. split; [done|].
      split; [by eapply get_db_prep_save_idem|by eapply check_column_mono]. }
  assert (save now' db1 m r1 false = Ok (<[m := <[pk := r2]> (db1 m)]> db1, self2))
    as Hs2.
  { unfold save, getattr. rewrite Hrid. simpl.
    rewrite bool_decide_eq_true_2 by eauto. simpl. by rewrite Hcv. }
  eexists _, self2, r2. split; [exact Hs2|]. split; [apply lookup_saved_row|].
  apply column_values_inv in Hcv as [Hframe Hcols2]; [|apply non_pks_attnames_NoDup].
  split; [|split; [|split]].
  - intros a Ha. destruct (decide (a ∈ attname <$> non_pks m)) as [Hin|Hnin].
    + apply list_elem_of_fmap in Hin as (nf & -> & Hnf).
      specialize (Ha nf Hnf eq_refl).
      destruct (Hcols2 nf Hnf) as (w0 & w & Hw0 & Hwprep & _ & Hr2 & _).
      rewrite Ha in Hw0.
      destruct (Hcols nf Hnf) as (v0 & v & _ & Hprep & _ & Hr & _).
      rewrite Hr in Hw0. injection Hw0 as <-.
      apply get_db_prep_save_idem in Hprep. rewrite Hprep in Hwprep.
      injection Hwprep as <-. by rewrite Hr2, Hr.
    + destruct (Hframe a Hnin) as [-> _].
      destruct (decide (a = "id")) as [->|Hne];
        [by rewrite lookup_singleton_eq, Hrid|].
      rewrite lookup_singleton_ne by done. symmetry.
      destruct (save_frame _ _ _ _ _ _ _ a Hfr Hne Hnin) as [_ Hnone].
      by apply (Hnone pk r1).
  - intros nf Hnf Hst.
    destruct (Hcols2 nf Hnf) as (w0 & w & Hw0 & Hwprep & _ & Hr2 & _).
    rewrite Hst in Hw0. subst w0.
    destruct (stamped_column_ok db1 nf false now' Hst) as [Hp _].
    rewrite Hp in Hwprep. by injection Hwprep as <-.
  - intros pk' Hne. by rewrite fn_lookup_insert, lookup_insert_ne.
  - intros m' Hne. by rewrite fn_lookup_insert_ne.
Qed.

Lemma saved_row_round_trip_witness :
  ∃ r1 db2 self2 r2,
    sample_created.1 PaymentTransaction !! 1 = Some r1 ∧
    save 250 sample_created.1 PaymentTransaction r1 false = Ok (db2, self2) ∧
    db2 PaymentTransaction !! 1 = Some r2 ∧
    r2 !! "value" = r1 !! "value" ∧
    r2 !! "date" = Some (VDateTime 250).
Proof.
  destruct (saved_row_round_trip 100 sample_users PaymentTransaction sample_instance
              true sample_created.1 sample_created.2 250)
    as (pk & r1 & Hid & Hr1 & db2 & self2 & r2 & Hs2 & Hr2 & Hsame & Hst & _).
  - apply outcome_Ok_pair. vm_compute. reflexivity.
  - assert (sample_created.2 !! "id" = Some (VInt 1)) as H1 by (vm_compute; reflexivity).
    rewrite H1 in Hid. injection Hid as <-.
    exists r1, db2, self2, r2.
    split; [exact Hr1|]. split; [exact Hs2|]. split; [exact Hr2|]. split.
    + apply Hsame. intros nf Hnf.
      apply (Forall_elem_of (λ nf : string * Field,
                               attname nf = "value" → stamps nf false = false)
                            (non_pks PaymentTransaction) nf); [by_compute|exact Hnf].
    + exact (Hst _ date_field_of_PaymentTransaction eq_refl).
Defined.

(** ** [PaymentTransactionError.date] *)

(** A date field with [auto_now_add] and without [auto_now] is stamped by
    the save that inserts the row. *)
Lemma insert_stamps now db m self db' self' nf :
  nf ∈ non_pks m → stamps nf true = true →
  is_update db m self true = false →
  save now db m self true = Ok (db', self') →
  ∃ pk, stamped_at m (attname nf) now pk (db', self').
Proof.
  intros Hnf Hst Hup H.
  apply save_inv in H as (pk & r & Hid & _ & -> & _ & Hcols).
  destruct (Hcols nf Hnf) as (v0 & v & Hv0 & Hprep & _ & Hr & Hs).
  rewrite Hup in Hv0. simpl in Hv0. rewrite Hst in Hv0. subst v0.
  destruct (stamped_column_ok db nf true now Hst) as [Hp _].
  rewrite Hp in Hprep. injection Hprep as <-.
  exists pk. unfold stamped_at; simpl. split; [done|]. split; [done|].
  exists r. by rewrite lookup_saved_row.
Qed.

(** It is left as it is by a later save of the instance. *)
Lemma update_keeps_stamp m nf t pk db self now edits db' self' :
  nf ∈ non_pks m → stamps nf false = false →
  stamped_at m (attname nf) t pk (db, self) →
  edits !! attname nf = None →
  edits !! "id" = None →
  save now db m (edits ∪ self) false = Ok (db', self') →
  stamped_at m (attname nf) t pk (db', self').
Proof.
  unfold stamped_at; simpl. intros Hnf Hst (Hid & Hd & r0 & Hr0 & _) Hed Heid H.
  assert ((edits ∪ self) !! "id" = Some (VInt pk)) as Hid'.
  { by rewrite lookup_union_r. }
  assert ((edits ∪ self) !! attname nf = Some (VDateTime t)) as Hd'.
  { by rewrite lookup_union_r. }
  assert (is_update db m (edits ∪ self) false = true) as Hup.
  { unfold is_update. rewrite Hid'. simpl. apply bool_decide_eq_true. eauto. }
  apply save_inv in H as (pk' & r & Hid'' & _ & -> & Hpk' & Hcols).
  rewrite Hup in Hpk', Hcols. destruct Hpk' as [Hpk' _].
  rewrite Hid' in Hpk'. injection Hpk' as <-.
  destruct (Hcols nf Hnf) as (v0 & v & Hv0 & Hprep & _ & Hr & Hs).
  simpl in Hv0. rewrite Hst, Hd' in Hv0. injection Hv0 as <-.
  assert (v = VDateTime t) as ->.
  { unfold get_db_prep_save in Hprep. destruct (fclass nf.2); congruence. }
  split; [done|]. split; [done|]. exists r. by rewrite lookup_saved_row.
Qed.

Lemma run_saves_keeps_stamp m nf t pk saves : ∀ db self db' self',
  nf ∈ non_pks m → stamps nf false = false →
  stamped_at m (attname nf) t pk (db, self) →
  Forall (λ s : Z * gmap string value,
            s.2 !! attname nf = None ∧ s.2 !! "id" = None) saves →
  run_saves m db self saves = Ok (db', self') →
  stamped_at m (attname nf) t pk (db', self').
Proof.
  induction saves as [|[now edits] rest IH];
    intros db self db' self' Hnf Hst Hinv Hall H.
  - by injection H as <- <-.
  - simpl in H. inv_bind H as [db1 self1] Hsave. simpl in H.
    apply Forall_cons_1 in Hall as [[Hed Heid] Hall]; simpl in *.
    eapply IH; [done|done| |done|done].
    by eapply update_keeps_stamp.
Qed.

Lemma date_field_of_PaymentTransactionError :
  ("date", mkField DateTimeField [auto_now_add true; verbose_name "Time"])
    ∈ non_pks PaymentTransactionError.
Proof. by_compute. Qed.

(** X11: the [date] of an error record is the time at which it was logged.
    [PaymentTransactionError.date] has [auto_now_add] and no [auto_now]:
    the save that creates the record sets it to the time of creation,
    whatever was passed, and, unlike the [date] of a transaction, later
    saves of the record with other attributes changed leave it there. *)
Theorem error_date_is_time_of_logging now db kwargs db1 self1 saves db2 self2 :
  create now db PaymentTransactionError kwargs = Ok (db1, self1) →
  Forall (λ s : Z * gmap string value,
            s.2 !! "date" = None ∧ s.2 !! "id" = None) saves →
  run_saves PaymentTransactionError db1 self1 saves = Ok (db2, self2) →
  ∃ pk r1 r2,
    self1 !! "id" = Some (VInt pk) ∧ self2 !! "id" = Some (VInt pk) ∧
    db1 PaymentTransactionError !! pk = Some r1 ∧
    r1 !! "date" = Some (VDateTime now) ∧
    db2 PaymentTransactionError !! pk = Some r2 ∧
    r2 !! "date" = Some (VDateTime now).
Proof.
  intros (self & _ & Hs)%create_inv Hall Hrun.
  apply (insert_stamps _ _ _ _ _ _ _ date_field_of_PaymentTransactionError
           eq_refl eq_refl) in Hs as [pk Hinv].
  pose proof (run_saves_keeps_stamp _ _ _ _ _ _ _ _ _
                date_field_of_PaymentTransactionError eq_refl Hinv Hall Hrun) as Hinv2.
  destruct Hinv as (Hid1 & _ & r1 & Hr1 & Hc1).
  destruct Hinv2 as (Hid2 & _ & r2 & Hr2 & Hc2).
  by exists pk, r1, r2.
Qed.

Lemma error_date_is_time_of_logging_witness :
  (∃ pk r1 r2,
    (outcome sample_error (sample_order, ∅)).2 !! "id" = Some (VInt pk) ∧
    (outcome sample_error_run (sample_order, ∅)).2 !! "id" = Some (VInt pk) ∧
    (outcome sample_error (sample_order, ∅)).1 PaymentTransactionError !! pk
      = Some r1 ∧
    r1 !! "date" = Some (VDateTime 400) ∧
    (outcome sample_error_run (sample_order, ∅)).1 PaymentTransactionError !! pk
      = Some r2 ∧
    r2 !! "date" = Some (VDateTime 400)) ∧
  (outcome sample_error_run (sample_order, ∅)).2 !! "response"
    = Some (VStr "ACK=Success").
Proof.
  split.
  - apply (error_date_is_time_of_logging 400 sample_order
             {[ "user" := VInt 1;
                "paypal_api_url" := VStr "https://api-3t.sandbox.paypal.com/nvp";
                "request_data" := VStr "METHOD=SetExpressCheckout";
                "response" := VStr "ACK=Failure" ]} _ _
             [ (500, {["response" := VStr "ACK=Success"]}) ]).
    + apply (outcome_Ok_pair sample_error). vm_compute. reflexivity.
    + repeat constructor.
    + apply (outcome_Ok_pair sample_error_run). vm_compute. reflexivity.
  - vm_compute. reflexivity.
Defined.

(** ** The columns of a stored row *)

Lemma columns_attnames m : columns m = attname <$> local_fields m.
Proof. by destruct m. Qed.

(** X12: a stored row has the columns of the fields of its class, and no
    other.  The generic relation [content_object] is not a column: it is
    held in [content_type_id] and [object_id]; and the error log has no
    column for a transaction. *)
Theorem stored_row_has_the_declared_columns now db m self force_insert db' self' :
  save now db m self force_insert = Ok (db', self') →
  ∃ pk r, self' !! "id" = Some (VInt pk) ∧ db' m !! pk = Some r ∧
          ∀ a, is_Some (r !! a) ↔ a ∈ columns m.
Proof.
  intros H. pose proof H as Hfr.
  apply save_inv in H as (pk & r & Hid & Hrid & -> & _ & Hcols).
  exists pk, r. split; [done|]. split; [apply lookup_saved_row|].
  intros a. rewrite columns_attnames. split.
  - intros [v Hv].
    destruct (decide (a ∈ attname <$> local_fields m)) as [|Hn]; [done|].
    apply not_field_attname in Hn as [Hne Ha].
    destruct (save_frame _ _ _ _ _ _ _ a Hfr Hne Ha) as [_ Hr].
    rewrite (Hr pk r Hid (lookup_saved_row _ _ _ _)) in Hv. discriminate.
  - rewrite local_fields_attnames. intros [->|Hin]%elem_of_cons; [eauto|].
    apply list_elem_of_fmap in Hin as (nf & -> & Hnf).
    destruct (Hcols nf Hnf) as (v0 & v & _ & _ & _ & Hr & _). eauto.
Qed.

Lemma stored_row_has_the_declared_columns_witness :
  ∃ pk r, sample_created.2 !! "id" = Some (VInt pk) ∧
          sample_created.1 PaymentTransaction !! pk = Some r ∧
          ∀ a, is_Some (r !! a) ↔ a ∈ columns PaymentTransaction.
Proof.
  apply (stored_row_has_the_declared_columns 100 sample_users PaymentTransaction
           sample_instance true).
  apply outcome_Ok_pair. vm_compute. reflexivity.
Defined.

(** ** The generic relation *)

Lemma has_column_inv m col c :
  has_column m col c → ∃ nf, nf ∈ non_pks m ∧ attname nf = col ∧ fclass nf.2 = c.
Proof.
  intros (nf & Hnf & Ha & Hc)%Exists_exists. exists nf.
  split; [by apply list_elem_of_In|done].
Qed.

Lemma generic_models_columns m :
  m ∈ generic_models →
  has_column m "content_type_id" (ForeignKey ContentType) ∧
  has_column m "object_id" PositiveIntegerField.
Proof.
  intros Hm.
  apply (Forall_elem_of (λ m, has_column m "content_type_id" (ForeignKey ContentType) ∧
                              has_column m "object_id" PositiveIntegerField)
                        generic_models m); [by_compute|done].
Qed.

(** X13: the generic relation of a transaction or of a purchase is
    optional and only half checked.  In a stored row [content_type_id] is
    NULL or the key of a ContentType row that is there, and [object_id] is
    NULL or an integer that is not negative; nothing ties [object_id] to a
    row. *)
Theorem generic_relation_columns now db m self force_insert db' self' :
  m ∈ generic_models →
  save now db m self force_insert = Ok (db', self') →
  ∃ pk r, self' !! "id" = Some (VInt pk) ∧ db' m !! pk = Some r ∧
    (r !! "content_type_id" = Some VNone ∨
     ∃ k, r !! "content_type_id" = Some (VInt k) ∧ is_Some (db ContentType !! k)) ∧
    (r !! "object_id" = Some VNone ∨
     ∃ n, r !! "object_id" = Some (VInt n) ∧ 0 ≤ n).
Proof.
  intros [(ct & Hct & Hcta & Hctc)%has_column_inv
          (oi & Hoi & Hoia & Hoic)%has_column_inv]%generic_models_columns H.
  apply save_inv in H as (pk & r & Hid & _ & -> & _ & Hcols).
  exists pk, r. split; [done|]. split; [apply lookup_saved_row|]. split.
  - destruct (Hcols ct Hct) as (v0 & v & _ & Hprep & Hchk & Hr & _).
    rewrite Hcta in Hr. unfold get_db_prep_save in Hprep.
    unfold check_column in Hchk. rewrite Hctc in Hprep, Hchk.
    destruct v0; try discriminate; injection Hprep as <-; [by left|right].
    case_decide; [|discriminate]. eauto.
  - destruct (Hcols oi Hoi) as (v0 & v & _ & Hprep & Hchk & Hr & _).
    rewrite Hoia in Hr. unfold get_db_prep_save in Hprep.
    unfold check_column in Hchk. rewrite Hoic in Hprep, Hchk.
    destruct v0; try discriminate; injection Hprep as <-; [by left|right].
    case_decide; [|discriminate]. eauto.
Qed.

Lemma generic_relation_columns_witness :
  (∃ pk r,
     (outcome sample_generic (sample_users, ∅)).2 !! "id" = Some (VInt pk) ∧
     (outcome sample_generic (sample_users, ∅)).1 PaymentTransaction !! pk = Some r ∧
     (r !! "content_type_id" = Some VNone ∨
      ∃ k, r !! "content_type_id" = Some (VInt k) ∧
           is_Some (sample_users ContentType !! k)) ∧
     (r !! "object_id" = Some VNone ∨
      ∃ n, r !! "object_id" = Some (VInt n) ∧ 0 ≤ n)) ∧
  from_option id ∅
    ((outcome sample_generic (sample_users, ∅)).1 PaymentTransaction !! 1)
    !! "object_id" = Some (VInt 999) ∧
  from_option id ∅
    ((outcome sample_generic (sample_users, ∅)).1 PaymentTransaction !! 1)
    !! "content_type_id" = Some VNone.
Proof.
  split.
  - apply (generic_relation_columns 100 sample_users PaymentTransaction
             (<["object_id" := VInt 999]> sample_instance) true).
    + by_compute.
    + apply (outcome_Ok_pair sample_generic). vm_compute. reflexivity.
  - vm_compute. split; reflexivity.
Defined.

(** ** What [create] changes *)

(** A primary key that is passed is the primary key of the instance. *)
Lemma init_with_id m kwargs v self :
  kwargs !! "id" = Some v → init m kwargs = Ok self → self !! "id" = Some v.
Proof.
  intros Hk [_ Hfields]%init_inv.
  assert (auto_id ∈ local_fields m) as Hin by (destruct m; by_compute).
  destruct (Hfields auto_id Hin) as (v' & Hv & Hself).
  unfold init_value in Hv. simpl in Hv.
  change (attname auto_id) with "id" in *. rewrite Hk in Hv.
  by injection Hv as <-.
Qed.

(** X14: [create] adds one row and changes nothing else.  A creation that
    succeeds has inserted its row under a key that was not in the table,
    and has left the other rows of the table and the other tables as they
    are.  It never overwrites a row: when the key of a stored row is
    passed, the creation is rejected. *)
Theorem create_adds_one_row now db m kwargs :
  (∀ db' self',
     create now db m kwargs = Ok (db', self') →
     ∃ pk r, self' !! "id" = Some (VInt pk) ∧
             db m !! pk = None ∧
             db' m = <[pk := r]> (db m) ∧
             ∀ m', m' ≠ m → db' m' = db m') ∧
  (∀ k, kwargs !! "id" = Some (VInt k) → is_Some (db m !! k) →
        is_Error (create now db m kwargs)).
Proof.
  split.
  - intros db' self' (self & Hinit & Hs)%create_inv.
    apply save_inv in Hs as (pk & r & Hid & _ & -> & Hnew & _).
    assert (is_update db m self true = false) as Hup by done.
    rewrite Hup in Hnew. exists pk, r.
    split; [done|]. split; [done|]. split; [by rewrite fn_lookup_insert|].
    intros m' Hne. by rewrite fn_lookup_insert_ne.
  - intros k Hk Hsome.
    destruct (create now db m kwargs) as [[db' self']|e] eqn:E;
      [exfalso|by exists e].
    apply create_inv in E as (self & Hinit & Hs).
    pose proof (init_with_id _ _ _ _ Hk Hinit) as Hid.
    unfold save, getattr in Hs. rewrite Hid in Hs. simpl in Hs.
    rewrite bool_decide_eq_true_2 in Hs by done. discriminate.
Qed.

Lemma create_adds_one_row_witness :
  (∃ pk r,
     (outcome sample_second_create (sample_shop, ∅)).2 !! "id" = Some (VInt pk) ∧
     sample_shop PaymentTransaction !! pk = None ∧
     (outcome sample_second_create (sample_shop, ∅)).1 PaymentTransaction
       = <[pk := r]> (sample_shop PaymentTransaction) ∧
     ∀ m', m' ≠ PaymentTransaction →
           (outcome sample_second_create (sample_shop, ∅)).1 m' = sample_shop m') ∧
  is_Some (sample_shop PaymentTransaction !! 1) ∧
  is_Error (create 200 sample_shop PaymentTransaction
              (<["id" := VInt 1]> (sample_transaction_kwargs "TX-C"))).
Proof.
  split; [|split].
  - apply (proj1 (create_adds_one_row 200 sample_shop PaymentTransaction
                    (sample_transaction_kwargs "TX-C"))).
    apply (outcome_Ok_pair sample_second_create). vm_compute. reflexivity.
  - by_compute.
  - apply (proj2 (create_adds_one_row 200 sample_shop PaymentTransaction
                    (<["id" := VInt 1]> (sample_transaction_kwargs "TX-C"))) 1).
    + vm_compute. reflexivity.
    + by_compute.
Defined.
